(** * Dependency Detective: a model of [dependency_detective.py]

    The script scans a Python project for imports, resolves them to package
    names, compares them with the installed packages and provisions an
    environment before it runs the project's entry file.

    The model follows the source function by function.  What the script gets
    from the interpreter and the operating system (the parser behind
    [ast.parse], the iteration order of a [set], subprocesses, the package
    index) is an interface, [Interpreter] and [OS] below; everything that the
    script itself computes is a definition. *)

From Stdlib Require Import ZArith Ascii String List Lia.
From stdpp Require Import base decidable option list strings gmap sorting.

Set Warnings "-register-all".

Local Open Scope string_scope.
Local Open Scope list_scope.

(** ** Strings *)

(** [s.split(sep)] for a separator of one character. *)
Fixpoint py_split (sep : ascii) (s : string) : list string :=
  match s with
  | EmptyString => [ "" ]
  | String c rest =>
      if Ascii.eqb c sep then "" :: py_split sep rest
      else match py_split sep rest with
           | [] => [ String c "" ]
           | w :: ws => String c w :: ws
           end
  end.

(** [s.split('.')[0]]: the list [py_split] returns is never empty
    ([py_split_nonempty]), so the index is always in range. *)
Definition first_component (s : string) : string :=
  default "" (py_split "." s !! 0).

(** [c in s] for a character. *)
Fixpoint contains_char (c : ascii) (s : string) : bool :=
  match s with
  | EmptyString => false
  | String d rest => Ascii.eqb d c || contains_char c rest
  end.

(** [s.split(sep, 1)] unpacked into two names, for [s] that contains [sep]. *)
Fixpoint split_once (sep : ascii) (s : string) : string * string :=
  match s with
  | EmptyString => ("", "")
  | String c rest =>
      if Ascii.eqb c sep then ("", rest)
      else let '(a, b) := split_once sep rest in (String c a, b)
  end.

(** [str.lower] on the ASCII letters; package names are ASCII. *)
Definition lower_ascii (c : ascii) : ascii :=
  let n := nat_of_ascii c in
  if (65 <=? n)%nat && (n <=? 90)%nat then ascii_of_nat (n + 32) else c.

Fixpoint lower (s : string) : string :=
  match s with
  | EmptyString => EmptyString
  | String c rest => String (lower_ascii c) (lower rest)
  end.

(** [s.strip()]: white space removed at both ends. *)
Definition is_space (c : ascii) : bool :=
  let n := nat_of_ascii c in
  ((9 <=? n)%nat && (n <=? 13)%nat) || ((28 <=? n)%nat && (n <=? 32)%nat).

Fixpoint lstrip (s : string) : string :=
  match s with
  | EmptyString => EmptyString
  | String c rest => if is_space c then lstrip rest else s
  end.

Definition strip (s : string) : string :=
  String.rev (lstrip (String.rev (lstrip s))).

Definition newline : string := String (ascii_of_nat 10) EmptyString.

(** The truth value of a [str]: the empty string is false. *)
Definition truthy (s : string) : bool :=
  match s with EmptyString => false | String _ _ => true end.

(** [s.rfind(c)]: the last position of [c], or [-1]. *)
Fixpoint rfind (c : ascii) (s : string) : Z :=
  match s with
  | EmptyString => (-1)%Z
  | String d rest =>
      let r := rfind c rest in
      if (0 <=? r)%Z then (r + 1)%Z else if Ascii.eqb d c then 0%Z else (-1)%Z
  end.

(** [PurePath.suffix] and [PurePath.stem] of a final path component. *)
Definition suffix (name : string) : string :=
  let i := rfind "." name in
  if (0 <? i)%Z && (i <? Z.of_nat (String.length name) - 1)%Z
  then substring (Z.to_nat i) (String.length name - Z.to_nat i) name
  else "".

Definition stem (name : string) : string :=
  let i := rfind "." name in
  if (0 <? i)%Z && (i <? Z.of_nat (String.length name) - 1)%Z
  then substring 0 (Z.to_nat i) name
  else name.

(** Whether [name] matches the pattern [*.py]: it ends in [.py]. *)
Definition matches_star_py (name : string) : bool :=
  let n := String.length name in
  (3 <=? n)%nat && String.eqb (substring (n - 3) 3 name) ".py".

(** ** The syntax tree

    [ast.parse] returns a tree of nodes.  The script looks at two kinds of
    node, [ast.Import] and [ast.ImportFrom]; every other node matters only for
    the nodes below it. *)

Record alias := Alias { alias_name : string; asname : option string }.

Inductive node :=
| Import (names : list alias)
| ImportFrom (module : option string) (names : list alias) (level : nat)
| Node (children : list node).

(** [ast.walk]: the node and all its descendants ("in no specified order",
    here parents first). *)
Fixpoint ast_walk (n : node) : list node :=
  n :: match n with
       | Node children =>
           (fix walk_all (l : list node) : list node :=
              match l with
              | [] => []
              | c :: l' => ast_walk c ++ walk_all l'
              end) children
       | _ => []
       end.

(** What [open(...).read()] followed by [ast.parse] does on a text. *)
Inductive parse_result :=
| Parsed (tree : node)
| SyntaxError
| ParseError.  (* any other exception, e.g. ValueError or RecursionError *)

(** The parser never builds a [from ... import] whose module is the empty
    string: the module is absent ([from . import x]) or a dotted name. *)
Fixpoint parser_tree (n : node) : Prop :=
  match n with
  | Import _ => True
  | ImportFrom module _ _ => module ≠ Some ""
  | Node children =>
      (fix all (l : list node) : Prop :=
         match l with
         | [] => True
         | c :: l' => parser_tree c ∧ all l'
         end) children
  end.

(** ** The interpreter *)

Class Interpreter := {
  (** [ast.parse] on the text of a file *)
  ast_parse : string → parse_result;
  ast_parse_tree : ∀ text tree, ast_parse text = Parsed tree → parser_tree tree;
  (** the order in which a [for] loop visits a [set] of strings *)
  set_iter : gset string → list string;
  set_iter_perm : ∀ s, set_iter s ≡ₚ elements s;
  (** [sys.stdlib_module_names], on Python 3.10 and later *)
  stdlib_module_names : option (gset string);
}.

(** ** The file system

    A directory tree: files with their text, directories with their entries. *)
Inductive entry :=
| File (name : string) (text : string)
| Dir (name : string) (items : list entry).

Definition entry_name (e : entry) : string :=
  match e with File name _ => name | Dir name _ => name end.

(** [(path / name).exists()] in a directory listing. *)
Definition child (name : string) (items : list entry) : option entry :=
  List.find (λ e, String.eqb (entry_name e) name) items.

(** [directory.rglob('*.py')]: every entry below the directory whose name
    matches, with the parts of its path. *)
Fixpoint rglob_entry (prefix : list string) (e : entry) : list (list string * entry) :=
  let here := prefix ++ [entry_name e] in
  (if matches_star_py (entry_name e) then [(here, e)] else []) ++
  match e with
  | File _ _ => []
  | Dir _ items =>
      (fix below (l : list entry) : list (list string * entry) :=
         match l with
         | [] => []
         | c :: l' => rglob_entry here c ++ below l'
         end) items
  end.

Definition rglob_py (parts : list string) (items : list entry) : list (list string * entry) :=
  flat_map (rglob_entry parts) items.

(** ** Constants of the script *)

Definition EXCLUDED_DIRS : gset string :=
  list_to_set [".pytest_cache"; "__pycache__"; "venv"; ".venv"; "virtualenv"; "dist"; "build"].

Definition PACKAGE_MAPPINGS : gmap string string :=
  list_to_map
    [ ("bs4", "beautifulsoup4"); ("cv2", "opencv-python"); ("dotenv", "python-dotenv");
      ("PIL", "Pillow"); ("sklearn", "scikit-learn"); ("yaml", "PyYAML");
      ("skimage", "scikit-image"); ("mpl_toolkits", "matplotlib");
      ("google.cloud", "google-cloud-storage"); ("google.auth", "google-auth");
      ("Crypto", "pycryptodome");
      ("fastapi", "fastapi"); ("starlette", "starlette"); ("uvicorn", "uvicorn");
      ("jose", "python-jose"); ("passlib", "passlib"); ("jinja2", "Jinja2");
      ("werkzeug", "Werkzeug"); ("jwt", "PyJWT");
      ("dateutil", "python-dateutil"); ("faker", "Faker"); ("lxml", "lxml");
      ("pydantic", "pydantic"); ("serial", "pyserial"); ("toml", "toml");
      ("win32api", "pywin32"); ("win32com", "pywin32") ].

(** ** Import extraction and resolution *)

(** The body of the loop over [ast.walk(tree)]. *)
Definition visit_node (imports : gset string) (n : node) : gset string :=
  match n with
  | Import names =>
      foldl (λ acc name, acc ∪ {[ first_component (alias_name name) ]}) imports names
  | ImportFrom module _ level =>
      match level, module with
      | O, Some m => if truthy m then imports ∪ {[ first_component m ]} else imports
      | _, _ => imports
      end
  | Node _ => imports
  end.

(** [extract_imports].  The set starts empty; whatever the [try] block raises
    is logged and the set is returned as it stands.  Opening a directory
    raises [IsADirectoryError], and the parser raises before the loop starts. *)
Definition extract_imports `{Interpreter} (file_path : entry) : gset string :=
  let imports : gset string := ∅ in
  match file_path with
  | Dir _ _ => imports
  | File _ text =>
      match ast_parse text with
      | Parsed tree => foldl visit_node imports (ast_walk tree)
      | SyntaxError => imports
      | ParseError => imports
      end
  end.

(** [resolve_package]; [None] is Python's [None]. *)
Definition resolve_package (module : string) (local_imports blacklist : gset string)
    (package_mappings : gmap string string) : option string :=
  if decide (module ∈ local_imports) then None
  else if decide (module ∈ blacklist) then None
  else Some (default module (package_mappings !! module)).

(** [any(excluded in file_path.parts for excluded in excluded_dirs)] *)
Definition in_excluded_dir `{Interpreter} (parts : list string) (excluded_dirs : gset string) : bool :=
  existsb (λ excluded, bool_decide (excluded ∈ parts)) (set_iter excluded_dirs).

(** The body of the loop over the modules of one file: [if package:] keeps a
    package that is neither [None] nor the empty string. *)
Definition add_package (local_imports blacklist : gset string) (package_mappings : gmap string string)
    (dependencies : gset string) (module : string) : gset string :=
  match resolve_package module local_imports blacklist package_mappings with
  | Some package => if truthy package then dependencies ∪ {[ package ]} else dependencies
  | None => dependencies
  end.

(** The body of the loop over the files that [rglob] yields. *)
Definition scan_file `{Interpreter} (blacklist local_imports : gset string) (script_name : string)
    (excluded_dirs : gset string) (package_mappings : gmap string string)
    (dependencies : gset string) (found : list string * entry) : gset string :=
  let '(parts, file_path) := found in
  if String.eqb (entry_name file_path) script_name then dependencies
  else if in_excluded_dir parts excluded_dirs then dependencies
  else foldl (add_package local_imports blacklist package_mappings) dependencies
         (set_iter (extract_imports file_path)).

(** [scan_directory]: the directory is given by the parts of its path and by
    its listing.  ([project_root] is a parameter the function never reads.) *)
Definition scan_directory `{Interpreter} (directory : list string * list entry)
    (project_root : list entry) (blacklist local_imports : gset string) (script_name : string)
    (excluded_dirs : gset string) (package_mappings : gmap string string) : gset string :=
  foldl (scan_file blacklist local_imports script_name excluded_dirs package_mappings) ∅
    (rglob_py directory.1 directory.2).

(** [find_local_imports] on the listing of the project root. *)
Definition visit_item (local_imports : gset string) (item : entry) : gset string :=
  match item with
  | Dir name items =>
      if bool_decide (is_Some (child "__init__.py" items))
      then local_imports ∪ {[ name ]} else local_imports
  | File name _ =>
      if String.eqb (suffix name) ".py" then local_imports ∪ {[ stem name ]} else local_imports
  end.

Definition find_local_imports (project_root : list entry) : gset string :=
  let scan_paths :=
    [project_root] ++
    match child "src" project_root with
    | Some (Dir _ items) => [items]
    | _ => []
    end in
  foldl (λ local_imports path, foldl visit_item local_imports path) ∅ scan_paths.

(** ** Values decoded from JSON

    What the script can tell about a decoded JSON value: [None], a string, a
    dictionary, or anything else (a number, a boolean, a list), of which only
    the truth value is ever tested. *)
Inductive pyvalue :=
| PNone
| PStr (s : string)
| PDict (items : list (string * pyvalue))
| POther (truth : bool).

Definition py_truthy (v : pyvalue) : bool :=
  match v with
  | PNone => false
  | PStr s => truthy s
  | PDict items => match items with [] => false | _ => true end
  | POther truth => truth
  end.

Fixpoint assoc {A} (key : string) (items : list (string * A)) : option A :=
  match items with
  | [] => None
  | (k, v) :: rest => if String.eqb k key then Some v else assoc key rest
  end.

(** ** Exceptions and outcomes *)

(** [OSError] stands for its subclasses too: [FileNotFoundError] and
    [PermissionError] among them. *)
Inductive exn :=
| SystemExit (code : Z)
| CalledProcessError
| AttributeError
| OSError
| UnicodeEncodeError
| UnboundLocalError.

(** [IOError] is another name of [OSError]. *)
Abbreviation IOError := OSError (only parsing).

Inductive outcome (A : Type) :=
| Ret (a : A)
| Raise (e : exn).
Arguments Ret {A} a.
Arguments Raise {A} e.

(** [v.get(key, default)]: only a dictionary has the method. *)
Definition py_get (v : pyvalue) (key : string) (dflt : pyvalue) : outcome pyvalue :=
  match v with
  | PDict items => Ret (default dflt (assoc key items))
  | _ => Raise AttributeError
  end.

(** ** The operating system and the network *)

(** [requests.get(url, timeout=5)]: the request fails (no connection, a
    timeout, ...: a [RequestException]) or a response arrives, with its status
    code and its body decoded as JSON ([None] when the body is not JSON). *)
Inductive http_result :=
| RequestFailed
| Response (status_code : Z) (json : option pyvalue).

(** [pip list --format=json], run and decoded: the command fails or prints
    something that is not JSON, or it lists the packages with their versions. *)
Inductive pip_list_result :=
| PipListFailed
| PipList (packages : list (string * string)).

(** [f.write(text)] on a file opened in text mode: the text is written, or
    the write fails (an [OSError]: no space left, ...), or the encoding of the
    file, which is the locale's, has no code for a character of the text (a
    [UnicodeEncodeError]). *)
Inductive write_result :=
| Written
| WriteFailed
| NotEncodable.

Class OS := {
  World : Type;
  (** [subprocess.check_call]: the return code of the command, or [None]
      when the command cannot be started (no such program, no permission) *)
  check_call : list string → World → option Z * World;
  (** [json.loads(subprocess.check_output(cmd))] for [pip list] *)
  check_output_json : list string → World → pip_list_result * World;
  (** [input(prompt)] *)
  input : string → World → string * World;
  (** [path.exists()] *)
  path_exists : list string → World → bool;
  (** [open(path, "w")]: whether it succeeds; and [f.write(text)] *)
  open_w : list string → World → bool * World;
  file_write : list string → string → World → write_result * World;
  (** the package index, taken as fixed while the script runs *)
  requests_get : string → http_result;
  (** [str(version)] inside an f-string; a string is shown as it is *)
  py_str : pyvalue → string;
  py_str_str : ∀ s, py_str (PStr s) = s;
  (** [path / name] and [str(path)] *)
  path_div : list string → string → list string;
  path_str : list string → string;
  (** [os.name == "nt"], [sys.executable], [Path.cwd()] and the directory
      that [tempfile.TemporaryDirectory()] creates *)
  os_name_nt : bool;
  sys_executable : string;
  cwd : list string;
  temp_dir : list string;
}.

(** What the script does to the world, in order. *)
Inductive event :=
| Called (cmd : list string) (returncode : Z)
| NotStarted (cmd : list string)
| Listed (cmd : list string)
| Asked (prompt answer : string)
| Opened (path : list string) (ok : bool)
| Wrote (path : list string) (text : string) (ok : bool).

Section Effects.
Context `{OS}.

Record state := State { world : World; trace : list event }.

(** A computation changes the state and returns or raises. *)
Definition M (A : Type) : Type := state → outcome A * state.

Definition ret {A} (a : A) : M A := λ st, (Ret a, st).
Definition raise {A} (e : exn) : M A := λ st, (Raise e, st).
Definition bind {A B} (m : M A) (k : A → M B) : M B :=
  λ st, match m st with
        | (Ret a, st') => k a st'
        | (Raise e, st') => (Raise e, st')
        end.
Definition lift {A} (o : outcome A) : M A := λ st, (o, st).

(** [try: body except cls: handler] *)
Definition try_except {A} (body : M A) (cls : exn → bool) (handler : M A) : M A :=
  λ st, match body st with
        | (Ret a, st') => (Ret a, st')
        | (Raise e, st') => if cls e then handler st' else (Raise e, st')
        end.

End Effects.

Notation "x <- m ;; k" := (bind m (λ x, k))
  (at level 100, m at next level, right associativity, only parsing).

Section Program.
Context `{Interpreter} `{OS}.

(** [for x in l: body(x)] *)
Fixpoint for_each {X} (l : list X) (body : X → M unit) : M unit :=
  match l with
  | [] => ret tt
  | x :: rest => _ <- body x ;; for_each rest body
  end.

(** [for x in l:] with a variable that the body updates. *)
Fixpoint for_fold {X S} (l : list X) (s : S) (body : S → X → M S) : M S :=
  match l with
  | [] => ret s
  | x :: rest => s' <- body s x ;; for_fold rest s' body
  end.

Definition is_CalledProcessError (e : exn) : bool :=
  match e with CalledProcessError => true | _ => false end.
Definition is_IOError (e : exn) : bool :=
  match e with IOError => true | _ => false end.

Definition sys_exit {A} (code : Z) : M A := raise (SystemExit code).

(** [subprocess.check_call(cmd)]: a command that cannot be started raises
    [FileNotFoundError] or [PermissionError], an [OSError]; a return code other
    than zero raises [CalledProcessError]. *)
Definition subprocess_check_call (cmd : list string) : M unit :=
  λ st, let '(started, w) := check_call cmd (world st) in
        match started with
        | None => (Raise OSError, State w (trace st ++ [NotStarted cmd]))
        | Some rc =>
            let st' := State w (trace st ++ [Called cmd rc]) in
            if (rc =? 0)%Z then (Ret tt, st') else (Raise CalledProcessError, st')
        end.

Definition builtin_input (prompt : string) : M string :=
  λ st, let '(answer, w) := input prompt (world st) in
        (Ret answer, State w (trace st ++ [Asked prompt answer])).

Definition exists_ (path : list string) : M bool :=
  λ st, (Ret (path_exists path (world st)), st).

Definition builtin_open_w (path : list string) : M unit :=
  λ st, let '(ok, w) := open_w path (world st) in
        let st' := State w (trace st ++ [Opened path ok]) in
        if ok then (Ret tt, st') else (Raise IOError, st').

(** [f.write(text)]: a write that fails raises [IOError]; a text that the
    encoding of the file cannot hold raises [UnicodeEncodeError], which is a
    [ValueError] and no [IOError]. *)
Definition f_write (path : list string) (text : string) : M unit :=
  λ st, let '(r, w) := file_write path text (world st) in
        match r with
        | Written => (Ret tt, State w (trace st ++ [Wrote path text true]))
        | WriteFailed => (Raise IOError, State w (trace st ++ [Wrote path text false]))
        | NotEncodable => (Raise UnicodeEncodeError, State w (trace st ++ [Wrote path text false]))
        end.

(** [load_blacklist] *)
Definition load_blacklist : gset string :=
  match stdlib_module_names with
  | Some names => names
  | None =>
      list_to_set
        [ "abc"; "argparse"; "array"; "asyncio"; "base64"; "binascii"; "bisect";
          "calendar"; "cmath"; "collections"; "concurrent"; "contextlib"; "copy";
          "csv"; "datetime"; "decimal"; "difflib"; "dis"; "enum"; "errno";
          "faulthandler"; "fractions"; "functools"; "gc"; "getopt"; "glob";
          "graphlib"; "gzip"; "hashlib"; "heapq"; "hmac"; "html"; "http"; "imaplib";
          "importlib"; "inspect"; "io"; "ipaddress"; "itertools"; "json";
          "keyword"; "linecache"; "locale"; "logging"; "lzma"; "math"; "mimetypes";
          "multiprocessing"; "netrc"; "numbers"; "operator"; "os"; "pathlib";
          "pickle"; "platform"; "plistlib"; "pprint"; "profile"; "pstats";
          "py_compile"; "queue"; "random"; "re"; "sched"; "secrets"; "selectors";
          "shlex"; "shutil"; "signal"; "site"; "smtplib"; "socket"; "sqlite3";
          "ssl"; "stat"; "statistics"; "string"; "struct"; "subprocess"; "sys";
          "sysconfig"; "tabnanny"; "tarfile"; "tempfile"; "textwrap"; "threading";
          "time"; "timeit"; "tkinter"; "token"; "trace"; "traceback"; "types";
          "typing"; "unicodedata"; "unittest"; "urllib"; "uuid"; "venv";
          "warnings"; "wave"; "weakref"; "webbrowser"; "xml"; "zipfile";
          "zipimport"; "zlib"; "zoneinfo" ]
  end.

Definition get_python_executable : string := sys_executable.

(** The dictionary comprehension of [get_installed_packages]: a later package
    with the same lowercased name replaces an earlier one. *)
Definition installed_dict (packages : list (string * string)) : gmap string string :=
  foldl (λ d pkg, <[ lower pkg.1 := pkg.2 ]> d) ∅ packages.

(** [get_installed_packages] *)
Definition get_installed_packages (python_exe : string) : M (gmap string string) :=
  let cmd := [python_exe; "-m"; "pip"; "list"; "--format=json"] in
  λ st, let '(r, w) := check_output_json cmd (world st) in
        let st' := State w (trace st ++ [Listed cmd]) in
        match r with
        | PipList packages => (Ret (installed_dict packages), st')
        | PipListFailed => (Ret ∅, st')
        end.

(** The address that [get_latest_version] asks. *)
Definition pypi_url (package_name : string) : string :=
  "https://pypi.org/pypi/" +:+ package_name +:+ "/json".

(** [get_latest_version].  Every failure of the request, a 4XX or 5XX status
    ([raise_for_status]) and a body that is not JSON are a
    [RequestException], which the function catches; [.get] on a value that is
    no dictionary raises [AttributeError], which it does not. *)
Definition get_latest_version (package_name : string) : outcome pyvalue :=
  let url := pypi_url package_name in
  match requests_get url with
  | RequestFailed => Ret PNone
  | Response status_code json =>
      if (400 <=? status_code)%Z && (status_code <? 600)%Z then Ret PNone
      else match json with
           | None => Ret PNone
           | Some data =>
               match py_get data "info" (PDict []) with
               | Ret info => py_get info "version" PNone
               | Raise e => Raise e
               end
           end
  end.

(** [install_dependencies]: the body of the loop, then the loop. *)
Definition pip_install_cmd (python_exe dep : string) : list string :=
  [python_exe; "-m"; "pip"; "install"; dep].

Definition install_one (python_exe : string) (failed_installs : list string) (dep : string)
    : M (list string) :=
  try_except
    (_ <- subprocess_check_call (pip_install_cmd python_exe dep) ;; ret failed_installs)
    is_CalledProcessError
    (ret (failed_installs ++ [dep])).

Definition install_dependencies (missing_deps : list string) (python_exe : string) : M (list string) :=
  for_fold missing_deps [] (install_one python_exe).

(** [generate_requirements_file]: the body of the loop over the sorted
    dependencies, then the function. *)
Definition write_requirement (file_path : list string) (installed_packages : gmap string string)
    (dep : string) : M unit :=
  let version := match installed_packages !! lower dep with
                 | Some v => PStr v
                 | None => PNone
                 end in
  version <- (if negb (py_truthy version) then lift (get_latest_version dep) else ret version) ;;
  if py_truthy version
  then f_write file_path (dep +:+ "==" +:+ py_str version +:+ newline)
  else f_write file_path (dep +:+ newline).

Definition sorted (l : list string) : list string := merge_sort String.le l.

Definition generate_requirements_file (dependencies : gset string)
    (installed_packages : gmap string string) : M unit :=
  let file_path := path_div cwd "requirements.txt" in
  try_except
    (_ <- builtin_open_w file_path ;;
     for_each (sorted (set_iter dependencies)) (write_requirement file_path installed_packages))
    is_IOError
    (ret tt).

(** [run_project] *)
Definition run_project (project_file python_exe : string) : M unit :=
  try_except
    (subprocess_check_call [python_exe; project_file])
    is_CalledProcessError
    (sys_exit 1).

(** The interpreter of a virtual environment. *)
Definition venv_python_of (venv_path : list string) : list string :=
  if os_name_nt then venv_path ++ ["Scripts"; "python.exe"] else venv_path ++ ["bin"; "python"].

(** [run_in_temp_venv] *)
Definition run_in_temp_venv (required_deps : gset string) (project_file : string) : M unit :=
  let venv_path := path_div temp_dir "venv" in
  try_except
    (_ <- subprocess_check_call [sys_executable; "-m"; "venv"; path_str venv_path] ;;
     let venv_python := venv_python_of venv_path in
     _ <- for_each (set_iter required_deps)
            (λ dep, subprocess_check_call (pip_install_cmd (path_str venv_python) dep)) ;;
     subprocess_check_call [path_str venv_python; project_file])
    is_CalledProcessError
    (sys_exit 1).

(** The command line, as [argparse] returns it. *)
Record Args := {
  arg_project_file : string;
  arg_generate_requirements : bool;
  arg_venv : bool;
  arg_temp_venv : bool;
  arg_yes : bool;
  arg_dry_run : bool;
  arg_exclude_dir : option (list string);
  arg_map : option (list string);
}.

(** The variables of [main] that the comparison with the installed packages
    reads and writes. *)
Record locals := Locals {
  required_deps : gset string;
  installed_deps : gmap string string;
  missing_deps : list string;
}.

(** [missing_deps = [dep for dep in required_deps if dep.lower() not in installed_deps]] *)
Definition assign_missing_deps (l : locals) : locals :=
  {| required_deps := required_deps l;
     installed_deps := installed_deps l;
     missing_deps :=
       List.filter (λ dep, negb (bool_decide (lower dep ∈ dom (installed_deps l))))
         (set_iter (required_deps l)) |}.

(** One [--map IMPORT:PACKAGE] option.  The branch for a value without a
    colon prints through [console] before [console] is assigned. *)
Definition add_mapping (package_mappings : gmap string string) (m : string)
    : M (gmap string string) :=
  if negb (contains_char ":" m) then raise UnboundLocalError
  else let '(import_name, package_name) := split_once ":" m in
       ret (<[ import_name := package_name ]> package_mappings).

(** The persistent [--venv] branch of [main]. *)
Definition main_venv (deps : gset string) : M unit :=
  let venv_path := path_div cwd "venv" in
  there <- exists_ venv_path ;;
  if (there : bool) then sys_exit 1
  else
    _ <- try_except
           (_ <- subprocess_check_call [sys_executable; "-m"; "venv"; path_str venv_path] ;;
            let venv_python := venv_python_of venv_path in
            if bool_decide (deps ≠ ∅) then
              for_each (set_iter deps)
                (λ dep, subprocess_check_call (pip_install_cmd (path_str venv_python) dep))
            else ret tt)
           is_CalledProcessError
           (sys_exit 1) ;;
    sys_exit 0.

(** The block [if missing_deps: ... else: ...] of [main]. *)
Definition install_missing (args : Args) (missing : list string) (python_exe : string) : M unit :=
  match missing with
  | [] => ret tt
  | _ :: _ =>
      response <- (if arg_yes args then ret "y"
                   else answer <- builtin_input "Would you like to install them now? (y/n): " ;;
                        ret (lower (strip answer))) ;;
      if String.eqb response "y" then
        failed_packages <- install_dependencies missing python_exe ;;
        match failed_packages with
        | [] => ret tt
        | _ :: _ => sys_exit 1
        end
      else sys_exit 1
  end.

(** The last lines of [main]: the project file is run when it exists. *)
Definition run_if_exists (project_file : list string) (python_exe : string) : M unit :=
  there <- exists_ project_file ;;
  if negb there then sys_exit 1
  else run_project (path_str project_file) python_exe.

(** The default branch of [main], from the list of missing dependencies on. *)
Definition main_default (args : Args) (l : locals) (project_file : list string)
    (python_exe : string) : M unit :=
  if arg_dry_run args then sys_exit 0
  else
    _ <- install_missing args (missing_deps l) python_exe ;;
    run_if_exists project_file python_exe.

(** The end of [main], from the requirements file on: what the script does
    with the required dependencies and the installed packages. *)
Definition main_after_scan (args : Args) (deps : gset string) (installed : gmap string string)
    (project_file : list string) (python_exe : string) : M unit :=
  if arg_generate_requirements args then
    _ <- generate_requirements_file deps installed ;; sys_exit 0
  else if arg_temp_venv args then
    _ <- run_in_temp_venv deps (path_str project_file) ;; sys_exit 0
  else if arg_venv args then main_venv deps
  else
    main_default args
      (assign_missing_deps {| required_deps := deps; installed_deps := installed; missing_deps := [] |})
      project_file python_exe.

(** [main], after [parse_args]: [script_name] is the name of [sys.argv[0]],
    [cwd_items] the listing of the current directory, [project_root] the
    listing of the directory [find_project_root] returns, and [config_exclude]
    the [exclude] entry of the configuration, when there is one. *)
Definition main (args : Args) (script_name : string) (cwd_items project_root : list entry)
    (config_exclude : option (list string)) : M unit :=
  let directory := (cwd, cwd_items) in
  let excluded_dirs := foldl (λ s d, s ∪ {[ d ]}) EXCLUDED_DIRS (default [] config_exclude) in
  let excluded_dirs := foldl (λ s d, s ∪ {[ d ]}) excluded_dirs (default [] (arg_exclude_dir args)) in
  package_mappings <- for_fold (default [] (arg_map args)) PACKAGE_MAPPINGS add_mapping ;;
  let project_file := path_div directory.1 (arg_project_file args) in
  let blacklist := load_blacklist in
  let python_exe := get_python_executable in
  let local_imports := find_local_imports project_root in
  let deps := scan_directory directory project_root blacklist local_imports script_name
                excluded_dirs package_mappings in
  installed <- get_installed_packages python_exe ;;
  main_after_scan args deps installed project_file python_exe.

End Program.

(** ** What a file imports, in the words of the specification *)

(** [in_tree d n]: the node [d] is [n] or lies below it. *)
Inductive in_tree (d : node) : node → Prop :=
| in_tree_here : in_tree d d
| in_tree_below children c : c ∈ children → in_tree d c → in_tree d (Node children).

(** The module names of the [import X] statements and of the absolute
    [from X import Y] statements of a tree. *)
Inductive imports_module (tree : node) : string → Prop :=
| imports_by_import names a :
    in_tree (Import names) tree → a ∈ names → imports_module tree (alias_name a)
| imports_by_from m names :
    in_tree (ImportFrom (Some m) names 0) tree → imports_module tree m.


(** ** The files below a directory, in the words of the specification *)

(** [under prefix items path e]: the entry [e] lies, at any depth, below the
    directory whose path is [prefix] and whose listing is [items]; [path] is
    the path of [e]. *)
Inductive under : list string → list entry → list string → entry → Prop :=
| under_here prefix items e :
    e ∈ items → under prefix items (prefix ++ [entry_name e]) e
| under_deeper prefix items name sub path e :
    Dir name sub ∈ items → under (prefix ++ [name]) sub path e → under prefix items path e.

(** ** What [find_local_imports] records, in the words of the specification *)

(** The item makes [x] a local module: a directory with an [__init__.py]
    entry, by its name, or a [.py] file, by its stem. *)
Definition records_local (item : entry) (x : string) : Prop :=
  (∃ name items, item = Dir name items ∧ is_Some (child "__init__.py" items) ∧ x = name) ∨
  (∃ name text, item = File name text ∧ suffix name = ".py" ∧ x = stem name).

(** The immediate children of the project root and, when the root has a
    directory [src], the immediate children of that directory. *)
Definition immediate_child (project_root : list entry) (item : entry) : Prop :=
  item ∈ project_root ∨
  ∃ name items, child "src" project_root = Some (Dir name items) ∧ item ∈ items.

(** The tree cut below a depth: directories at depth zero lose their listing,
    files lose their text. *)
Fixpoint truncate (depth : nat) (e : entry) : entry :=
  match e with
  | File name _ => File name ""
  | Dir name items =>
      match depth with
      | O => Dir name []
      | S d =>
          Dir name
            ((fix each (l : list entry) : list entry :=
                match l with
                | [] => []
                | c :: l' => truncate d c :: each l'
                end) items)
      end
  end.

(** ** The answer of the package index, in the words of the specification *)

(** The value under the keys [info] and [version] of a decoded response. *)
Definition version_found (data v : pyvalue) : Prop :=
  ∃ items info,
    data = PDict items ∧ assoc "info" items = Some (PDict info) ∧ assoc "version" info = Some v.

(** A response of the index's JSON interface: an object whose [info] member,
    when it has one, is an object. *)
Definition pypi_document (data : pyvalue) : Prop :=
  ∃ items, data = PDict items ∧
    ∀ info, assoc "info" items = Some info → ∃ fields, info = PDict fields.

(** The claim about the index, as the specification states it: whatever
    the index sends, the function returns the version found or [None]. *)
Definition get_latest_version_as_stated `{OS} (package_name : string) : Prop :=
  get_latest_version package_name = Ret PNone ∨
  ∃ status data v,
    requests_get (pypi_url package_name) = Response status (Some data) ∧
    version_found data v ∧ get_latest_version package_name = Ret v.

(** ** The lines of [requirements.txt], in the words of the specification *)

Section Requirements.
Context `{OS}.

(** The version a dependency is pinned to: the installed one when the
    dictionary has one, otherwise the one the index gives, when it gives one.
    An empty string is no version. *)
Definition pinned_version (installed_packages : gmap string string) (dep : string) : option string :=
  let from_index :=
    match get_latest_version dep with
    | Ret (PStr v) => if truthy v then Some v else None
    | _ => None
    end in
  match installed_packages !! lower dep with
  | Some v => if truthy v then Some v else from_index
  | None => from_index
  end.

Definition requirement_line (installed_packages : gmap string string) (dep : string) : string :=
  match pinned_version installed_packages dep with
  | Some version => dep +:+ "==" +:+ version +:+ newline
  | None => dep +:+ newline
  end.

End Requirements.

(** ** Installation attempts, in the words of the specification *)

(** An attempt is a dependency with the return code of its [pip install];
    a code other than zero is a [CalledProcessError]. *)
Definition failed_of (attempts : list (string * Z)) : list string :=
  (filter (λ a, a.2 ≠ 0%Z) attempts).*1.

Definition install_events (python_exe : string) (attempts : list (string * Z)) : list event :=
  (λ a, Called (pip_install_cmd python_exe a.1) a.2) <$> attempts.

(** ** Runs of the project and their provisioning, in the words of the
    specification *)

(** An installation that failed, and an answer to the prompt that is not
    [y]. *)
Definition failed_install (ev : event) : Prop :=
  ∃ exe dep rc, ev = Called (pip_install_cmd exe dep) rc ∧ rc ≠ 0%Z.

Definition declined (ev : event) : Prop :=
  ∃ prompt answer, ev = Asked prompt answer ∧ lower (strip answer) ≠ "y".

(** A command that runs a file: an interpreter and the file, nothing else. *)
Definition is_project_run (ev : event) : bool :=
  match ev with
  | Called [_; _] _ => true
  | _ => false
  end.

(** ** What each step of a loop adds, and what a flow leaves in the trace *)

(** What one node adds to the set. *)
Definition node_adds (n : node) (x : string) : Prop :=
  (∃ names a, n = Import names ∧ a ∈ names ∧ x = first_component (alias_name a)) ∨
  (∃ m names, n = ImportFrom (Some m) names 0 ∧ m ≠ "" ∧ x = first_component m).

(** What the file found at a path adds to the dependencies. *)
Definition file_adds `{Interpreter} (blacklist local_imports : gset string) (script_name : string)
    (excluded_dirs : gset string) (package_mappings : gmap string string)
    (found : list string * entry) (package : string) : Prop :=
  entry_name found.2 ≠ script_name ∧
  (∀ part, part ∈ found.1 → part ∉ excluded_dirs) ∧
  ∃ module, module ∈ extract_imports found.2 ∧
    resolve_package module local_imports blacklist package_mappings = Some package ∧
    package ≠ "".

(** No event of the trace runs a file. *)
Definition quiet (new : list event) : Prop :=
  Forall (λ ev, is_project_run ev = false) new.

Definition trouble (ev : event) : Prop := failed_install ev ∨ declined ev.

(** What a flow of [main] leaves in the trace: either no run at all, and
    exit status 1 when an installation failed or the user declined
    ([sys.exit(1)], or the [OSError] of a later command that cannot be
    started, which nothing catches); or one run, at the end, after a
    successful installation of every needed dependency and no failure. *)
Definition stopped (out : outcome unit) (new : list event) : Prop :=
  quiet new ∧
  ((∃ ev, ev ∈ new ∧ trouble ev) → out = Raise (SystemExit 1) ∨ out = Raise OSError).

Definition ran (exe pf : string) (needed : list string) (new : list event) : Prop :=
  ∃ prefix rc,
    new = prefix ++ [Called [exe; pf] rc] ∧ quiet prefix ∧
    (∀ dep, dep ∈ needed → Called (pip_install_cmd exe dep) 0 ∈ prefix) ∧
    (∀ ev, ev ∈ prefix → ¬ trouble ev).

Definition provisioned (exe pf : string) (needed : list string) (out : outcome unit)
    (new : list event) : Prop :=
  stopped out new ∨ ran exe pf needed new.

(** An event that opens the file at [path] or writes to it. *)
Definition file_event (path : list string) (ev : event) : Prop :=
  match ev with
  | Opened p _ | Wrote p _ _ => p = path
  | _ => False
  end.

(** ** The claim about the scan, as the specification states it *)

(** The union of the results that are not [None]. *)
Definition scan_directory_as_stated `{Interpreter} (parts : list string) (items : list entry)
    (blacklist local_imports : gset string) (script_name : string)
    (excluded_dirs : gset string) (package_mappings : gmap string string) : Prop :=
  ∀ package,
    package ∈ scan_directory (parts, items) items blacklist local_imports script_name
                excluded_dirs package_mappings ↔
    ∃ path file,
      under parts items path file ∧ matches_star_py (entry_name file) = true ∧
      entry_name file ≠ script_name ∧
      (∀ part, part ∈ path → part ∉ excluded_dirs) ∧
      ∃ module, module ∈ extract_imports file ∧
        resolve_package module local_imports blacklist package_mappings = Some package.

(** ** A small interpreter and project, to run the model on *)

Definition demo_app : string :=
  "import os.path, yaml
from . import helpers
from .models import User
from requests.adapters import HTTPAdapter
import foo".

Definition demo_app_tree : node :=
  Node [ Import [Alias "os.path" None; Alias "yaml" None];
         ImportFrom None [Alias "helpers" None] 1;
         ImportFrom (Some "models") [Alias "User" None] 1;
         ImportFrom (Some "requests.adapters") [Alias "HTTPAdapter" None] 0;
         Import [Alias "foo" None] ].

Definition demo_sources : list (string * node) :=
  [ (demo_app, demo_app_tree);
    ("def main():
    import numpy as np", Node [Node [Import [Alias "numpy" (Some "np")]]]);
    ("", Node []) ].

Definition demo_parse (text : string) : parse_result :=
  match assoc text demo_sources with
  | Some tree => Parsed tree
  | None => SyntaxError
  end.

Definition demo_interpreter : Interpreter.
Proof.
  refine {| ast_parse := demo_parse;
            set_iter := elements;
            set_iter_perm := λ s, reflexivity (elements s);
            stdlib_module_names := Some (list_to_set ["os"; "sys"; "json"; "pathlib"]) |}.
  intros text tree. unfold demo_parse, demo_sources. cbn [assoc].
  repeat match goal with |- context [String.eqb ?a ?b] => destruct (String.eqb a b) end;
    intros [= <-]; cbn; intuition congruence.
Defined.

(** ** A small operating system

    The world is the list of the return codes that the next commands will
    give (zero once the list is used up) and the answers that the user will
    type. *)
Record demo_world := DemoWorld { codes : list Z; answers : list string }.

(** Only the programs of [demo_programs] can be started. *)
Definition demo_programs : list string :=
  ["python3"; "proj/venv/bin/python"; "tmp/tmpk3x/venv/bin/python"].

Definition demo_check_call (cmd : list string) (w : demo_world) : option Z * demo_world :=
  if bool_decide (Exists (λ program, head cmd = Some program) demo_programs) then
    match codes w with
    | [] => (Some 0%Z, w)
    | rc :: rest => (Some rc, DemoWorld rest (answers w))
    end
  else (None, w).

Definition demo_input (prompt : string) (w : demo_world) : string * demo_world :=
  match answers w with
  | [] => ("", w)
  | a :: rest => (a, DemoWorld (codes w) rest)
  end.

Definition demo_index : list (string * http_result) :=
  [ (pypi_url "requests",
     Response 200 (Some (PDict [("info", PDict [("name", PStr "requests");
                                                ("version", PStr "2.31.0")])])));
    (pypi_url "ghost", Response 404 None);
    (pypi_url "odd", Response 200 (Some (POther true)));
    (pypi_url "page", Response 200 None) ].

Definition demo_os : OS :=
  {| World := demo_world;
     check_call := demo_check_call;
     check_output_json := λ _ w, (PipList [("PyYAML", "6.0.1"); ("pip", "24.0")], w);
     input := demo_input;
     path_exists := λ path _, bool_decide (path = ["proj"; "main.py"]);
     open_w := λ _ w, (true, w);
     file_write := λ _ _ w, (Written, w);
     requests_get := λ url, default RequestFailed (assoc url demo_index);
     py_str := λ v, match v with PStr s => s | _ => "None" end;
     py_str_str := λ s, eq_refl;
     path_div := λ path name, path ++ [name];
     path_str := String.concat "/";
     os_name_nt := false;
     sys_executable := "python3";
     cwd := ["proj"];
     temp_dir := ["tmp"; "tmpk3x"] |}.

Definition demo_state (codes : list Z) (answers : list string) : @state demo_os :=
  @State demo_os (DemoWorld codes answers) [].

Definition demo_args : Args :=
  {| arg_project_file := "main.py"; arg_generate_requirements := false; arg_venv := false;
     arg_temp_venv := false; arg_yes := false; arg_dry_run := false;
     arg_exclude_dir := None; arg_map := None |}.

(** ** More of the script: the project root and the options of [main] *)

(** [path.parent]: the last part removed; the anchor of a path (and the empty
    path) is its own parent. *)
Definition parent (path : list string) : list string :=
  match path with
  | [] | [_] => path
  | _ :: _ :: _ => removelast path
  end.

Section ProjectRoot.
Context `{OS}.

(** [(current_path / ".git").exists() or (current_path / "pyproject.toml").exists()] *)
Definition has_marker (w : World) (current_path : list string) : bool :=
  path_exists (path_div current_path ".git") w ||
  path_exists (path_div current_path "pyproject.toml") w.

(** The loop of [find_project_root]; it goes up one directory at a time, so
    as many rounds as the path has parts are enough. *)
Fixpoint find_project_root_loop (rounds : nat) (w : World) (current_path : list string)
    : option (list string) :=
  match rounds with
  | O => None
  | S rounds' =>
      if bool_decide (parent current_path ≠ current_path) then
        if has_marker w current_path then Some current_path
        else find_project_root_loop rounds' w (parent current_path)
      else None
  end.

(** [find_project_root] on a resolved path. *)
Definition find_project_root (w : World) (start_path : list string) : list string :=
  default start_path (find_project_root_loop (length start_path) w start_path).

End ProjectRoot.


(** The table without the keys that contain a dot. *)
Definition undotted (package_mappings : gmap string string) : gmap string string :=
  filter (λ kv, contains_char "." kv.1 = false) package_mappings.

(** The events that are a prompt. *)
Definition is_prompt (ev : event) : bool :=
  match ev with
  | Asked _ _ => true
  | _ => false
  end.

(** An event that, when it is a command, is one that ran and returned
    zero. *)
Definition returned_zero (ev : event) : Prop :=
  match ev with
  | Called _ rc => rc = 0%Z
  | NotStarted _ => False
  | _ => True
  end.

(** The table after the [--map] options, when each of them has a colon. *)
Definition mapped (package_mappings : gmap string string) (maps : list string)
    : gmap string string :=
  foldl (λ pm m, <[ (split_once ":" m).1 := (split_once ":" m).2 ]> pm) package_mappings maps.

(** The attempts of a loop that installed every dependency. *)
Definition all_installed (deps : list string) : list (string * Z) :=
  (λ dep, (dep, 0%Z)) <$> deps.

(** A trace whose commands all returned zero, the last one apart. *)
Definition failed_at_end (new : list event) : Prop :=
  ∃ before cmd rc, new = before ++ [Called cmd rc] ∧ rc ≠ 0%Z ∧ Forall returned_zero before.

(** A trace whose commands all returned zero, the last one apart, which
    could not be started. *)
Definition not_started_at_end (new : list event) : Prop :=
  ∃ before cmd, new = before ++ [NotStarted cmd] ∧ Forall returned_zero before.

(** The event of an attempt to run a command: the command ran and returned
    a code, or it could not be started. *)
Definition attempt (cmd : list string) (ev : event) : Prop :=
  ev = NotStarted cmd ∨ ∃ rc, ev = Called cmd rc.

(** ** Commands run one after the other, each only when those before it
    returned zero *)

(** Every command of the list ran and returned zero. *)
Definition all_zero (commands : list (list string)) : list event :=
  (λ cmd, Called cmd 0%Z) <$> commands.

(** The commands of the list ran in order up to one that returned another
    code; those after it did not run. *)
Definition failed_in (commands : list (list string)) (new : list event) : Prop :=
  ∃ before cmd rest rc,
    commands = before ++ cmd :: rest ∧ rc ≠ 0%Z ∧ new = all_zero before ++ [Called cmd rc].

(** The commands of the list ran in order up to one that could not be
    started; those after it did not run. *)
Definition not_started_in (commands : list (list string)) (new : list event) : Prop :=
  ∃ before cmd rest,
    commands = before ++ cmd :: rest ∧ new = all_zero before ++ [NotStarted cmd].

Section Emits.
Context `{OS}.

(** [emits P Q m]: whatever the state, the computation [m] adds to the trace
    only events that satisfy [P], and raises only exceptions that satisfy
    [Q]. *)
Definition emits {A} (P : event → Prop) (Q : exn → Prop) (m : M A) : Prop :=
  ∀ st, ∃ new w out,
    m st = (out, State w (trace st ++ new)) ∧ Forall P new ∧ ∀ e, out = Raise e → Q e.

End Emits.

Definition no_prompt (ev : event) : Prop := is_prompt ev = false.

(** An event that is no command that could not be started. *)
Definition started (ev : event) : Prop :=
  match ev with
  | NotStarted _ => False
  | _ => True
  end.

Section Unstarted.
Context `{OS}.

(** [unstarted_last m]: the computation [m] goes no further than the first
    command that cannot be started.  Either it raises [OSError] and that
    command is its last event, or it raises no [OSError] and every command
    of its trace was started. *)
Definition unstarted_last {A} (m : M A) : Prop :=
  ∀ st, ∃ new w out,
    m st = (out, State w (trace st ++ new)) ∧
    ((out = Raise OSError ∧
      ∃ before cmd, new = before ++ [NotStarted cmd] ∧ Forall started before) ∨
     (out ≠ Raise OSError ∧ Forall started new)).

End Unstarted.

(** The conditions under which [main] asks whether to install: the default
    flow, not a dry run, no [--yes], and something is missing. *)
Definition asks (args : Args) (missing : list string) : Prop :=
  arg_generate_requirements args = false ∧ arg_temp_venv args = false ∧
  arg_venv args = false ∧ arg_dry_run args = false ∧ arg_yes args = false ∧ missing ≠ [].

(** An event that, when it is a [pip install], installs one of the allowed
    dependencies. *)
Definition installs_only (allowed : list string) (ev : event) : Prop :=
  ∀ exe dep rc, ev = Called (pip_install_cmd exe dep) rc → dep ∈ allowed.

(** ** A file system with project markers, to run [find_project_root] on *)

Definition demo_os_marked : OS :=
  {| World := demo_world;
     check_call := demo_check_call;
     check_output_json := λ _ w, (PipListFailed, w);
     input := demo_input;
     path_exists := λ path _,
       bool_decide (path ∈ [ ["/"; ".git"];
                             ["/"; "home"; "u"; "work"; "pyproject.toml"];
                             ["/"; "home"; "u"; "work"; "app"; "main.py"] ]);
     open_w := λ _ w, (false, w);
     file_write := λ _ _ w, (Written, w);
     requests_get := λ _, RequestFailed;
     py_str := λ v, match v with PStr s => s | _ => "None" end;
     py_str_str := λ s, eq_refl;
     path_div := λ path name, path ++ [name];
     path_str := String.concat "/";
     os_name_nt := false;
     sys_executable := "python3";
     cwd := ["/"; "home"; "u"; "work"; "app"];
     temp_dir := ["/"; "tmp"; "tmpq7"] |}.

(** ** A file system whose files are written in ASCII *)

(** A name with a letter that ASCII does not have. *)
Definition demo_cafe : string := "caf" +:+ String (ascii_of_nat 233) "".

Fixpoint is_ascii (s : string) : bool :=
  match s with
  | EmptyString => true
  | String c rest => (nat_of_ascii c <? 128)%nat && is_ascii rest
  end.

Definition demo_os_ascii : OS :=
  {| World := demo_world;
     check_call := demo_check_call;
     check_output_json := λ _ w, (PipListFailed, w);
     input := demo_input;
     path_exists := λ _ _, false;
     open_w := λ _ w, (true, w);
     file_write := λ _ text w, (if is_ascii text then Written else NotEncodable, w);
     requests_get := λ _, RequestFailed;
     py_str := λ v, match v with PStr s => s | _ => "None" end;
     py_str_str := λ s, eq_refl;
     path_div := λ path name, path ++ [name];
     path_str := String.concat "/";
     os_name_nt := false;
     sys_executable := "python3";
     cwd := ["proj"];
     temp_dir := ["tmp"; "tmpk3x"] |}.

(** ** Command lines for the examples *)

Definition demo_args_bad_map : Args :=
  {| arg_project_file := "main.py"; arg_generate_requirements := false; arg_venv := false;
     arg_temp_venv := false; arg_yes := true; arg_dry_run := false;
     arg_exclude_dir := None; arg_map := Some ["bs4:beautifulsoup4"; "SoCo"] |}.

Definition demo_args_dry_venv : Args :=
  {| arg_project_file := "main.py"; arg_generate_requirements := false; arg_venv := true;
     arg_temp_venv := false; arg_yes := false; arg_dry_run := true;
     arg_exclude_dir := None; arg_map := None |}.
(** * Properties *)

(** ** Strings *)

Lemma py_split_nonempty sep s : py_split sep s ≠ [].
Proof.
  destruct s as [|c rest]; simpl; [done|].
  destruct (Ascii.eqb c sep); [done|].
  by destruct (py_split sep rest).
Qed.

Lemma py_split_head sep s : ∃ w ws, py_split sep s = w :: ws.
Proof.
  destruct (py_split sep s) as [|w ws] eqn:E; [by apply py_split_nonempty in E|eauto].
Qed.

(** The first component is the text before the first dot: it has no dot, and
    what follows it in the name is nothing or starts with a dot. *)
Lemma first_component_spec s :
  contains_char "." (first_component s) = false ∧
  (s = first_component s ∨ ∃ rest, s = first_component s +:+ String "." rest).
Proof.
  unfold first_component.
  induction s as [|c rest IH]; simpl; [by split; [|left]|].
  destruct (Ascii.eqb_spec c ".") as [->|Hc]; simpl.
  - split; [done|]. right. by exists rest.
  - destruct (py_split_head "." rest) as (w & ws & E). rewrite E in IH |- *. simpl in *.
    destruct IH as [Hno Hs]. split.
    + apply Ascii.eqb_neq in Hc. by rewrite Hc.
    + destruct Hs as [->|[r ->]]; [by left|right]. by exists r.
Qed.

Lemma truthy_true s : truthy s = true ↔ s ≠ "".
Proof. by destruct s. Qed.

(** ** The walk visits exactly the nodes of the tree *)

Section NodeInduction.
Variable P : node → Prop.
Hypothesis P_import : ∀ names, P (Import names).
Hypothesis P_from : ∀ module names level, P (ImportFrom module names level).
Hypothesis P_node : ∀ children, Forall P children → P (Node children).

Fixpoint node_induction (n : node) : P n :=
  match n with
  | Import names => P_import names
  | ImportFrom module names level => P_from module names level
  | Node children =>
      P_node children
        ((fix all (l : list node) : Forall P l :=
            match l with
            | [] => @List.Forall_nil _ P
            | c :: l' => @List.Forall_cons _ P c l' (node_induction c) (all l')
            end) children)
  end.
End NodeInduction.

Lemma ast_walk_node children :
  ast_walk (Node children) = Node children :: flat_map ast_walk children.
Proof.
  reflexivity.
Qed.

Lemma elem_of_ast_walk d n : d ∈ ast_walk n ↔ in_tree d n.
Proof.
  revert d. induction n as [names|module names level|children IH] using node_induction; intros d.
  - simpl. rewrite list_elem_of_singleton. split; [intros ->; constructor|].
    inversion 1; done.
  - simpl. rewrite list_elem_of_singleton. split; [intros ->; constructor|].
    inversion 1; done.
  - rewrite ast_walk_node, elem_of_cons, list_elem_of_In, in_flat_map. split.
    + intros [->|(c & Hc & Hd)]; [constructor|].
      apply list_elem_of_In in Hc, Hd.
      eapply in_tree_below; [done|]. rewrite Forall_forall in IH. by apply IH.
    + inversion 1 as [|children' c Hc Hd]; subst; [by left|right].
      exists c. rewrite Forall_forall in IH. rewrite <- !list_elem_of_In. split; [done|].
      by apply IH.
Qed.

(** ** Loops that add to a set *)

Section FoldAdd.
Context {X : Type} (f : gset string → X → gset string) (adds : X → string → Prop).
Hypothesis f_adds : ∀ acc a x, x ∈ f acc a ↔ x ∈ acc ∨ adds a x.

Lemma elem_of_foldl_adds l acc x :
  x ∈ foldl f acc l ↔ x ∈ acc ∨ ∃ a, a ∈ l ∧ adds a x.
Proof using f_adds.
  revert acc. induction l as [|a l IH]; intros acc; simpl.
  - split; [by left|]. intros [?|(a & Ha & _)]; [done|]. by apply elem_of_nil in Ha.
  - rewrite IH, f_adds. split.
    + intros [[?|?]|(b & Hb & ?)]; [by left|right..].
      * exists a. split; [apply elem_of_cons; by left|done].
      * exists b. split; [apply elem_of_cons; by right|done].
    + intros [?|(b & [->|Hb]%elem_of_cons & ?)]; [by left; left|by left; right|].
      right. by exists b.
Qed.
End FoldAdd.

(** ** [extract_imports] *)

Lemma elem_of_visit_node acc n x : x ∈ visit_node acc n ↔ x ∈ acc ∨ node_adds n x.
Proof.
  destruct n as [names|module names level|children]; simpl.
  - rewrite (elem_of_foldl_adds _ (λ a y, y = first_component (alias_name a))).
    + split; (intros [?|Hx]; [by left|right]).
      * destruct Hx as (a & ? & ?). left. by exists names, a.
      * destruct Hx as [(names' & a & [= <-] & ? & ?)|(? & ? & ? & _)]; [|done]. by exists a.
    + intros. set_solver.
  - destruct level as [|level], module as [m|]; try destruct (truthy m) eqn:Hm.
    + rewrite elem_of_union, elem_of_singleton. apply truthy_true in Hm.
      split; (intros [?|Hx]; [by left|right]).
      * right. by exists m, names.
      * by destruct Hx as [(? & ? & ? & _)|(? & ? & [= <- _] & _ & ?)].
    + split; [by left|]. intros [?|[(? & ? & ? & _)|(? & ? & [= <- _] & Hne & _)]]; [done..|].
      by destruct m.
    + split; [by left|]. by intros [?|[(? & ? & ? & _)|(? & ? & ? & _)]].
    + split; [by left|]. by intros [?|[(? & ? & ? & _)|(? & ? & ? & _)]].
    + split; [by left|]. by intros [?|[(? & ? & ? & _)|(? & ? & ? & _)]].
    + split; [by left|]. by intros [?|[(? & ? & ? & _)|(? & ? & ? & _)]].
  - split; [by left|]. by intros [?|[(? & ? & ? & _)|(? & ? & ? & _)]].
Qed.

Lemma parser_tree_node children :
  parser_tree (Node children) ↔ Forall parser_tree children.
Proof.
  simpl. induction children as [|c l IH]; [by split; [constructor|]|].
  rewrite Forall_cons, <- IH. done.
Qed.

Lemma parser_tree_in_tree d n : in_tree d n → parser_tree n → parser_tree d.
Proof.
  induction 1 as [|children c Hc _ IH]; [done|]. intros Hn. apply IH.
  apply parser_tree_node in Hn. rewrite Forall_forall in Hn. by apply Hn.
Qed.

(** C1. For a file that parses, [extract_imports] returns exactly the first
    dotted components of the module names of its [import X] statements and of
    its absolute [from X import Y] statements ([imports_module]); a relative
    [from] and a [from] without a module add nothing.  [first_component_spec]
    says what the first dotted component of a name is. *)
Theorem extract_imports_parsed `{Interpreter} (name text : string) (tree : node) (x : string) :
  ast_parse text = Parsed tree →
  x ∈ extract_imports (File name text) ↔
  ∃ m, imports_module tree m ∧ x = first_component m.
Proof.
  intros Hparse. unfold extract_imports. rewrite Hparse.
  rewrite (elem_of_foldl_adds visit_node node_adds) by apply elem_of_visit_node.
  pose proof (ast_parse_tree _ _ Hparse) as Hwf.
  split.
  - intros [Hx|(n & Hn & Hadds)]; [by apply elem_of_empty in Hx|].
    apply elem_of_ast_walk in Hn.
    destruct Hadds as [(names & a & -> & Ha & ->)|(m & names & -> & _ & ->)].
    + exists (alias_name a). split; [by econstructor|done].
    + exists m. split; [by econstructor|done].
  - intros (m & Hm & ->). right.
    destruct Hm as [names a Hin Ha|m names Hin].
    + exists (Import names). split; [by apply elem_of_ast_walk|].
      left. by exists names, a.
    + exists (ImportFrom (Some m) names 0). split; [by apply elem_of_ast_walk|].
      right. exists m, names. split_and!; [done| |done].
      intros ->. by apply (parser_tree_in_tree _ _ Hin) in Hwf.
Qed.

(** ** [resolve_package] *)

(** C2. [resolve_package] returns [None] exactly for a module of the local
    modules or of the blacklist; for any other module it returns the mapped
    package when the table has the module, and the module itself when not. *)
Theorem resolve_package_spec (module : string) (local_imports blacklist : gset string)
    (package_mappings : gmap string string) :
  (resolve_package module local_imports blacklist package_mappings = None ↔
   module ∈ local_imports ∨ module ∈ blacklist) ∧
  (module ∉ local_imports → module ∉ blacklist →
   (∀ package, package_mappings !! module = Some package →
      resolve_package module local_imports blacklist package_mappings = Some package) ∧
   (package_mappings !! module = None →
      resolve_package module local_imports blacklist package_mappings = Some module)).
Proof.
  unfold resolve_package. split.
  - destruct (decide (module ∈ local_imports)) as [Hl|Hl]; [by split; [left|]|].
    destruct (decide (module ∈ blacklist)) as [Hb|Hb]; [by split; [right|]|].
    split; [done|]. by intros [?|?].
  - intros Hl Hb. rewrite (decide_False _ _ Hl), (decide_False _ _ Hb).
    split; [intros package Hp|intros Hp]; by rewrite Hp.
Qed.

(** ** [rglob] finds exactly the matching entries below the directory *)

Section EntryInduction.
Variable P : entry → Prop.
Hypothesis P_file : ∀ name text, P (File name text).
Hypothesis P_dir : ∀ name items, Forall P items → P (Dir name items).

Fixpoint entry_induction (e : entry) : P e :=
  match e with
  | File name text => P_file name text
  | Dir name items =>
      P_dir name items
        ((fix all (l : list entry) : Forall P l :=
            match l with
            | [] => @List.Forall_nil _ P
            | c :: l' => @List.Forall_cons _ P c l' (entry_induction c) (all l')
            end) items)
  end.
End EntryInduction.

Lemma rglob_entry_dir prefix name items :
  rglob_entry prefix (Dir name items) =
  (if matches_star_py name then [(prefix ++ [name], Dir name items)] else []) ++
  rglob_py (prefix ++ [name]) items.
Proof. reflexivity. Qed.

Lemma elem_of_flat_map {A B} (f : A → list B) (l : list A) (y : B) :
  y ∈ flat_map f l ↔ ∃ x, x ∈ l ∧ y ∈ f x.
Proof.
  rewrite list_elem_of_In, in_flat_map. setoid_rewrite list_elem_of_In. done.
Qed.

Lemma elem_of_rglob_entry prefix e path f :
  (path, f) ∈ rglob_entry prefix e ↔
  matches_star_py (entry_name f) = true ∧
  ((path = prefix ++ [entry_name e] ∧ f = e) ∨
   ∃ name items, e = Dir name items ∧ under (prefix ++ [name]) items path f).
Proof.
  revert prefix path f.
  induction e as [name text|name items IH] using entry_induction; intros prefix path f.
  - simpl. rewrite app_nil_r. destruct (matches_star_py name) eqn:Hm.
    + rewrite list_elem_of_singleton. split.
      * intros [= -> ->]. split; [done|by left].
      * intros [_ [[-> ->]|(? & ? & ? & _)]]; done.
    + rewrite elem_of_nil. split; [done|].
      intros [Hf [[_ ->]|(? & ? & ? & _)]]; [|done]. simpl in Hf. congruence.
  - rewrite rglob_entry_dir, elem_of_app. unfold rglob_py. rewrite elem_of_flat_map.
    rewrite Forall_forall in IH. simpl. split.
    + intros [Hhere|(c & Hc & Hin)].
      * destruct (matches_star_py name) eqn:Hm; [|by apply elem_of_nil in Hhere].
        apply list_elem_of_singleton in Hhere as [= -> ->]. split; [done|by left].
      * apply (IH _ Hc) in Hin as [Hm Hin]. split; [done|]. right. exists name, items.
        split; [done|]. destruct Hin as [[-> ->]|(n & sub & -> & Hu)].
        -- by apply under_here.
        -- by eapply under_deeper.
    + intros [Hm [[-> ->]|(n & sub & [= <- <-] & Hu)]].
      * left. simpl in Hm. rewrite Hm. by apply list_elem_of_singleton.
      * right. inversion Hu as [? ? ? Hin|? ? d sub path' ? Hin Hu']; subst.
        -- exists f. split; [done|]. apply (IH _ Hin). split; [done|by left].
        -- exists (Dir d sub). split; [done|]. apply (IH _ Hin). split; [done|].
           right. by exists d, sub.
Qed.

Lemma elem_of_rglob_py prefix items path f :
  (path, f) ∈ rglob_py prefix items ↔
  under prefix items path f ∧ matches_star_py (entry_name f) = true.
Proof.
  unfold rglob_py. rewrite elem_of_flat_map. setoid_rewrite elem_of_rglob_entry. split.
  - intros (e & He & Hm & [[-> ->]|(name & sub & -> & Hu)]).
    + split; [by apply under_here|done].
    + split; [by eapply under_deeper|done].
  - intros [Hu Hm]. inversion Hu as [? ? ? Hin|? ? d sub path' ? Hin Hu']; subst.
    + exists f. split; [done|]. split; [done|by left].
    + exists (Dir d sub). split; [done|]. split; [done|]. right. by exists d, sub.
Qed.

(** ** [scan_directory] *)

Section Scan.
Context `{Interpreter}.

Lemma elem_of_set_iter (s : gset string) x : x ∈ set_iter s ↔ x ∈ s.
Proof. by rewrite (set_iter_perm s), elem_of_elements. Qed.

Lemma set_iter_empty : set_iter ∅ = [].
Proof.
  apply Permutation_nil_r. rewrite (set_iter_perm ∅). by rewrite elements_empty.
Qed.

Lemma NoDup_set_iter (s : gset string) : NoDup (set_iter s).
Proof. rewrite (set_iter_perm s). apply NoDup_elements. Qed.

Lemma in_excluded_dir_true parts excluded_dirs :
  in_excluded_dir parts excluded_dirs = true ↔ ∃ part, part ∈ parts ∧ part ∈ excluded_dirs.
Proof.
  unfold in_excluded_dir. rewrite existsb_exists. split.
  - intros (x & Hx%list_elem_of_In%elem_of_set_iter & Hp%bool_decide_eq_true). eauto.
  - intros (x & Hp & Hx). exists x. rewrite <- list_elem_of_In, elem_of_set_iter.
    by rewrite bool_decide_eq_true.
Qed.

Lemma in_excluded_dir_false parts excluded_dirs :
  in_excluded_dir parts excluded_dirs = false ↔ ∀ part, part ∈ parts → part ∉ excluded_dirs.
Proof.
  rewrite <- not_true_iff_false, in_excluded_dir_true. split.
  - intros Hno part Hp Hx. apply Hno. eauto.
  - intros Hall (part & Hp & Hx). by apply (Hall part).
Qed.

Lemma elem_of_add_package local_imports blacklist package_mappings dependencies module package :
  package ∈ add_package local_imports blacklist package_mappings dependencies module ↔
  package ∈ dependencies ∨
  (resolve_package module local_imports blacklist package_mappings = Some package ∧ package ≠ "").
Proof.
  unfold add_package.
  destruct (resolve_package module local_imports blacklist package_mappings) as [p|].
  - destruct (truthy p) eqn:Hp.
    + apply truthy_true in Hp. rewrite elem_of_union, elem_of_singleton.
      split; (intros [?|Hx]; [by left|right]); [by subst|]. by destruct Hx as [[= ->] _].
    + split; [by left|]. intros [?|[[= ->] Hne]]; [done|]. by destruct package.
  - split; [by left|]. by intros [?|[? _]].
Qed.

Lemma elem_of_scan_file blacklist local_imports script_name excluded_dirs package_mappings
    dependencies found package :
  package ∈ scan_file blacklist local_imports script_name excluded_dirs package_mappings
              dependencies found ↔
  package ∈ dependencies ∨
  file_adds blacklist local_imports script_name excluded_dirs package_mappings found package.
Proof.
  unfold scan_file, file_adds. destruct found as [parts file]. simpl.
  destruct (String.eqb_spec (entry_name file) script_name) as [Heq|Hne].
  { split; [by left|]. by intros [?|[? _]]. }
  destruct (in_excluded_dir parts excluded_dirs) eqn:Hex.
  { apply in_excluded_dir_true in Hex as (part & Hp & Hx).
    split; [by left|]. intros [?|(_ & Hall & _)]; [done|]. by destruct (Hall part Hp). }
  pose proof (proj1 (in_excluded_dir_false _ _) Hex) as Hall. clear Hex.
  rewrite (elem_of_foldl_adds _
             (λ module p, resolve_package module local_imports blacklist package_mappings = Some p
                          ∧ p ≠ "")) by (intros; apply elem_of_add_package).
  setoid_rewrite elem_of_set_iter.
  split; (intros [?|Hx]; [by left|right]).
  - destruct Hx as (m & ? & ? & ?). split_and!; [done..|]. by exists m.
  - destruct Hx as (_ & _ & m & ? & ? & ?). by exists m.
Qed.

End Scan.

(** C3, as the code has it.  [scan_directory] returns the packages that
    resolving a module gives, for the modules of every entry below the
    directory that matches [*.py], is not named like the script and has no
    part of its path in the excluded directories; a resolution that gives
    [None] or the empty string adds nothing. *)
Theorem scan_directory_spec `{Interpreter} (parts : list string) (items project_root : list entry)
    (blacklist local_imports : gset string) (script_name : string)
    (excluded_dirs : gset string) (package_mappings : gmap string string) (package : string) :
  package ∈ scan_directory (parts, items) project_root blacklist local_imports script_name
              excluded_dirs package_mappings ↔
  ∃ path file,
    under parts items path file ∧ matches_star_py (entry_name file) = true ∧
    entry_name file ≠ script_name ∧
    (∀ part, part ∈ path → part ∉ excluded_dirs) ∧
    ∃ module, module ∈ extract_imports file ∧
      resolve_package module local_imports blacklist package_mappings = Some package ∧
      package ≠ "".
Proof.
  unfold scan_directory. simpl.
  rewrite (elem_of_foldl_adds _
             (file_adds blacklist local_imports script_name excluded_dirs package_mappings))
    by (intros; apply elem_of_scan_file).
  split.
  - intros [Hx|([path file] & Hin & Hscript & Hex & Hm)]; [by apply elem_of_empty in Hx|].
    apply elem_of_rglob_py in Hin as [Hu Hpy]. by exists path, file.
  - intros (path & file & Hu & Hpy & Hscript & Hex & Hm). right.
    exists (path, file). split; [by apply elem_of_rglob_py|done].
Qed.

(** C5. When the text of a file is a syntax error, [extract_imports] returns
    the empty set (it raises nothing: the function is total), and the file
    leaves the dependencies of the scan as they were, wherever it is found. *)
Theorem extract_imports_syntax_error `{Interpreter} (name text : string) :
  ast_parse text = SyntaxError →
  extract_imports (File name text) = ∅ ∧
  ∀ blacklist local_imports script_name excluded_dirs package_mappings dependencies path,
    scan_file blacklist local_imports script_name excluded_dirs package_mappings
      dependencies (path, File name text) = dependencies.
Proof.
  intros Hparse.
  assert (extract_imports (File name text) = ∅) as Hempty.
  { unfold extract_imports. by rewrite Hparse. }
  split; [done|]. intros. unfold scan_file. rewrite Hempty, set_iter_empty. simpl.
  by repeat case_match.
Qed.

(** ** [find_local_imports] *)

Lemma truncate_dir d name items :
  truncate (S d) (Dir name items) = Dir name (truncate d <$> items).
Proof. reflexivity. Qed.

Lemma entry_name_truncate d e : entry_name (truncate d e) = entry_name e.
Proof. by destruct e, d. Qed.

Lemma child_truncate d name items :
  child name (truncate d <$> items) = truncate d <$> child name items.
Proof.
  unfold child. induction items as [|e items IH]; simpl; [done|].
  rewrite entry_name_truncate. by destruct (String.eqb (entry_name e) name).
Qed.

Lemma elem_of_visit_item acc item x :
  x ∈ visit_item acc item ↔ x ∈ acc ∨ records_local item x.
Proof.
  unfold records_local. destruct item as [name text|name items]; simpl.
  - destruct (String.eqb_spec (suffix name) ".py") as [Hs|Hs].
    + rewrite elem_of_union, elem_of_singleton.
      split; (intros [?|Hx]; [by left|right]).
      * right. by exists name, text.
      * by destruct Hx as [(? & ? & ? & _)|(? & ? & [= <- _] & _ & ?)].
    + split; [by left|].
      by intros [?|[(? & ? & ? & _)|(? & ? & [= <- _] & ? & _)]].
  - case_bool_decide as Hinit.
    + rewrite elem_of_union, elem_of_singleton.
      split; (intros [?|Hx]; [by left|right]).
      * left. by exists name, items.
      * by destruct Hx as [(? & ? & [= <- _] & _ & ?)|(? & ? & ? & _)].
    + split; [by left|].
      by intros [?|[(? & ? & [= <- <-] & ? & _)|(? & ? & ? & _)]].
Qed.

Lemma visit_item_truncate d acc item :
  visit_item acc (truncate (S d) item) = visit_item acc item.
Proof.
  destruct item as [name text|name items]; [done|].
  rewrite truncate_dir. simpl. rewrite child_truncate.
  by destruct (child "__init__.py" items).
Qed.

Lemma foldl_visit_item_truncate d acc items :
  foldl visit_item acc (truncate (S d) <$> items) = foldl visit_item acc items.
Proof.
  revert acc. induction items as [|e items IH]; intros acc; [done|].
  change (foldl visit_item (visit_item acc (truncate (S d) e)) (truncate (S d) <$> items)
          = foldl visit_item (visit_item acc e) items).
  by rewrite visit_item_truncate, IH.
Qed.

Lemma find_local_imports_two_levels project_root x :
  x ∈ find_local_imports project_root ↔
  ∃ item, immediate_child project_root item ∧ records_local item x.
Proof.
  unfold find_local_imports, immediate_child.
  pose proof (λ acc l, elem_of_foldl_adds visit_item records_local elem_of_visit_item l acc x)
    as Hfold.
  destruct (child "src" project_root) as [[name text|name items]|] eqn:Hsrc; simpl;
    rewrite ?Hfold.
  - split.
    + intros [Hx|(item & ? & ?)]; [by apply elem_of_empty in Hx|]. exists item. by split; [left|].
    + intros (item & [?|(? & ? & ? & _)] & ?); [|done]. right. by exists item.
  - split.
    + intros [[Hx|(item & ? & ?)]|(item & ? & ?)]; [by apply elem_of_empty in Hx| |].
      * exists item. by split; [left|].
      * exists item. split; [right|done]. by exists name, items.
    + intros (item & [?|(? & ? & [= <- <-] & ?)] & ?).
      * left. right. by exists item.
      * right. by exists item.
  - split.
    + intros [Hx|(item & ? & ?)]; [by apply elem_of_empty in Hx|]. exists item. by split; [left|].
    + intros (item & [?|(? & ? & ? & _)] & ?); [|done]. right. by exists item.
Qed.

Lemma find_local_imports_truncate project_root :
  find_local_imports (truncate 2 <$> project_root) = find_local_imports project_root.
Proof.
  unfold find_local_imports. rewrite child_truncate.
  destruct (child "src" project_root) as [[name text|name items]|]; cbn -[truncate];
    rewrite ?truncate_dir, ?foldl_visit_item_truncate; [done| |done].
  cbn -[truncate]. by rewrite foldl_visit_item_truncate.
Qed.

(** C9. [find_local_imports] is not recursive.  It records exactly what the
    immediate children of the project root and of its directory [src] give: a
    directory with an [__init__.py] entry by its name, a [.py] file by its
    stem.  Nothing deeper is read: the result is that of the tree cut two
    levels below the root.  So a name that no immediate child gives is not
    local, and [resolve_package] returns a package for it unless the blacklist
    has it. *)
Theorem find_local_imports_not_recursive (project_root : list entry) :
  (∀ x, x ∈ find_local_imports project_root ↔
        ∃ item, immediate_child project_root item ∧ records_local item x) ∧
  find_local_imports (truncate 2 <$> project_root) = find_local_imports project_root ∧
  (∀ x blacklist package_mappings,
     (∀ item, immediate_child project_root item → ¬ records_local item x) →
     (x ∉ find_local_imports project_root) ∧
     (x ∉ blacklist →
      resolve_package x (find_local_imports project_root) blacklist package_mappings
      = Some (default x (package_mappings !! x)))).
Proof.
  split_and!.
  - apply find_local_imports_two_levels.
  - apply find_local_imports_truncate.
  - intros x blacklist package_mappings Hnone.
    assert (x ∉ find_local_imports project_root) as Hx.
    { rewrite find_local_imports_two_levels. intros (item & Hitem & Hrec).
      by apply (Hnone item). }
    split; [done|]. intros Hb. unfold resolve_package.
    by rewrite (decide_False _ _ Hx), (decide_False _ _ Hb).
Qed.

(** ** The installed packages and the missing dependencies *)

(** The version the dictionary keeps for a key: that of the last package of
    the list whose lowercased name is the key. *)
Lemma installed_dict_snoc packages pkg :
  installed_dict (packages ++ [pkg]) = <[ lower pkg.1 := pkg.2 ]> (installed_dict packages).
Proof. unfold installed_dict. by rewrite foldl_app. Qed.

Lemma installed_dict_lookup packages key :
  installed_dict packages !! key =
  snd <$> List.find (λ pkg, String.eqb (lower pkg.1) key) (rev packages).
Proof.
  induction packages as [|pkg packages IH] using rev_ind; [done|].
  rewrite installed_dict_snoc, rev_unit. simpl.
  destruct (String.eqb_spec (lower pkg.1) key) as [<-|Hne].
  - by rewrite lookup_insert_eq.
  - by rewrite lookup_insert_ne.
Qed.

Lemma installed_dict_Some packages key version :
  installed_dict packages !! key = Some version →
  ∃ name, (name, version) ∈ packages ∧ key = lower name.
Proof.
  rewrite installed_dict_lookup.
  destruct (List.find _ (rev packages)) as [[name v]|] eqn:Hfind; [|done].
  intros [= <-]. apply find_some in Hfind as [Hin Hkey].
  apply in_rev, list_elem_of_In in Hin. apply String.eqb_eq in Hkey. by exists name.
Qed.

Lemma installed_dict_dom packages key :
  key ∈ dom (installed_dict packages) ↔
  ∃ name version, (name, version) ∈ packages ∧ key = lower name.
Proof.
  rewrite elem_of_dom. split.
  - intros [version Hv]. apply installed_dict_Some in Hv as (name & ? & ?). by exists name, version.
  - intros (name & version & Hin & ->). rewrite installed_dict_lookup.
    destruct (List.find _ (rev packages)) as [p|] eqn:Hfind; [by eexists|].
    apply list_elem_of_In, in_rev in Hin.
    apply (find_none _ _ Hfind) in Hin. simpl in Hin. by rewrite String.eqb_refl in Hin.
Qed.

Lemma installed_dict_NoDup packages name version :
  NoDup ((λ pkg, lower pkg.1) <$> packages) → (name, version) ∈ packages →
  installed_dict packages !! lower name = Some version.
Proof.
  induction packages as [|pkg packages IH] using rev_ind; [by intros _ ?%elem_of_nil|].
  rewrite fmap_app, installed_dict_snoc. simpl.
  intros [Hpkgs [Hdisj _]]%NoDup_app [Hin|Hin]%elem_of_app.
  - rewrite lookup_insert_ne; [by apply IH|].
    intros Heq. apply (Hdisj (lower name)).
    + apply list_elem_of_fmap. by exists (name, version).
    + rewrite <- Heq. by apply list_elem_of_singleton.
  - apply list_elem_of_singleton in Hin as <-. by rewrite lookup_insert_eq.
Qed.

(** C4. The comparison puts a required dependency in [missing_deps] exactly
    when its lowercased name is no key of the dictionary of installed
    packages, and leaves the required dependencies (and the dictionary) as
    they were.  The dictionary that [get_installed_packages] builds has the
    lowercased name of every listed package as a key, with its version: the
    version of the last listed package of that lowercased name, so the
    package's own version when no two listed names agree in lower case; it is
    empty when [pip list] fails. *)
Theorem missing_deps_spec `{Interpreter} `{OS} (l : locals) :
  (∀ dep, dep ∈ missing_deps (assign_missing_deps l) ↔
          dep ∈ required_deps l ∧ lower dep ∉ dom (installed_deps l)) ∧
  required_deps (assign_missing_deps l) = required_deps l ∧
  installed_deps (assign_missing_deps l) = installed_deps l ∧
  (∀ packages key,
     (key ∈ dom (installed_dict packages) ↔
      ∃ name version, (name, version) ∈ packages ∧ key = lower name) ∧
     installed_dict packages !! key =
     snd <$> List.find (λ pkg, String.eqb (lower pkg.1) key) (rev packages)) ∧
  (∀ packages name version,
     NoDup ((λ pkg, lower pkg.1) <$> packages) → (name, version) ∈ packages →
     installed_dict packages !! lower name = Some version) ∧
  (∀ python_exe st,
     (get_installed_packages python_exe st).1 =
     Ret match (check_output_json [python_exe; "-m"; "pip"; "list"; "--format=json"]
                  (world st)).1 with
         | PipList packages => installed_dict packages
         | PipListFailed => ∅
         end).
Proof.
  split_and!; [|done|done| | |].
  - intros dep. simpl. rewrite list_elem_of_In, filter_In, <- list_elem_of_In.
    rewrite elem_of_set_iter, negb_true_iff, bool_decide_eq_false. done.
  - intros packages key. split; [apply installed_dict_dom|apply installed_dict_lookup].
  - apply installed_dict_NoDup.
  - intros python_exe st. unfold get_installed_packages.
    by destruct (check_output_json _ (world st)) as [[|packages] w].
Qed.

(** ** [get_latest_version] *)

(** C7. For a response that is a document of the index ([pypi_document]),
    [get_latest_version] returns the value under the keys [info] and
    [version] of the response when there is one, and [None] when there is
    none; and it returns [None], raising nothing, when the request fails (no
    connection, a timeout: [requests.get] raises a [RequestException]) and
    when the status is 4XX or 5XX. *)
Theorem get_latest_version_spec `{OS} (package_name : string) :
  (∀ status data,
     requests_get (pypi_url package_name) = Response status (Some data) →
     ¬ (400 ≤ status < 600)%Z → pypi_document data) →
  (get_latest_version package_name = Ret PNone ∨
   ∃ status data v,
     requests_get (pypi_url package_name) = Response status (Some data) ∧
     version_found data v ∧ get_latest_version package_name = Ret v) ∧
  (∀ status data v,
     requests_get (pypi_url package_name) = Response status (Some data) →
     ¬ (400 ≤ status < 600)%Z → version_found data v →
     get_latest_version package_name = Ret v) ∧
  (∀ status data,
     requests_get (pypi_url package_name) = Response status (Some data) →
     ¬ (400 ≤ status < 600)%Z → (∀ v, ¬ version_found data v) →
     get_latest_version package_name = Ret PNone) ∧
  (requests_get (pypi_url package_name) = RequestFailed →
   get_latest_version package_name = Ret PNone) ∧
  (∀ status json,
     requests_get (pypi_url package_name) = Response status json →
     (400 ≤ status < 600)%Z → get_latest_version package_name = Ret PNone).
Proof.
  intros Hdoc. unfold get_latest_version.
  destruct (requests_get (pypi_url package_name)) as [|status json] eqn:Hget.
  { split_and!; [by left|done..]. }
  destruct ((400 <=? status)%Z && (status <? 600)%Z) eqn:Hstatus.
  { assert ((400 ≤ status < 600)%Z) as Herr.
    { apply andb_true_iff in Hstatus as [?%Z.leb_le ?%Z.ltb_lt]. lia. }
    split_and!; [by left| | |done|done]; intros; by simplify_eq. }
  assert (¬ (400 ≤ status < 600)%Z) as Hok.
  { intros [? ?]. apply andb_false_iff in Hstatus as [?%Z.leb_gt|?%Z.ltb_ge]; lia. }
  split_and!; [| | |done|].
  - destruct json as [data|]; [|by left].
    destruct (Hdoc status data eq_refl Hok) as (items & -> & Hinfo). simpl.
    destruct (assoc "info" items) as [info|] eqn:Hi; simpl; [|by left].
    destruct (Hinfo info eq_refl) as [fields ->]. simpl.
    destruct (assoc "version" fields) as [v|] eqn:Hv; simpl; [|by left].
    right. exists status, (PDict items), v. split_and!; [done| |done].
    by exists items, fields.
  - intros status' data v [= <- ->] _ (items & info & -> & Hinfo & Hv). simpl.
    rewrite Hinfo. simpl. by rewrite Hv.
  - intros status' data [= <- ->] _ Hnone.
    destruct (Hdoc status data eq_refl Hok) as (items & -> & Hinfo). simpl.
    destruct (assoc "info" items) as [info|] eqn:Hi; simpl; [|done].
    destruct (Hinfo info eq_refl) as [fields ->]. simpl.
    destruct (assoc "version" fields) as [v|] eqn:Hv; simpl; [|done].
    destruct (Hnone v). by exists items, fields.
  - intros status' json' [= <- <-] ?. done.
Qed.

(** ** [install_dependencies] *)

Section Install.
Context `{OS}.

(** One turn of the loop: the command ran, and the dependency is recorded
    when the code is not zero; or the command could not be started, and the
    [OSError] is not caught. *)
Lemma install_one_step python_exe failed dep st :
  (∃ rc w,
     install_one python_exe failed dep st =
     (Ret (failed ++ failed_of [(dep, rc)]),
      State w (trace st ++ install_events python_exe [(dep, rc)]))) ∨
  (∃ w,
     (check_call (pip_install_cmd python_exe dep) (world st)).1 = None ∧
     install_one python_exe failed dep st =
     (Raise OSError, State w (trace st ++ [NotStarted (pip_install_cmd python_exe dep)]))).
Proof.
  unfold install_one, try_except, bind, subprocess_check_call, ret.
  destruct (check_call (pip_install_cmd python_exe dep) (world st)) as [[rc|] w] eqn:Hcall.
  - left. exists rc, w. unfold failed_of, install_events. simpl.
    destruct (Z.eqb_spec rc 0) as [->|Hrc]; simpl.
    + by rewrite app_nil_r.
    + rewrite filter_cons_True by done. done.
  - right. by exists w.
Qed.

Lemma failed_of_cons a attempts : failed_of (a :: attempts) = failed_of [a] ++ failed_of attempts.
Proof.
  unfold failed_of. rewrite <- fmap_app. f_equal.
  change (a :: attempts) with ([a] ++ attempts). by rewrite filter_app.
Qed.

(** The loop goes through the list, whatever the return codes, up to the
    first command that cannot be started. *)
Lemma install_loop python_exe deps failed st :
  (∃ attempts w,
     attempts.*1 = deps ∧
     for_fold deps failed (install_one python_exe) st =
     (Ret (failed ++ failed_of attempts),
      State w (trace st ++ install_events python_exe attempts))) ∨
  (∃ attempts dep rest w w0,
     deps = attempts.*1 ++ dep :: rest ∧
     (check_call (pip_install_cmd python_exe dep) w0).1 = None ∧
     for_fold deps failed (install_one python_exe) st =
     (Raise OSError,
      State w (trace st ++ install_events python_exe attempts ++
               [NotStarted (pip_install_cmd python_exe dep)]))).
Proof.
  revert failed st. induction deps as [|dep deps IH]; intros failed st.
  - left. exists [], (world st). split; [done|]. unfold failed_of, install_events. simpl.
    rewrite !app_nil_r. by destruct st.
  - simpl for_fold. unfold bind.
    destruct (install_one_step python_exe failed dep st)
      as [(rc & w1 & Hstep)|(w1 & Hnone & Hstep)]; rewrite Hstep.
    2:{ right. by exists [], dep, deps, w1, (world st). }
    destruct (IH (failed ++ failed_of [(dep, rc)])
                 (State w1 (trace st ++ install_events python_exe [(dep, rc)])))
      as [(attempts & w & Hdeps & Hrest)|(attempts & d & rest & w & w0 & Hdeps & Hnone & Hrest)];
      rewrite Hrest; simpl.
    + left. exists ((dep, rc) :: attempts), w.
      split; [rewrite fmap_cons; simpl; by rewrite Hdeps|].
      rewrite (failed_of_cons (dep, rc) attempts), <- !app_assoc. done.
    + right. exists ((dep, rc) :: attempts), d, rest, w, w0.
      split; [rewrite fmap_cons; simpl; by rewrite Hdeps|]. split; [done|].
      by rewrite <- !app_assoc.
Qed.

Lemma failed_of_nil attempts : failed_of attempts = [] ↔ Forall (λ a, a.2 = 0%Z) attempts.
Proof.
  unfold failed_of. induction attempts as [|a attempts IH]; [by split; [constructor|]|].
  rewrite Forall_cons. destruct (decide (a.2 = 0%Z)) as [Ha|Ha].
  - rewrite filter_cons_False by (intros ?; done). rewrite IH. tauto.
  - rewrite filter_cons_True by done. simpl. split; [done|]. by intros [? _].
Qed.

End Install.

(** C10. As long as its commands can be started, [install_dependencies] runs
    [pip install] for every dependency of the list, in the order of the list
    and whatever the earlier attempts gave, and returns the dependencies whose
    attempt raised [CalledProcessError] (a return code other than zero), in
    the order of the list; the result is empty exactly when every attempt
    returned zero.  But the first command that cannot be started ends the
    loop: the [OSError] is not caught, the dependencies after it are not
    tried and no list is returned. *)
Theorem install_dependencies_spec `{OS} (missing_deps : list string) (python_exe : string)
    (st : state) :
  (∃ attempts w,
     attempts.*1 = missing_deps ∧
     install_dependencies missing_deps python_exe st =
     (Ret (failed_of attempts),
      State w (trace st ++ install_events python_exe attempts)) ∧
     failed_of attempts `sublist_of` missing_deps ∧
     (failed_of attempts = [] ↔ Forall (λ a, a.2 = 0%Z) attempts)) ∨
  (∃ attempts dep rest w w0,
     missing_deps = attempts.*1 ++ dep :: rest ∧
     (check_call (pip_install_cmd python_exe dep) w0).1 = None ∧
     install_dependencies missing_deps python_exe st =
     (Raise OSError,
      State w (trace st ++ install_events python_exe attempts ++
               [NotStarted (pip_install_cmd python_exe dep)]))).
Proof.
  destruct (install_loop python_exe missing_deps [] st)
    as [(attempts & w & Hdeps & Hrun)|Habort]; [|by right].
  left. exists attempts, w. split_and!; [done|done| |apply failed_of_nil].
  rewrite <- Hdeps. unfold failed_of. apply fmap_sublist, sublist_filter.
Qed.

(** ** [generate_requirements_file] *)

Section Requirements.
Context `{Interpreter} `{OS}.

Lemma write_requirement_step file_path installed_packages dep st :
  (∀ p t w, (file_write p t w).1 = Written) →
  (get_latest_version dep = Ret PNone ∨ ∃ v, get_latest_version dep = Ret (PStr v)) →
  ∃ w,
    write_requirement file_path installed_packages dep st =
    (Ret tt,
     State w (trace st ++ [Wrote file_path (requirement_line installed_packages dep) true])).
Proof.
  intros Hwrite Hlookup.
  assert (∀ text st', ∃ w, f_write file_path text st'
            = (Ret tt, State w (trace st' ++ [Wrote file_path text true]))) as Hf.
  { intros text st'. unfold f_write.
    pose proof (Hwrite file_path text (world st')) as Hok.
    destruct (file_write file_path text (world st')) as [r w]. simpl in Hok. subst r.
    by exists w. }
  unfold write_requirement, requirement_line, pinned_version, bind, ret, lift.
  destruct (installed_packages !! lower dep) as [v|]; simpl.
  - destruct (truthy v) eqn:Hv; simpl.
    + rewrite Hv, py_str_str. apply Hf.
    + destruct Hlookup as [->|[v' ->]]; simpl; [apply Hf|].
      destruct (truthy v'); [rewrite py_str_str|]; apply Hf.
  - destruct Hlookup as [->|[v' ->]]; simpl; [apply Hf|].
    destruct (truthy v'); [rewrite py_str_str|]; apply Hf.
Qed.

Lemma write_requirements_loop file_path installed_packages deps st :
  (∀ p t w, (file_write p t w).1 = Written) →
  (∀ dep, dep ∈ deps →
     get_latest_version dep = Ret PNone ∨ ∃ v, get_latest_version dep = Ret (PStr v)) →
  ∃ w,
    for_each deps (write_requirement file_path installed_packages) st =
    (Ret tt,
     State w (trace st ++
              ((λ dep, Wrote file_path (requirement_line installed_packages dep) true) <$> deps))).
Proof.
  intros Hwrite. revert st. induction deps as [|dep deps IH]; intros st Hlookup.
  - exists (world st). simpl. rewrite app_nil_r. by destruct st.
  - destruct (write_requirement_step file_path installed_packages dep st Hwrite) as [w1 Hstep].
    { apply Hlookup, elem_of_cons. by left. }
    destruct (IH (State w1 (trace st ++
                [Wrote file_path (requirement_line installed_packages dep) true]))) as [w Hrest].
    { intros d Hd. apply Hlookup, elem_of_cons. by right. }
    exists w. simpl for_each. unfold bind at 1. rewrite Hstep, Hrest. simpl.
    by rewrite <- app_assoc.
Qed.

Lemma sorted_set_iter (s : gset string) :
  Sorted String.le (sorted (set_iter s)) ∧ sorted (set_iter s) ≡ₚ elements s ∧
  NoDup (sorted (set_iter s)).
Proof.
  unfold sorted. split_and!.
  - apply Sorted_merge_sort, _.
  - by rewrite merge_sort_Permutation, set_iter_perm.
  - rewrite merge_sort_Permutation. apply NoDup_set_iter.
Qed.

End Requirements.

(** C6. When the file can be opened and every write succeeds, and every
    lookup at the index returns a version string or [None],
    [generate_requirements_file]
    opens [requirements.txt] and writes one line for each required dependency
    and nothing else, in the sorted order of the names.  The line of a
    dependency is [requirement_line]: [name==version] with the version of the
    installed-packages dictionary under the lowercased name, when it has one,
    otherwise with the latest version of the index, when it gives one, and the
    bare name when neither does. *)
Theorem generate_requirements_file_spec `{Interpreter} `{OS} (dependencies : gset string)
    (installed_packages : gmap string string) (st : state) :
  (∀ p w, (open_w p w).1 = true) →
  (∀ p t w, (file_write p t w).1 = Written) →
  (∀ dep, dep ∈ dependencies →
     get_latest_version dep = Ret PNone ∨ ∃ v, get_latest_version dep = Ret (PStr v)) →
  let file_path := path_div cwd "requirements.txt" in
  let names := sorted (set_iter dependencies) in
  (∃ w,
     generate_requirements_file dependencies installed_packages st =
     (Ret tt,
      State w (trace st ++ Opened file_path true ::
               ((λ dep, Wrote file_path (requirement_line installed_packages dep) true)
                  <$> names)))) ∧
  Sorted String.le names ∧ names ≡ₚ elements dependencies ∧ NoDup names.
Proof.
  intros Hopen Hwrite Hlookup file_path names. split; [|apply sorted_set_iter].
  unfold generate_requirements_file, try_except, bind, builtin_open_w.
  fold file_path. fold names.
  pose proof (Hopen file_path (world st)) as Hok.
  destruct (open_w file_path (world st)) as [ok w1]. simpl in Hok. subst ok.
  destruct (write_requirements_loop file_path installed_packages names
              (State w1 (trace st ++ [Opened file_path true])) Hwrite) as [w Hloop].
  { intros dep Hdep. apply Hlookup.
    apply elem_of_set_iter. unfold names, sorted in Hdep.
    by rewrite merge_sort_Permutation in Hdep. }
  exists w. rewrite Hloop. simpl. by rewrite <- app_assoc.
Qed.

(** ** Provisioning comes before the run *)

Section Provision.
Context `{Interpreter} `{OS}.

Lemma quiet_install_events exe attempts : quiet (install_events exe attempts).
Proof. unfold quiet, install_events. apply Forall_fmap, Forall_true. done. Qed.

Lemma quiet_app l1 l2 : quiet l1 → quiet l2 → quiet (l1 ++ l2).
Proof. apply Forall_app_2. Qed.

Lemma quiet_no_run new before ev after :
  quiet new → new = before ++ ev :: after → is_project_run ev = true → False.
Proof.
  intros Hq -> Hev. apply Forall_app in Hq as [_ Hq]. apply Forall_cons in Hq as [Hq _].
  congruence.
Qed.

Lemma last_run_split prefix x before y after :
  quiet prefix → is_project_run y = true →
  prefix ++ [x] = before ++ y :: after →
  before = prefix ∧ y = x ∧ after = [].
Proof.
  intros Hq Hy. revert before. induction Hq as [|p prefix Hp Hq IH]; intros before Heq.
  - destruct before as [|b before]; simpl in Heq.
    + by injection Heq as -> <-.
    + injection Heq as _ Heq. by destruct before.
  - destruct before as [|b before]; simpl in Heq.
    + injection Heq as -> _. congruence.
    + injection Heq as -> Heq. destruct (IH _ Heq) as (-> & -> & ->). done.
Qed.

Lemma not_run_in_quiet new exe pf rc : quiet new → Called [exe; pf] rc ∉ new.
Proof.
  intros Hq Hin. unfold quiet in Hq. rewrite Forall_forall in Hq. by apply Hq in Hin.
Qed.

(** One command. *)
Lemma subprocess_check_call_step cmd st :
  (∃ rc w,
     subprocess_check_call cmd st =
     (if (rc =? 0)%Z then Ret tt else Raise CalledProcessError,
      State w (trace st ++ [Called cmd rc]))) ∨
  (∃ w, subprocess_check_call cmd st = (Raise OSError, State w (trace st ++ [NotStarted cmd]))).
Proof.
  unfold subprocess_check_call. destruct (check_call cmd (world st)) as [[rc|] w].
  - left. exists rc, w. by destruct (rc =? 0)%Z.
  - right. by exists w.
Qed.

(** The loop that installs into a virtual environment stops at the first
    failure. *)
Lemma install_all exe deps st :
  ∃ new w out,
    for_each deps (λ dep, subprocess_check_call (pip_install_cmd exe dep)) st =
    (out, State w (trace st ++ new)) ∧ quiet new ∧
    (out = Raise CalledProcessError ∨ out = Raise OSError ∨
     (out = Ret tt ∧ new = install_events exe ((λ dep, (dep, 0%Z)) <$> deps))).
Proof.
  revert st. induction deps as [|dep deps IH]; intros st.
  - exists [], (world st), (Ret tt). rewrite app_nil_r.
    split; [by destruct st|]. split; [constructor|]. by right; right.
  - simpl for_each. unfold bind at 1.
    destruct (subprocess_check_call_step (pip_install_cmd exe dep) st)
      as [(rc & w1 & Hstep)|(w1 & Hstep)]; rewrite Hstep.
    2:{ exists [NotStarted (pip_install_cmd exe dep)], w1, (Raise OSError).
        split; [done|]. split; [by repeat constructor|]. by right; left. }
    destruct (Z.eqb_spec rc 0) as [->|Hrc].
    + destruct (IH (State w1 (trace st ++ [Called (pip_install_cmd exe dep) 0])))
        as (new & w & out & Hrest & Hq & Hout).
      exists (Called (pip_install_cmd exe dep) 0 :: new), w, out. rewrite Hrest. simpl.
      rewrite <- app_assoc. split; [done|]. split; [by constructor|].
      destruct Hout as [->|[->|[-> ->]]]; [by left|by right; left|by right; right].
    + exists [Called (pip_install_cmd exe dep) rc], w1, (Raise CalledProcessError).
      split; [done|]. split; [by repeat constructor|]. by left.
Qed.

Lemma install_events_ok exe deps dep :
  dep ∈ deps →
  Called (pip_install_cmd exe dep) 0 ∈ install_events exe ((λ dep, (dep, 0%Z)) <$> deps).
Proof.
  intros Hdep. unfold install_events. rewrite <- list_fmap_compose.
  apply list_elem_of_fmap. by exists dep.
Qed.

Lemma install_events_ok_no_trouble exe deps ev :
  ev ∈ install_events exe ((λ dep, (dep, 0%Z)) <$> deps) → ¬ trouble ev.
Proof.
  unfold install_events. rewrite <- list_fmap_compose.
  intros (dep & -> & _)%list_elem_of_fmap [(? & ? & ? & [= _ _ <-] & Hrc)|(? & ? & ? & _)]; done.
Qed.

End Provision.

Section Flows.
Context `{Interpreter} `{OS}.

Lemma create_venv_no_trouble (cmd : list string) a b c d ev :
  cmd = [a; b; c; d] → ev ∈ [Called cmd 0] → ¬ trouble ev.
Proof.
  intros -> ->%list_elem_of_singleton [(? & ? & ? & ? & Hrc)|(? & ? & ? & _)]; [|done].
  by simplify_eq.
Qed.

(** [run_in_temp_venv]: the project runs last, after every dependency was
    installed into the environment. *)
Lemma run_in_temp_venv_provisioned deps pf st :
  ∃ new w out,
    run_in_temp_venv deps pf st = (out, State w (trace st ++ new)) ∧
    provisioned (path_str (venv_python_of (path_div temp_dir "venv"))) pf (set_iter deps) out new.
Proof.
  unfold run_in_temp_venv.
  set (venv_path := path_div temp_dir "venv").
  set (venv_py := path_str (venv_python_of venv_path)).
  set (create := [sys_executable; "-m"; "venv"; path_str venv_path]).
  unfold try_except, bind.
  destruct (subprocess_check_call_step create st) as [(rc1 & w1 & Hcreate)|(w1 & Hcreate)];
    rewrite Hcreate.
  2:{ exists [NotStarted create], w1, (Raise OSError). split; [done|].
      left. split; [by repeat constructor|by right]. }
  destruct (Z.eqb_spec rc1 0) as [->|Hrc1].
  2:{ exists [Called create rc1], w1, (Raise (SystemExit 1)). split; [done|].
      left. split; [by repeat constructor|by left]. }
  destruct (install_all venv_py (set_iter deps) (State w1 (trace st ++ [Called create 0])))
    as (new2 & w2 & out2 & Hinstall & Hq2 & Hout2).
  rewrite Hinstall. destruct Hout2 as [->|[->|[-> ->]]].
  { exists ([Called create 0] ++ new2), w2, (Raise (SystemExit 1)).
    simpl. rewrite <- app_assoc. split; [done|].
    left. split; [|by left]. apply (quiet_app [_]); [by repeat constructor|done]. }
  { exists ([Called create 0] ++ new2), w2, (Raise OSError).
    simpl. rewrite <- app_assoc. split; [done|].
    left. split; [|by right]. apply (quiet_app [_]); [by repeat constructor|done]. }
  set (oks := install_events venv_py ((λ dep, (dep, 0%Z)) <$> set_iter deps)).
  destruct (subprocess_check_call_step [venv_py; pf]
              (State w2 (trace (State w1 (trace st ++ [Called create 0])) ++ oks)))
    as [(rc3 & w3 & Hrun)|(w3 & Hrun)]; rewrite Hrun; simpl.
  2:{ exists (([Called create 0] ++ oks) ++ [NotStarted [venv_py; pf]]), w3, (Raise OSError).
      split; [by rewrite <- !app_assoc|].
      left. split; [|by right].
      apply quiet_app; [|by repeat constructor].
      apply (quiet_app [_]); [by repeat constructor|apply quiet_install_events]. }
  exists (([Called create 0] ++ oks) ++ [Called [venv_py; pf] rc3]), w3,
    (if (rc3 =? 0)%Z then Ret tt else Raise (SystemExit 1)).
  split.
  { rewrite <- !app_assoc. simpl. by destruct (rc3 =? 0)%Z. }
  right. exists ([Called create 0] ++ oks), rc3. split_and!; [done| | |].
  - apply (quiet_app [_]); [by repeat constructor|apply quiet_install_events].
  - intros dep Hdep. apply elem_of_app. right. by apply install_events_ok.
  - intros ev [Hev|Hev]%elem_of_app.
    + by eapply create_venv_no_trouble.
    + by eapply install_events_ok_no_trouble.
Qed.

(** The guard [if required_deps:] skips a loop that would do nothing. *)
Lemma guarded_install exe (deps : gset string) :
  (if bool_decide (deps ≠ ∅)
   then for_each (set_iter deps) (λ dep, subprocess_check_call (pip_install_cmd exe dep))
   else ret tt)
  = for_each (set_iter deps) (λ dep, subprocess_check_call (pip_install_cmd exe dep)).
Proof.
  case_bool_decide as Hdeps; [done|].
  subst deps. by rewrite set_iter_empty.
Qed.

(** The persistent environment of [--venv] is created and filled; nothing is
    run. *)
Lemma main_venv_stopped deps st :
  ∃ new w out,
    main_venv deps st = (out, State w (trace st ++ new)) ∧ stopped out new.
Proof.
  unfold main_venv.
  set (venv_path := path_div cwd "venv").
  set (venv_py := path_str (venv_python_of venv_path)).
  set (create := [sys_executable; "-m"; "venv"; path_str venv_path]).
  unfold bind at 1. unfold exists_.
  destruct (path_exists venv_path (world st)).
  { exists [], (world st), (Raise (SystemExit 1)). rewrite app_nil_r.
    split; [by destruct st|]. split; [constructor|by left]. }
  unfold try_except, bind, sys_exit, raise.
  destruct (subprocess_check_call_step create st) as [(rc1 & w1 & Hcreate)|(w1 & Hcreate)];
    rewrite Hcreate.
  2:{ exists [NotStarted create], w1, (Raise OSError). split; [done|].
      split; [by repeat constructor|by right]. }
  destruct (Z.eqb_spec rc1 0) as [->|Hrc1].
  2:{ exists [Called create rc1], w1, (Raise (SystemExit 1)). split; [done|].
      split; [by repeat constructor|by left]. }
  rewrite (guarded_install venv_py deps).
  destruct (install_all venv_py (set_iter deps) (State w1 (trace st ++ [Called create 0])))
    as (new2 & w2 & out2 & Hinstall & Hq2 & Hout2).
  rewrite Hinstall. destruct Hout2 as [->|[->|[-> ->]]]; simpl; rewrite <- app_assoc.
  - exists ([Called create 0] ++ new2), w2, (Raise (SystemExit 1)).
    split; [done|]. split; [|by left].
    apply (quiet_app [_]); [by repeat constructor|done].
  - exists ([Called create 0] ++ new2), w2, (Raise OSError).
    split; [done|]. split; [|by right].
    apply (quiet_app [_]); [by repeat constructor|done].
  - eexists _, w2, (Raise (SystemExit 0)). split; [done|]. split.
    + apply (quiet_app [_]); [by repeat constructor|apply quiet_install_events].
    + intros (ev & [Hev|Hev]%elem_of_app & Htrouble).
      * by eapply create_venv_no_trouble in Htrouble.
      * by eapply install_events_ok_no_trouble in Htrouble.
Qed.

(** Writing the requirements file touches the file and nothing else. *)
Lemma file_events_stopped path out new : Forall (file_event path) new → stopped out new.
Proof.
  rewrite Forall_forall. intros Hfile. split.
  - apply Forall_forall. intros ev Hev%Hfile. by destruct ev.
  - intros (ev & Hev%Hfile & [(? & ? & ? & -> & _)|(? & ? & -> & _)]); done.
Qed.

Lemma for_each_events {X} (P : event → Prop) (body : X → M unit) (l : list X) :
  (∀ x st, ∃ new w out, body x st = (out, State w (trace st ++ new)) ∧ Forall P new) →
  ∀ st, ∃ new w out, for_each l body st = (out, State w (trace st ++ new)) ∧ Forall P new.
Proof.
  intros Hbody. induction l as [|x l IH]; intros st.
  - exists [], (world st), (Ret tt). rewrite app_nil_r. split; [by destruct st|constructor].
  - simpl for_each. unfold bind at 1.
    destruct (Hbody x st) as (new1 & w1 & out1 & -> & Hnew1).
    destruct out1 as [[]|e]; [|by exists new1, w1, (Raise e)].
    destruct (IH (State w1 (trace st ++ new1))) as (new2 & w2 & out2 & -> & Hnew2).
    exists (new1 ++ new2), w2, out2. simpl. rewrite <- app_assoc.
    split; [done|by apply Forall_app_2].
Qed.

Lemma f_write_events path text st :
  ∃ new w out,
    f_write path text st = (out, State w (trace st ++ new)) ∧ Forall (file_event path) new.
Proof.
  unfold f_write. destruct (file_write path text (world st)) as [[] w];
    eexists [_], w, _; (split; [done|by repeat constructor]).
Qed.

Lemma write_requirement_events file_path installed dep st :
  ∃ new w out,
    write_requirement file_path installed dep st = (out, State w (trace st ++ new)) ∧
    Forall (file_event file_path) new.
Proof.
  unfold write_requirement, bind.
  match goal with |- context [(if ?b then lift ?o else ret ?v) st] =>
    assert ((if b then lift o else ret v) st = (o, st) ∨
            (if b then lift o else ret v) st = (Ret v, st)) as [->| ->]
      by (destruct b; [by left|by right])
  end.
  - destruct (get_latest_version dep) as [v|e].
    + destruct (py_truthy v); apply f_write_events.
    + exists [], (world st), (Raise e). rewrite app_nil_r. split; [by destruct st|constructor].
  - match goal with |- context [if ?b then _ else _] => destruct b end; apply f_write_events.
Qed.

Lemma generate_requirements_file_events deps installed st :
  ∃ new w out,
    generate_requirements_file deps installed st = (out, State w (trace st ++ new)) ∧
    Forall (file_event (path_div cwd "requirements.txt")) new.
Proof.
  unfold generate_requirements_file.
  set (file_path := path_div cwd "requirements.txt").
  unfold try_except, bind, builtin_open_w.
  destruct (open_w file_path (world st)) as [[] w1]; simpl.
  - destruct (for_each_events (file_event file_path) (write_requirement file_path installed)
                (sorted (set_iter deps)) (write_requirement_events file_path installed)
                (State w1 (trace st ++ [Opened file_path true]))) as (new & w & out & -> & Hnew).
    simpl. rewrite <- app_assoc.
    exists ([Opened file_path true] ++ new), w,
      (match out with Ret a => Ret a | Raise e => if is_IOError e then Ret tt else Raise e end).
    split.
    + destruct out as [[]|e]; [done|]. by destruct (is_IOError e).
    + apply Forall_app_2; [by repeat constructor|done].
  - exists [Opened file_path false], w1, (Ret tt). split; [done|by repeat constructor].
Qed.

End Flows.

Section Default.
Context `{Interpreter} `{OS}.

Lemma run_if_exists_result project_file exe st :
  ∃ new w out,
    run_if_exists project_file exe st = (out, State w (trace st ++ new)) ∧
    ((new = [] ∧ out = Raise (SystemExit 1)) ∨
     (∃ rc, new = [Called [exe; path_str project_file] rc]) ∨
     (new = [NotStarted [exe; path_str project_file]] ∧ out = Raise OSError)).
Proof.
  unfold run_if_exists, bind, exists_.
  destruct (path_exists project_file (world st)); simpl.
  - unfold run_project, try_except.
    destruct (subprocess_check_call_step [exe; path_str project_file] st)
      as [(rc & w & ->)|(w & ->)].
    + exists [Called [exe; path_str project_file] rc], w,
        (if (rc =? 0)%Z then Ret tt else Raise (SystemExit 1)).
      split; [by destruct (rc =? 0)%Z|]. right; left. by exists rc.
    + exists [NotStarted [exe; path_str project_file]], w, (Raise OSError).
      split; [done|]. by right; right.
  - exists [], (world st), (Raise (SystemExit 1)). rewrite app_nil_r.
    split; [by destruct st|by left].
Qed.

Lemma successful_attempts exe attempts dep :
  Forall (λ a, a.2 = 0%Z) attempts → dep ∈ attempts.*1 →
  Called (pip_install_cmd exe dep) 0 ∈ install_events exe attempts.
Proof.
  rewrite Forall_forall. intros Hok ([d rc] & -> & Ha)%list_elem_of_fmap.
  unfold install_events. apply list_elem_of_fmap. exists (d, rc).
  split; [|done]. simpl. apply Hok in Ha. simpl in Ha. by subst rc.
Qed.

Lemma successful_attempts_no_trouble exe attempts ev :
  Forall (λ a, a.2 = 0%Z) attempts → ev ∈ install_events exe attempts → ¬ trouble ev.
Proof.
  rewrite Forall_forall. intros Hok ([d rc] & -> & Ha)%list_elem_of_fmap.
  apply Hok in Ha. simpl in *. subst rc.
  intros [(? & ? & ? & [= _ _ <-] & Hrc)|(? & ? & ? & _)]; done.
Qed.

(** The block that installs the missing dependencies either ends the
    script or has installed every one of them. *)
Lemma install_missing_result args missing exe st :
  ∃ new w out,
    install_missing args missing exe st = (out, State w (trace st ++ new)) ∧
    quiet new ∧
    (out = Raise (SystemExit 1) ∨ out = Raise OSError ∨
     (out = Ret tt ∧
      (∀ dep, dep ∈ missing → Called (pip_install_cmd exe dep) 0 ∈ new) ∧
      (∀ ev, ev ∈ new → ¬ trouble ev))).
Proof.
  unfold install_missing. destruct missing as [|d ds] eqn:Hmissing.
  { exists [], (world st), (Ret tt). rewrite app_nil_r. split; [by destruct st|].
    split; [constructor|]. right; right. split_and!; [done|by intros ? ?%elem_of_nil..]. }
  rewrite <- Hmissing. clear Hmissing.
  set (prompt := "Would you like to install them now? (y/n): ").
  assert (∃ pre w0 response,
            (if arg_yes args then ret "y"
             else answer <- builtin_input prompt ;; ret (lower (strip answer))) st
            = (Ret response, State w0 (trace st ++ pre)) ∧ quiet pre ∧
            (response = "y" → ∀ ev, ev ∈ pre → ¬ trouble ev))
    as (pre & w0 & response & Hresponse & Hpre & Hyes).
  { destruct (arg_yes args).
    - exists [], (world st), "y". rewrite app_nil_r. split; [by destruct st|].
      split; [constructor|]. by intros _ ? ?%elem_of_nil.
    - unfold bind, builtin_input. destruct (input prompt (world st)) as [answer w0].
      exists [Asked prompt answer], w0, (lower (strip answer)). split; [done|].
      split; [by repeat constructor|].
      intros Hy ev ->%list_elem_of_singleton [(? & ? & ? & ? & _)|(? & ? & [= <- <-] & Hno)];
        done. }
  unfold bind at 1. rewrite Hresponse.
  destruct (String.eqb_spec response "y") as [Hy|Hn].
  2:{ exists pre, w0, (Raise (SystemExit 1)). split; [done|]. split; [done|by left]. }
  unfold bind, install_dependencies.
  destruct (install_loop exe missing [] (State w0 (trace st ++ pre)))
    as [(attempts & w & Hdeps & ->)|(attempts & dep & rest & w & w1 & Hdeps & _ & ->)];
    simpl; rewrite <- app_assoc.
  2:{ exists (pre ++ install_events exe attempts ++ [NotStarted (pip_install_cmd exe dep)]), w,
        (Raise OSError). split; [done|]. split; [|by right; left].
      apply quiet_app; [done|]. apply quiet_app; [apply quiet_install_events|].
      by repeat constructor. }
  destruct (failed_of attempts) as [|f fs] eqn:Hfailed.
  - apply failed_of_nil in Hfailed.
    exists (pre ++ install_events exe attempts), w, (Ret tt). split; [done|].
    split; [by apply quiet_app; [|apply quiet_install_events]|]. right; right.
    split_and!; [done| |].
    + intros dep Hdep. apply elem_of_app. right. apply successful_attempts; [done|].
      by rewrite Hdeps.
    + intros ev [Hev|Hev]%elem_of_app; [by apply Hyes|].
      by eapply successful_attempts_no_trouble.
  - exists (pre ++ install_events exe attempts), w, (Raise (SystemExit 1)). split; [done|].
    split; [by apply quiet_app; [|apply quiet_install_events]|by left].
Qed.

Lemma main_default_provisioned args l project_file exe st :
  ∃ new w out,
    main_default args l project_file exe st = (out, State w (trace st ++ new)) ∧
    provisioned exe (path_str project_file) (missing_deps l) out new.
Proof.
  unfold main_default. destruct (arg_dry_run args).
  { exists [], (world st), (Raise (SystemExit 0)). rewrite app_nil_r. split; [by destruct st|].
    left. split; [constructor|]. by intros (? & ?%elem_of_nil & _). }
  unfold bind.
  destruct (install_missing_result args (missing_deps l) exe st)
    as (new1 & w1 & out1 & -> & Hq & Hout).
  destruct Hout as [->|[->|(-> & Hneeded & Hclean)]].
  { exists new1, w1, (Raise (SystemExit 1)). split; [done|]. left. split; [done|by left]. }
  { exists new1, w1, (Raise OSError). split; [done|]. left. split; [done|by right]. }
  destruct (run_if_exists_result project_file exe (State w1 (trace st ++ new1)))
    as (new2 & w2 & out2 & -> & Hrun). simpl. rewrite <- app_assoc.
  exists (new1 ++ new2), w2, out2. split; [done|].
  destruct Hrun as [[-> ->]|[[rc ->]|[-> ->]]].
  - left. rewrite app_nil_r. split; [done|by left].
  - right. by exists new1, rc.
  - left. split; [|by right]. apply quiet_app; [done|by repeat constructor].
Qed.

End Default.

Section AfterScan.
Context `{Interpreter} `{OS}.

Lemma then_exit_stopped out new (code : Z) :
  stopped out new →
  stopped (match out with Ret _ => Raise (SystemExit code) | Raise e => Raise e end) new.
Proof.
  intros [Hq Hexit]. split; [done|]. intros Htrouble.
  destruct (Hexit Htrouble) as [->| ->]; [by left|by right].
Qed.

Lemma then_exit_run {A} (m : M A) (code : Z) st :
  (_ <- m ;; sys_exit code) st =
  ((match (m st).1 with Ret _ => Raise (SystemExit code) | Raise e => Raise e end : outcome unit),
   (m st).2).
Proof. unfold bind, sys_exit, raise. by destruct (m st) as [[a|e] st']. Qed.

Lemma run_event_no_trouble exe pf rc : ¬ trouble (Called [exe; pf] rc).
Proof. intros [(? & ? & ? & ? & _)|(? & ? & ? & _)]; done. Qed.

(** A flow that stopped ran nothing, and ends the script with status 1
    after a failed installation or a declined prompt. *)
Lemma stopped_facts out new pf :
  stopped out new →
  (∀ before exe rc after, new ≠ before ++ Called [exe; pf] rc :: after) ∧
  (∀ ev, ev ∈ new → trouble ev →
     (out = Raise (SystemExit 1) ∨ out = Raise OSError) ∧
     ∀ exe rc, Called [exe; pf] rc ∉ new).
Proof.
  intros [Hq Hexit]. split.
  - intros before exe rc after Hnew. by eapply quiet_no_run.
  - intros ev Hev Htrouble. split; [apply Hexit; by exists ev|].
    intros exe rc. by apply not_run_in_quiet.
Qed.

(** A flow that ran the project ran it last, after the needed
    installations, none of which failed. *)
Lemma ran_facts exe0 pf needed new :
  ran exe0 pf needed new →
  (∀ before exe rc after, new = before ++ Called [exe; pf] rc :: after →
     exe = exe0 ∧
     (∀ dep, dep ∈ needed → Called (pip_install_cmd exe0 dep) 0 ∈ before) ∧
     (∀ ev, ev ∈ before → ¬ trouble ev)) ∧
  (∀ ev, ev ∈ new → ¬ trouble ev).
Proof.
  intros (prefix & rc0 & -> & Hq & Hneeded & Hclean). split.
  - intros before exe rc after Hsplit.
    apply last_run_split in Hsplit as (-> & [= -> _] & _); done.
  - intros ev [Hev|Hev]%elem_of_app; [by apply Hclean|].
    apply list_elem_of_singleton in Hev as ->. apply run_event_no_trouble.
Qed.

End AfterScan.

(** ** What a computation can add to the trace and raise *)

Section EmitsRules.
Context `{Interpreter} `{OS}.
Context (P : event → Prop) (Q : exn → Prop).

Lemma emits_ret {A} (a : A) : emits P Q (ret a).
Proof.
  intros st. exists [], (world st), (Ret a). rewrite app_nil_r.
  split; [by destruct st|]. split; [constructor|done].
Qed.

Lemma emits_raise {A} e : Q e → emits P Q (raise e : M A).
Proof.
  intros He st. exists [], (world st), (Raise e). rewrite app_nil_r.
  split; [by destruct st|]. split; [constructor|]. by intros ? [= <-].
Qed.

Lemma emits_lift {A} (o : outcome A) : (∀ e, o = Raise e → Q e) → emits P Q (lift o).
Proof.
  intros Ho st. exists [], (world st), o. rewrite app_nil_r.
  split; [by destruct st|]. split; [constructor|done].
Qed.

Lemma emits_bind {A B} (m : M A) (k : A → M B) :
  emits P Q m → (∀ a, emits P Q (k a)) → emits P Q (bind m k).
Proof.
  intros Hm Hk st. unfold bind.
  destruct (Hm st) as (new1 & w1 & out1 & -> & Hnew1 & Hout1).
  destruct out1 as [a|e].
  - destruct (Hk a (State w1 (trace st ++ new1))) as (new2 & w2 & out2 & -> & Hnew2 & Hout2).
    exists (new1 ++ new2), w2, out2. simpl. rewrite <- app_assoc.
    split; [done|]. split; [by apply Forall_app_2|done].
  - exists new1, w1, (Raise e). split; [done|]. split; [done|].
    intros ? [= <-]. by apply Hout1.
Qed.

Lemma emits_try_except {A} (Q' : exn → Prop) (body handler : M A) (cls : exn → bool) :
  emits P Q' body → emits P Q handler → (∀ e, Q' e → cls e = false → Q e) →
  emits P Q (try_except body cls handler).
Proof.
  intros Hbody Hhandler Hpass st. unfold try_except.
  destruct (Hbody st) as (new1 & w1 & out1 & -> & Hnew1 & Hout1).
  destruct out1 as [a|e]; [by exists new1, w1, (Ret a)|].
  destruct (cls e) eqn:Hcls.
  - destruct (Hhandler (State w1 (trace st ++ new1)))
      as (new2 & w2 & out2 & -> & Hnew2 & Hout2).
    exists (new1 ++ new2), w2, out2. simpl. rewrite <- app_assoc.
    split; [done|]. split; [by apply Forall_app_2|done].
  - exists new1, w1, (Raise e). split; [done|]. split; [done|].
    intros ? [= <-]. apply Hpass; [by apply Hout1|done].
Qed.

Lemma emits_for_each {X} (l : list X) (body : X → M unit) :
  (∀ x, emits P Q (body x)) → emits P Q (for_each l body).
Proof.
  intros Hbody. induction l as [|x l IH]; [apply emits_ret|].
  simpl. apply emits_bind; [apply Hbody|done].
Qed.

Lemma emits_for_fold {X S} (l : list X) (s : S) (body : S → X → M S) :
  (∀ s x, emits P Q (body s x)) → emits P Q (for_fold l s body).
Proof.
  intros Hbody. revert s. induction l as [|x l IH]; intros s; [apply emits_ret|].
  simpl. apply emits_bind; [apply Hbody|done].
Qed.

Lemma emits_check_call cmd :
  (∀ rc, P (Called cmd rc)) → P (NotStarted cmd) → Q CalledProcessError → Q OSError →
  emits P Q (subprocess_check_call cmd).
Proof.
  intros Hev Hno He Hos st.
  destruct (subprocess_check_call_step cmd st) as [(rc & w & ->)|(w & ->)].
  - exists [Called cmd rc], w, (if (rc =? 0)%Z then Ret tt else Raise CalledProcessError).
    split; [done|]. split; [by repeat constructor|].
    destruct (rc =? 0)%Z; [done|]. by intros ? [= <-].
  - exists [NotStarted cmd], w, (Raise OSError).
    split; [done|]. split; [by repeat constructor|]. by intros ? [= <-].
Qed.

Lemma emits_input prompt : (∀ answer, P (Asked prompt answer)) → emits P Q (builtin_input prompt).
Proof.
  intros Hev st. unfold builtin_input. destruct (input prompt (world st)) as [answer w].
  exists [Asked prompt answer], w, (Ret answer). split; [done|].
  split; [by repeat constructor|done].
Qed.

Lemma emits_exists path : emits P Q (exists_ path).
Proof.
  intros st. exists [], (world st), (Ret (path_exists path (world st))). rewrite app_nil_r.
  split; [by destruct st|]. split; [constructor|done].
Qed.

Lemma emits_open path :
  (∀ ok, P (Opened path ok)) → Q IOError → emits P Q (builtin_open_w path).
Proof.
  intros Hev He st. unfold builtin_open_w. destruct (open_w path (world st)) as [ok w].
  exists [Opened path ok], w, (if ok then Ret tt else Raise IOError).
  split; [by destruct ok|]. split; [by repeat constructor|].
  destruct ok; [done|]. by intros ? [= <-].
Qed.

Lemma emits_write path text :
  (∀ ok, P (Wrote path text ok)) → Q IOError → Q UnicodeEncodeError →
  emits P Q (f_write path text).
Proof.
  intros Hev He Hu st. unfold f_write.
  destruct (file_write path text (world st)) as [[] w];
    eexists [_], w, _; (split; [done|]); (split; [by repeat constructor|]);
    intros ? [= <-]; done.
Qed.

Lemma emits_listed python_exe :
  P (Listed [python_exe; "-m"; "pip"; "list"; "--format=json"]) →
  emits P Q (get_installed_packages python_exe).
Proof.
  intros Hev st. unfold get_installed_packages.
  destruct (check_output_json _ (world st)) as [[|packages] w];
    eexists [_], w, (Ret _); (split; [done|]); (split; [by repeat constructor|done]).
Qed.

End EmitsRules.

(** Applies the rules above as far as they go. *)
Ltac emits_step :=
  first
    [ apply emits_ret | apply emits_exists
    | apply emits_bind; [|intros ?]
    | apply emits_for_each; intros ?
    | apply emits_for_fold; intros ? ?
    | apply emits_check_call; [intros ?; try done|try done..]
    | apply emits_input; [intros ?; try done]
    | apply emits_open; [intros ?; try done|try done]
    | apply emits_write; [intros ?; try done|try done..]
    | apply emits_raise; try done ].

(** Unfolds the functions of the script and applies the rules. *)
Ltac emits_auto :=
  unfold main_after_scan, main_default, main_venv, install_missing, run_if_exists,
    run_in_temp_venv, run_project, install_dependencies, install_one,
    generate_requirements_file, write_requirement, sys_exit;
  repeat first
    [ emits_step
    | apply emits_lift; try done
    | apply (emits_try_except _ _ (λ _, True)); [| |done]
    | match goal with
      | |- emits _ _ (if ?b then _ else _) => destruct b
      | |- emits _ _ (match ?x with _ => _ end) => destruct x
      | |- emits _ _ (let '(_, _) := ?x in _) => destruct x
      end ].


(** ** A command that cannot be started ends the script *)

Section UnstartedRules.
Context `{Interpreter} `{OS}.

Lemma unstarted_last_ret {A} (a : A) : unstarted_last (ret a).
Proof.
  intros st. exists [], (world st), (Ret a). rewrite app_nil_r.
  split; [by destruct st|]. right. split; [done|constructor].
Qed.

Lemma unstarted_last_raise {A} e : e ≠ OSError → unstarted_last (raise e : M A).
Proof.
  intros He st. exists [], (world st), (Raise e). rewrite app_nil_r.
  split; [by destruct st|]. right. split; [congruence|constructor].
Qed.

Lemma unstarted_last_emits {A} (m : M A) :
  emits started (λ e, e ≠ OSError) m → unstarted_last m.
Proof.
  intros Hm st. destruct (Hm st) as (new & w & out & -> & Hnew & Hout).
  exists new, w, out. split; [done|]. right. split; [|done].
  intros ->. by apply (Hout OSError).
Qed.

Lemma unstarted_last_bind {A B} (m : M A) (k : A → M B) :
  unstarted_last m → (∀ a, unstarted_last (k a)) → unstarted_last (bind m k).
Proof.
  intros Hm Hk st. unfold bind.
  destruct (Hm st) as (new1 & w1 & out1 & -> & [[-> Hlast]|[Hout1 Hnew1]]).
  { exists new1, w1, (Raise OSError). split; [done|]. by left. }
  destruct out1 as [a|e].
  2:{ exists new1, w1, (Raise e). split; [done|]. right. split; [congruence|done]. }
  destruct (Hk a (State w1 (trace st ++ new1)))
    as (new2 & w2 & out2 & -> & [[-> (before & cmd & -> & Hbefore)]|[Hout2 Hnew2]]);
    simpl; rewrite <- app_assoc.
  - exists (new1 ++ before ++ [NotStarted cmd]), w2, (Raise OSError). split; [done|].
    left. split; [done|]. exists (new1 ++ before), cmd.
    split; [by rewrite app_assoc|by apply Forall_app_2].
  - exists (new1 ++ new2), w2, out2. split; [done|]. right.
    split; [done|by apply Forall_app_2].
Qed.

(** A handler for an exception that is no [OSError]. *)
Lemma unstarted_last_try_except {A} (body handler : M A) (cls : exn → bool) :
  cls OSError = false → unstarted_last body → unstarted_last handler →
  unstarted_last (try_except body cls handler).
Proof.
  intros Hcls Hbody Hhandler st. unfold try_except.
  destruct (Hbody st) as (new1 & w1 & out1 & -> & [[-> Hlast]|[Hout1 Hnew1]]).
  { rewrite Hcls. exists new1, w1, (Raise OSError). split; [done|]. by left. }
  destruct out1 as [a|e].
  { exists new1, w1, (Ret a). split; [done|]. by right. }
  destruct (cls e).
  2:{ exists new1, w1, (Raise e). split; [done|]. by right. }
  destruct (Hhandler (State w1 (trace st ++ new1)))
    as (new2 & w2 & out2 & -> & [[-> (before & cmd & -> & Hbefore)]|[Hout2 Hnew2]]);
    simpl; rewrite <- app_assoc.
  - exists (new1 ++ before ++ [NotStarted cmd]), w2, (Raise OSError). split; [done|].
    left. split; [done|]. exists (new1 ++ before), cmd.
    split; [by rewrite app_assoc|by apply Forall_app_2].
  - exists (new1 ++ new2), w2, out2. split; [done|]. right.
    split; [done|by apply Forall_app_2].
Qed.

Lemma unstarted_last_for_each {X} (l : list X) (body : X → M unit) :
  (∀ x, unstarted_last (body x)) → unstarted_last (for_each l body).
Proof.
  intros Hbody. induction l as [|x l IH]; [apply unstarted_last_ret|].
  simpl. apply unstarted_last_bind; [apply Hbody|done].
Qed.

Lemma unstarted_last_for_fold {X S} (l : list X) (s : S) (body : S → X → M S) :
  (∀ s x, unstarted_last (body s x)) → unstarted_last (for_fold l s body).
Proof.
  intros Hbody. revert s. induction l as [|x l IH]; intros s; [apply unstarted_last_ret|].
  simpl. apply unstarted_last_bind; [apply Hbody|done].
Qed.

Lemma unstarted_last_check_call cmd : unstarted_last (subprocess_check_call cmd).
Proof.
  intros st. destruct (subprocess_check_call_step cmd st) as [(rc & w & ->)|(w & ->)].
  - exists [Called cmd rc], w, (if (rc =? 0)%Z then Ret tt else Raise CalledProcessError).
    split; [done|]. right. split; [by destruct (rc =? 0)%Z|by repeat constructor].
  - exists [NotStarted cmd], w, (Raise OSError). split; [done|].
    left. split; [done|]. by exists [], cmd.
Qed.

(** Writing the requirements file runs no command, and the [OSError] of a
    file that cannot be opened or written is caught. *)
Lemma generate_requirements_file_started deps installed :
  emits started (λ e, e ≠ OSError) (generate_requirements_file deps installed).
Proof.
  unfold generate_requirements_file.
  apply (emits_try_except _ _ (λ _, True)); [emits_auto|apply emits_ret|].
  by intros [].
Qed.

(** The end of [main] goes no further than the first command that cannot be
    started. *)
Lemma main_after_scan_unstarted_last args deps installed project_file python_exe :
  unstarted_last (main_after_scan args deps installed project_file python_exe).
Proof.
  unfold main_after_scan, main_default, main_venv, install_missing, run_if_exists,
    run_in_temp_venv, run_project, install_dependencies, install_one, sys_exit.
  repeat first
    [ apply unstarted_last_ret
    | apply unstarted_last_raise; done
    | apply unstarted_last_check_call
    | apply unstarted_last_emits;
        first [apply generate_requirements_file_started | by emits_auto]
    | apply unstarted_last_bind; [|intros ?]
    | apply unstarted_last_for_each; intros ?
    | apply unstarted_last_for_fold; intros ? ?
    | apply unstarted_last_try_except; [done| |]
    | match goal with
      | |- unstarted_last (if ?b then _ else _) => destruct b
      | |- unstarted_last (match ?x with _ => _ end) => destruct x
      end ].
Qed.

(** What this says of one run. *)
Lemma unstarted_last_run {A} (m : M A) st out w new :
  unstarted_last m → m st = (out, State w (trace st ++ new)) →
  (out = Raise OSError ↔ ∃ cmd, NotStarted cmd ∈ new) ∧
  (∀ before cmd after, new = before ++ NotStarted cmd :: after → after = []).
Proof.
  intros Hm Hrun.
  destruct (Hm st) as (new' & w' & out' & Hrun' & Hcases).
  rewrite Hrun in Hrun'. injection Hrun' as <- <- <-%app_inv_head.
  destruct Hcases as [[-> (before & cmd & -> & Hbefore)]|[Hout Hnew]].
  - split.
    + split; [|done]. intros _. exists cmd. apply elem_of_app. right.
      by apply list_elem_of_singleton.
    + intros before' cmd' after Heq.
      destruct after as [|ev after]; [done|]. exfalso.
      assert (NotStarted cmd' ∈ before) as Hin.
      { change (before' ++ NotStarted cmd' :: ev :: after)
          with (before' ++ [NotStarted cmd'] ++ ev :: after) in Heq.
        rewrite app_assoc in Heq.
        destruct (exists_last (l := ev :: after)) as (front & z & Hfront); [done|].
        rewrite Hfront, !app_assoc in Heq. apply app_inj_tail in Heq as [-> _].
        apply elem_of_app. left. apply elem_of_app. right. by apply list_elem_of_singleton. }
      rewrite Forall_forall in Hbefore. by apply Hbefore in Hin.
  - rewrite Forall_forall in Hnew. split.
    + split; [done|]. intros [cmd Hin]. by apply Hnew in Hin.
    + intros before cmd after ->. exfalso.
      apply (Hnew (NotStarted cmd)). apply elem_of_app. right. by left.
Qed.

End UnstartedRules.
(** ** The run of the project in the flows of [main] *)

Section Runs.
Context `{Interpreter} `{OS}.

(** Where the project runs, and what a failure leads to. *)
Lemma where_the_project_runs (args : Args) (deps : gset string)
    (installed : gmap string string) (project_file : list string) (st : state) :
  let python_exe := get_python_executable in
  let pf := path_str project_file in
  let venv_py := path_str (venv_python_of (path_div temp_dir "venv")) in
  let missing :=
    missing_deps (assign_missing_deps
                    {| required_deps := deps; installed_deps := installed; missing_deps := [] |}) in
  ∃ new w out,
    main_after_scan args deps installed project_file python_exe st
    = (out, State w (trace st ++ new)) ∧
    (∀ before exe rc after,
       new = before ++ Called [exe; pf] rc :: after →
       arg_generate_requirements args = false ∧
       ((arg_temp_venv args = true ∧ exe = venv_py ∧
         ∀ dep, dep ∈ deps → Called (pip_install_cmd venv_py dep) 0 ∈ before) ∨
        (arg_temp_venv args = false ∧ arg_venv args = false ∧ exe = python_exe ∧
         ∀ dep, dep ∈ missing → Called (pip_install_cmd python_exe dep) 0 ∈ before)) ∧
       (∀ ev, ev ∈ before → ¬ (failed_install ev ∨ declined ev))) ∧
    (∀ ev, ev ∈ new → failed_install ev ∨ declined ev →
       (out = Raise (SystemExit 1) ∨ out = Raise OSError) ∧
       ∀ exe rc, Called [exe; pf] rc ∉ new).
Proof.
  intros python_exe pf venv_py missing. subst python_exe pf venv_py missing.
  unfold main_after_scan.
  destruct (arg_generate_requirements args) eqn:Hgen.
  { rewrite then_exit_run.
    destruct (generate_requirements_file_events deps installed st)
      as (new & w & out & -> & Hnew). simpl.
    eexists new, w, _. split; [done|].
    apply (file_events_stopped _ out), (then_exit_stopped _ _ 0) in Hnew.
    apply (stopped_facts _ _ (path_str project_file)) in Hnew as [Hnorun Hexit]. split; [|done].
    intros before exe rc after Hsplit. by apply Hnorun in Hsplit. }
  destruct (arg_temp_venv args) eqn:Htemp.
  { rewrite then_exit_run.
    destruct (run_in_temp_venv_provisioned deps (path_str project_file) st) as (new & w & out & -> & Hprov). simpl.
    eexists new, w, _. split; [done|].
    destruct Hprov as [Hstop|Hran].
    - apply (then_exit_stopped _ _ 0), (stopped_facts _ _ (path_str project_file)) in Hstop as [Hnorun Hexit].
      split; [|done]. intros before exe rc after Hsplit. by apply Hnorun in Hsplit.
    - apply ran_facts in Hran as [Horder Hclean]. split.
      + intros before exe rc after Hsplit.
        destruct (Horder _ _ _ _ Hsplit) as (-> & Hneeded & Hbefore).
        split; [done|]. split; [|done]. left. split_and!; [done..|].
        intros dep Hdep. by apply Hneeded, elem_of_set_iter.
      + intros ev Hev Htrouble. by apply Hclean in Htrouble. }
  destruct (arg_venv args) eqn:Hvenv.
  { destruct (main_venv_stopped deps st) as (new & w & out & -> & Hstop).
    exists new, w, out. split; [done|].
    apply (stopped_facts _ _ (path_str project_file)) in Hstop as [Hnorun Hexit]. split; [|done].
    intros before exe rc after Hsplit. by apply Hnorun in Hsplit. }
  destruct (main_default_provisioned args
              (assign_missing_deps
                 {| required_deps := deps; installed_deps := installed; missing_deps := [] |})
              project_file get_python_executable st) as (new & w & out & -> & Hprov).
  exists new, w, out. split; [done|].
  destruct Hprov as [Hstop|Hran].
  - apply (stopped_facts _ _ (path_str project_file)) in Hstop as [Hnorun Hexit].
    split; [|done]. intros before exe rc after Hsplit. by apply Hnorun in Hsplit.
  - apply ran_facts in Hran as [Horder Hclean]. split.
    + intros before exe rc after Hsplit.
      destruct (Horder _ _ _ _ Hsplit) as (-> & Hneeded & Hbefore).
      split; [done|]. split; [|done]. right. by split_and!.
    + intros ev Hev Htrouble. by apply Hclean in Htrouble.
Qed.

End Runs.

(** C8. In every run of the end of [main], a command that runs the project
    file comes only in two flows, and there only after provisioning: in the
    temporary-environment flow after every required dependency was installed
    into the environment, and in the default flow after every missing
    dependency (there may be none) was installed; nothing before it is a
    failed installation or a declined prompt.  And when an installation fails
    or the user declines, the script ends with status 1 and the project file
    is not run: it exits through [sys.exit(1)], or through an [OSError] that
    nothing catches.  That happens exactly when a command cannot be started,
    and nothing is run after such a command. *)
Theorem project_runs_after_provisioning `{Interpreter} `{OS} (args : Args) (deps : gset string)
    (installed : gmap string string) (project_file : list string) (st : state) :
  let python_exe := get_python_executable in
  let pf := path_str project_file in
  let venv_py := path_str (venv_python_of (path_div temp_dir "venv")) in
  let missing :=
    missing_deps (assign_missing_deps
                    {| required_deps := deps; installed_deps := installed; missing_deps := [] |}) in
  ∃ new w out,
    main_after_scan args deps installed project_file python_exe st
    = (out, State w (trace st ++ new)) ∧
    (∀ before exe rc after,
       new = before ++ Called [exe; pf] rc :: after →
       arg_generate_requirements args = false ∧
       ((arg_temp_venv args = true ∧ exe = venv_py ∧
         ∀ dep, dep ∈ deps → Called (pip_install_cmd venv_py dep) 0 ∈ before) ∨
        (arg_temp_venv args = false ∧ arg_venv args = false ∧ exe = python_exe ∧
         ∀ dep, dep ∈ missing → Called (pip_install_cmd python_exe dep) 0 ∈ before)) ∧
       (∀ ev, ev ∈ before → ¬ (failed_install ev ∨ declined ev))) ∧
    (∀ ev, ev ∈ new → failed_install ev ∨ declined ev →
       (out = Raise (SystemExit 1) ∨ out = Raise OSError) ∧
       ∀ exe rc, Called [exe; pf] rc ∉ new) ∧
    (out = Raise OSError ↔ ∃ cmd, NotStarted cmd ∈ new) ∧
    (∀ before cmd after, new = before ++ NotStarted cmd :: after → after = []).
Proof.
  intros python_exe pf venv_py missing.
  destruct (where_the_project_runs args deps installed project_file st)
    as (new & w & out & Hrun & Hbefore & Htrouble).
  exists new, w, out. split_and!; [done..| |];
    apply (unstarted_last_run _ _ _ _ _
             (main_after_scan_unstarted_last args deps installed project_file python_exe) Hrun).
Qed.

(** ** [main] up to its last part *)

Section Main.
Context `{Interpreter} `{OS}.

Lemma add_mappings_pure maps package_mappings st :
  for_fold maps package_mappings add_mapping st = (Raise UnboundLocalError, st) ∨
  ∃ package_mappings', for_fold maps package_mappings add_mapping st = (Ret package_mappings', st).
Proof.
  revert package_mappings. induction maps as [|m maps IH]; intros package_mappings.
  - right. by exists package_mappings.
  - simpl for_fold. unfold bind at 1, add_mapping.
    destruct (contains_char ":" m); simpl; [|by left].
    destruct (split_once ":" m) as [import_name package_name]. apply IH.
Qed.

(** Before its last part [main] runs one command, [pip list]; it stops
    there only for a [--map] option without a colon. *)
Lemma main_reaches_after_scan args script_name cwd_items project_root config_exclude st :
  main args script_name cwd_items project_root config_exclude st
  = (Raise UnboundLocalError, st) ∨
  ∃ package_mappings excluded_dirs installed w,
    for_fold (default [] (arg_map args)) PACKAGE_MAPPINGS add_mapping st
    = (Ret package_mappings, st) ∧
    main args script_name cwd_items project_root config_exclude st =
    main_after_scan args
      (scan_directory (cwd, cwd_items) project_root load_blacklist
         (find_local_imports project_root) script_name excluded_dirs package_mappings)
      installed (path_div cwd (arg_project_file args)) get_python_executable
      (State w (trace st ++
                [Listed [get_python_executable; "-m"; "pip"; "list"; "--format=json"]])).
Proof.
  destruct (add_mappings_pure (default [] (arg_map args)) PACKAGE_MAPPINGS st)
    as [Hmaps|[package_mappings Hmaps]].
  { left. unfold main, bind. by rewrite Hmaps. }
  right. exists package_mappings. unfold main, bind, get_installed_packages. rewrite Hmaps.
  destruct (check_output_json [get_python_executable; "-m"; "pip"; "list"; "--format=json"]
              (world st)) as [[|packages] w];
    eexists _, _, w; (split; [done|reflexivity]).
Qed.

End Main.

(** * More properties of the script *)

Local Open Scope nat_scope.

(** ** [find_project_root] *)

Lemma parent_short (path : list string) : length path ≤ 1 → parent path = path.
Proof. destruct path as [|a [|b path]]; simpl; [done..|lia]. Qed.

Lemma parent_take (l : list string) n :
  2 ≤ n ≤ length l → parent (take n l) = take (n - 1) l ∧ parent (take n l) ≠ take n l.
Proof.
  intros [Hn Hlen].
  assert (parent (take n l) = removelast (take n l)) as ->.
  { destruct l as [|a [|b l]]; simpl in Hlen; [lia..|].
    destruct n as [|[|n]]; [lia..|]. done. }
  destruct n as [|n]; [lia|]. rewrite removelast_firstn by lia.
  replace (S n - 1) with n by lia. split; [done|].
  intros Heq. apply (f_equal length) in Heq. rewrite !length_take in Heq. lia.
Qed.

Section ProjectRootProperties.
Context `{OS}.

Lemma find_project_root_loop_none w start rounds n :
  n ≤ length start →
  (∀ j, 2 ≤ j ≤ n → has_marker w (take j start) = false) →
  find_project_root_loop rounds w (take n start) = None.
Proof.
  revert n. induction rounds as [|rounds IH]; intros n Hlen Hnone; [done|].
  simpl. case_bool_decide as Hparent; [|done].
  destruct (decide (2 ≤ n)) as [Hn|Hn].
  - rewrite Hnone by lia. destruct (parent_take start n) as [-> _]; [lia|].
    apply IH; [lia|]. intros j Hj. apply Hnone. lia.
  - destruct Hparent. apply parent_short. rewrite length_take. lia.
Qed.

Lemma find_project_root_loop_some w start rounds n k :
  n ≤ rounds → n ≤ length start → 2 ≤ k ≤ n →
  has_marker w (take k start) = true →
  (∀ j, k < j ≤ n → has_marker w (take j start) = false) →
  find_project_root_loop rounds w (take n start) = Some (take k start).
Proof.
  revert n. induction rounds as [|rounds IH]; intros n Hrounds Hlen Hk Hmark Habove; [lia|].
  simpl. destruct (parent_take start n) as [Hparent Hne]; [lia|].
  rewrite bool_decide_eq_true_2 by done.
  destruct (decide (k = n)) as [->|Hkn]; [by rewrite Hmark|].
  rewrite Habove by lia. rewrite Hparent. apply IH; [lia..|done|].
  intros j Hj. apply Habove. lia.
Qed.

End ProjectRootProperties.

(** X1. [find_project_root] returns the nearest directory, from the start
    path upwards, that holds [.git] or [pyproject.toml]; the anchor of the
    path is never looked at, and when no directory below the anchor holds a
    marker the start path itself is returned. *)
Theorem find_project_root_nearest `{OS} (w : World) (start_path : list string) :
  (∀ k, 2 ≤ k ≤ length start_path →
        has_marker w (take k start_path) = true →
        (∀ j, k < j ≤ length start_path → has_marker w (take j start_path) = false) →
        find_project_root w start_path = take k start_path) ∧
  ((∀ j, 2 ≤ j ≤ length start_path → has_marker w (take j start_path) = false) →
   find_project_root w start_path = start_path).
Proof.
  unfold find_project_root.
  replace (find_project_root_loop (length start_path) w start_path)
    with (find_project_root_loop (length start_path) w (take (length start_path) start_path))
    by (by rewrite firstn_all).
  split.
  - intros k Hk Hmark Habove.
    by rewrite (find_project_root_loop_some w start_path _ _ k).
  - intros Hnone.
    by rewrite (find_project_root_loop_none w start_path _ _ (Nat.le_refl _) Hnone).
Qed.

(** ** The [--map] options *)

Lemma split_once_colon a b :
  contains_char ":" a = false → split_once ":" (a +:+ String ":" b) = (a, b).
Proof.
  induction a as [|c a IH]; simpl; [done|].
  destruct (Ascii.eqb c ":"); simpl; [done|]. intros Ha. by rewrite IH.
Qed.

Section Mappings.
Context `{Interpreter} `{OS}.

Lemma add_mappings_valid maps package_mappings st :
  Forall (λ m, contains_char ":" m = true) maps →
  for_fold maps package_mappings add_mapping st = (Ret (mapped package_mappings maps), st).
Proof.
  intros Hvalid. revert package_mappings.
  induction Hvalid as [|m maps Hm _ IH]; intros package_mappings; [done|].
  simpl for_fold. unfold bind at 1, add_mapping. rewrite Hm. simpl.
  destruct (split_once ":" m) as [import_name package_name] eqn:Hsplit. simpl.
  by rewrite IH.
Qed.

Lemma add_mappings_invalid maps package_mappings st m :
  m ∈ maps → contains_char ":" m = false →
  for_fold maps package_mappings add_mapping st = (Raise UnboundLocalError, st).
Proof.
  intros Hin Hm. revert package_mappings.
  induction maps as [|m' maps IH]; intros package_mappings; [by apply elem_of_nil in Hin|].
  simpl for_fold. unfold bind at 1, add_mapping.
  destruct (contains_char ":" m') eqn:Hm'; simpl; [|done].
  destruct (split_once ":" m') as [import_name package_name].
  apply elem_of_cons in Hin as [->|Hin]; [congruence|]. by apply IH.
Qed.

Lemma mapped_lookup package_mappings maps key :
  mapped package_mappings maps !! key =
  match List.find (λ m, String.eqb (split_once ":" m).1 key) (rev maps) with
  | Some m => Some (split_once ":" m).2
  | None => package_mappings !! key
  end.
Proof.
  unfold mapped. induction maps as [|m maps IH] using rev_ind; [done|].
  rewrite foldl_app, rev_unit. simpl.
  destruct (String.eqb_spec (split_once ":" m).1 key) as [<-|Hne].
  - by rewrite lookup_insert_eq.
  - by rewrite lookup_insert_ne.
Qed.

End Mappings.

(** X2. When every [--map] option has a colon, the options leave the state
    alone and give the default table with, for each import name, the package
    of the last option that names it; an option is split at its first colon,
    so [IMPORT:PACKAGE] maps [IMPORT] to [PACKAGE] whenever [IMPORT] has no
    colon, and the import then resolves to that package unless it is local or
    blacklisted. *)
Theorem map_options_override `{Interpreter} `{OS} (maps : list string)
    (package_mappings : gmap string string) (st : state) :
  Forall (λ m, contains_char ":" m = true) maps →
  ∃ package_mappings',
    for_fold maps package_mappings add_mapping st = (Ret package_mappings', st) ∧
    (∀ key,
       package_mappings' !! key =
       match List.find (λ m, String.eqb (split_once ":" m).1 key) (rev maps) with
       | Some m => Some (split_once ":" m).2
       | None => package_mappings !! key
       end) ∧
    (∀ earlier import_name package_name local_imports blacklist,
       maps = earlier ++ [import_name +:+ String ":" package_name] →
       contains_char ":" import_name = false →
       package_mappings' !! import_name = Some package_name ∧
       (import_name ∉ local_imports → import_name ∉ blacklist →
        resolve_package import_name local_imports blacklist package_mappings'
        = Some package_name)).
Proof.
  intros Hvalid. exists (mapped package_mappings maps).
  split; [by apply add_mappings_valid|]. split; [apply mapped_lookup|].
  intros earlier import_name package_name local_imports blacklist -> Hname.
  assert (mapped package_mappings (earlier ++ [import_name +:+ String ":" package_name])
          !! import_name = Some package_name) as Hlookup.
  { rewrite mapped_lookup, rev_unit. cbn [List.find].
    rewrite (split_once_colon _ _ Hname). cbn [fst snd].
    rewrite String.eqb_refl. by rewrite (split_once_colon _ _ Hname). }
  split; [done|]. intros Hl Hb. unfold resolve_package.
  by rewrite (decide_False _ _ Hl), (decide_False _ _ Hb), Hlookup.
Qed.

(** X3. A [--map] option without a colon makes [main] raise
    [UnboundLocalError] at once (the branch prints through [console] before
    [console] is assigned): nothing is scanned, listed, installed or run. *)
Theorem main_map_without_colon `{Interpreter} `{OS} (args : Args) (script_name : string)
    (cwd_items project_root : list entry) (config_exclude : option (list string))
    (st : state) (m : string) :
  m ∈ default [] (arg_map args) → contains_char ":" m = false →
  main args script_name cwd_items project_root config_exclude st
  = (Raise UnboundLocalError, st).
Proof.
  intros Hin Hm. unfold main, bind.
  by rewrite (add_mappings_invalid _ _ _ m Hin Hm).
Qed.

(** ** Module names have no dot *)

Lemma foldl_ext_in {A B} (f g : A → B → A) (l : list B) (a : A) :
  (∀ acc x, x ∈ l → f acc x = g acc x) → foldl f a l = foldl g a l.
Proof.
  revert a. induction l as [|x l IH]; intros a Hfg; [done|]. simpl.
  rewrite (Hfg a x) by (apply elem_of_cons; by left).
  apply IH. intros acc y Hy. apply Hfg, elem_of_cons. by right.
Qed.

Lemma lookup_undotted package_mappings module :
  contains_char "." module = false →
  undotted package_mappings !! module = package_mappings !! module.
Proof.
  intros Hm. unfold undotted. apply option_eq. intros package.
  rewrite map_lookup_filter_Some. simpl. tauto.
Qed.

Section Undotted.
Context `{Interpreter}.

Lemma extract_imports_no_dot file x : x ∈ extract_imports file → contains_char "." x = false.
Proof.
  unfold extract_imports. destruct file as [name text|name items]; [|by intros ?%elem_of_empty].
  destruct (ast_parse text) as [tree| |]; try by intros ?%elem_of_empty.
  rewrite (elem_of_foldl_adds visit_node node_adds) by apply elem_of_visit_node.
  intros [Hx|(n & _ & [(names & a & _ & _ & ->)|(m & names & _ & _ & ->)])];
    [by apply elem_of_empty in Hx|apply first_component_spec..].
Qed.

Lemma scan_file_undotted blacklist local_imports script_name excluded_dirs package_mappings
    dependencies found :
  scan_file blacklist local_imports script_name excluded_dirs (undotted package_mappings)
    dependencies found
  = scan_file blacklist local_imports script_name excluded_dirs package_mappings
      dependencies found.
Proof.
  unfold scan_file. destruct found as [parts file].
  destruct (String.eqb (entry_name file) script_name); [done|].
  destruct (in_excluded_dir parts excluded_dirs); [done|].
  apply foldl_ext_in. intros acc module Hmodule%elem_of_set_iter%extract_imports_no_dot.
  unfold add_package, resolve_package. by rewrite lookup_undotted.
Qed.

End Undotted.

(** X4. A module name that [extract_imports] returns has no dot.  So an
    entry of the mapping table whose key has a dot (as [google.cloud] and
    [google.auth] in the default table) is never used: the scan gives the same
    packages with and without such entries. *)
Theorem dotted_mappings_unused `{Interpreter} :
  (∀ file x, x ∈ extract_imports file → contains_char "." x = false) ∧
  (∀ directory project_root blacklist local_imports script_name excluded_dirs package_mappings,
     scan_directory directory project_root blacklist local_imports script_name excluded_dirs
       (undotted package_mappings)
     = scan_directory directory project_root blacklist local_imports script_name excluded_dirs
         package_mappings).
Proof.
  split; [apply extract_imports_no_dot|]. intros. unfold scan_directory.
  apply foldl_ext_in. intros acc found _. apply scan_file_undotted.
Qed.

(** ** Exclusions of the scan *)

Lemma under_extends prefix items path e :
  under prefix items path e → ∃ rest, path = prefix ++ rest.
Proof.
  induction 1 as [prefix items e _|prefix items name sub path e _ _ [rest ->]].
  - by eexists.
  - exists ([name] ++ rest). by rewrite app_assoc.
Qed.

Section Exclusions.
Context `{Interpreter}.

Lemma elem_of_scan_directory_found directory project_root blacklist local_imports script_name
    excluded_dirs package_mappings package :
  package ∈ scan_directory directory project_root blacklist local_imports script_name
              excluded_dirs package_mappings ↔
  ∃ found, found ∈ rglob_py directory.1 directory.2 ∧
    file_adds blacklist local_imports script_name excluded_dirs package_mappings found package.
Proof.
  unfold scan_directory.
  rewrite (elem_of_foldl_adds _
             (file_adds blacklist local_imports script_name excluded_dirs package_mappings))
    by (intros; apply elem_of_scan_file).
  split; [|by right]. intros [Hx|?]; [by apply elem_of_empty in Hx|done].
Qed.

Lemma resolve_package_antitone module local_imports local_imports' blacklist blacklist'
    package_mappings package :
  local_imports ⊆ local_imports' → blacklist ⊆ blacklist' →
  resolve_package module local_imports' blacklist' package_mappings = Some package →
  resolve_package module local_imports blacklist package_mappings = Some package.
Proof.
  intros Hl Hb. unfold resolve_package.
  destruct (decide (module ∈ local_imports')) as [|Hl']; [done|].
  destruct (decide (module ∈ blacklist')) as [|Hb']; [done|].
  rewrite decide_False by set_solver. rewrite decide_False by set_solver. done.
Qed.

End Exclusions.

(** X5. When a part of the path of the scanned directory itself is an
    excluded name (a project kept below a directory called [build], say),
    every file is skipped and the scan finds no dependency at all. *)
Theorem scan_directory_excluded_ancestor `{Interpreter} (parts : list string)
    (items project_root : list entry) (blacklist local_imports : gset string)
    (script_name : string) (excluded_dirs : gset string)
    (package_mappings : gmap string string) (part : string) :
  part ∈ parts → part ∈ excluded_dirs →
  scan_directory (parts, items) project_root blacklist local_imports script_name
    excluded_dirs package_mappings = ∅.
Proof.
  intros Hpart Hexcluded. apply elem_of_equiv_empty_L. intros package.
  rewrite elem_of_scan_directory_found.
  intros ([path file] & [Hunder _]%elem_of_rglob_py & _ & Hfree & _). simpl in *.
  apply under_extends in Hunder as [rest ->].
  apply (Hfree part); [|done]. apply elem_of_app. by left.
Qed.

(** X6. More exclusions never add a dependency: when the excluded
    directories, the local modules and the blacklist grow, the result of the
    scan can only shrink. *)
Theorem scan_directory_antitone `{Interpreter} (directory : list string * list entry)
    (project_root : list entry) (blacklist blacklist' local_imports local_imports' : gset string)
    (script_name : string) (excluded_dirs excluded_dirs' : gset string)
    (package_mappings : gmap string string) :
  excluded_dirs ⊆ excluded_dirs' → local_imports ⊆ local_imports' → blacklist ⊆ blacklist' →
  scan_directory directory project_root blacklist' local_imports' script_name excluded_dirs'
    package_mappings
  ⊆ scan_directory directory project_root blacklist local_imports script_name excluded_dirs
      package_mappings.
Proof.
  intros Hex Hl Hb package. rewrite !elem_of_scan_directory_found.
  intros (found & Hfound & Hname & Hfree & module & Hmodule & Hresolve & Hne).
  exists found. split; [done|]. split_and!; [done| |].
  - intros p Hp Hin. apply (Hfree p Hp). by apply Hex.
  - exists module. split_and!; [done| |done]. by eapply resolve_package_antitone.
Qed.

(** ** The two flows that build an environment *)

Section Environments.
Context `{Interpreter} `{OS}.

Lemma for_each_fmap {X Y} (f : X → Y) (body : Y → M unit) (l : list X) st :
  for_each (f <$> l) body st = for_each l (λ x, body (f x)) st.
Proof.
  revert st. induction l as [|x l IH]; intros st; [done|].
  simpl. unfold bind. destruct (body (f x) st) as [[a|e] st']; [apply IH|done].
Qed.

Lemma for_each_app {X} (body : X → M unit) (l1 l2 : list X) st :
  for_each (l1 ++ l2) body st = (_ <- for_each l1 body ;; for_each l2 body) st.
Proof.
  revert st. induction l1 as [|x l1 IH]; intros st; [done|].
  simpl. unfold bind. destruct (body x st) as [[a|e] st']; [|done].
  rewrite IH. done.
Qed.

Lemma for_each_one {X} (body : X → M unit) (x : X) st : for_each [x] body st = body x st.
Proof. simpl. unfold bind, ret. by destruct (body x st) as [[[]|e] st']. Qed.

Lemma all_zero_installs exe deps :
  all_zero (pip_install_cmd exe <$> deps) = install_events exe (all_installed deps).
Proof. unfold all_zero, install_events, all_installed. by rewrite <- !list_fmap_compose. Qed.

Lemma returned_zero_all_zero commands : Forall returned_zero (all_zero commands).
Proof. unfold all_zero. apply Forall_fmap, Forall_true. done. Qed.

Lemma failed_in_at_end commands new : failed_in commands new → failed_at_end new.
Proof.
  intros (before & cmd & rest & rc & _ & Hrc & ->).
  exists (all_zero before), cmd, rc. split_and!; [done..|apply returned_zero_all_zero].
Qed.

Lemma not_started_in_at_end commands new : not_started_in commands new → not_started_at_end new.
Proof.
  intros (before & cmd & rest & _ & ->).
  exists (all_zero before), cmd. split; [done|apply returned_zero_all_zero].
Qed.

(** Commands that are run one after the other stop at the first that does
    not return zero. *)
Lemma check_calls_fail_fast commands st :
  ∃ new w out,
    for_each commands subprocess_check_call st = (out, State w (trace st ++ new)) ∧
    (out = Ret tt ∧ new = all_zero commands ∨
     out = Raise CalledProcessError ∧ failed_in commands new ∨
     out = Raise OSError ∧ not_started_in commands new).
Proof.
  revert st. induction commands as [|cmd commands IH]; intros st.
  - exists [], (world st), (Ret tt). rewrite app_nil_r. split; [by destruct st|by left].
  - simpl for_each. unfold bind.
    destruct (subprocess_check_call_step cmd st) as [(rc & w1 & ->)|(w1 & ->)].
    2:{ exists [NotStarted cmd], w1, (Raise OSError). split; [done|].
        right; right. split; [done|]. by exists [], cmd, commands. }
    destruct (Z.eqb_spec rc 0) as [->|Hrc].
    2:{ exists [Called cmd rc], w1, (Raise CalledProcessError). split; [done|].
        right; left. split; [done|]. by exists [], cmd, commands, rc. }
    destruct (IH (State w1 (trace st ++ [Called cmd 0]))) as (new & w & out & -> & Hout).
    exists (Called cmd 0 :: new), w, out. simpl. rewrite <- app_assoc. split; [done|].
    destruct Hout as [[-> ->]|[[-> Hfail]|[-> Hnot]]].
    + by left.
    + right; left. split; [done|].
      destruct Hfail as (before & c & rest & rc & -> & Hrc & ->).
      by exists (cmd :: before), c, rest, rc.
    + right; right. split; [done|].
      destruct Hnot as (before & c & rest & -> & ->).
      by exists (cmd :: before), c, rest.
Qed.

(** The commands of the [--venv] flow, and those of [run_in_temp_venv]. *)
Lemma venv_commands create exe (deps : gset string) st :
  (_ <- subprocess_check_call create ;;
   if bool_decide (deps ≠ ∅)
   then for_each (set_iter deps) (λ dep, subprocess_check_call (pip_install_cmd exe dep))
   else ret tt) st
  = for_each (create :: (pip_install_cmd exe <$> set_iter deps)) subprocess_check_call st.
Proof.
  rewrite (guarded_install exe deps). simpl for_each. unfold bind.
  destruct (subprocess_check_call create st) as [[a|e] st']; [|done].
  by rewrite for_each_fmap.
Qed.

Lemma temp_venv_commands create exe run (deps : gset string) st :
  (_ <- subprocess_check_call create ;;
   _ <- for_each (set_iter deps) (λ dep, subprocess_check_call (pip_install_cmd exe dep)) ;;
   subprocess_check_call run) st
  = for_each (create :: (pip_install_cmd exe <$> set_iter deps) ++ [run])
      subprocess_check_call st.
Proof.
  simpl for_each. unfold bind at 1 3.
  destruct (subprocess_check_call create st) as [[a|e] st']; [|done].
  rewrite for_each_app. unfold bind. rewrite for_each_fmap.
  destruct (for_each (set_iter deps) _ st') as [[b|e] st'']; [|done].
  by rewrite for_each_one.
Qed.

End Environments.

(** X7. [--venv]: when [./venv] exists nothing is done and the script exits
    with status 1.  Otherwise the commands of the flow are [python -m venv]
    and then one [pip install] into the new environment for each required
    dependency; they are run in this order, each only when those before it
    returned zero.  The script never returns from this flow: it exits with
    status 0 when every command returned zero, with status 1 at the first
    command that returns another code, and through an [OSError] that nothing
    catches at the first command that cannot be started; the commands after
    that one are not run. *)
Theorem main_venv_result `{Interpreter} `{OS} (deps : gset string) (st : state) :
  let venv_path := path_div cwd "venv" in
  let venv_py := path_str (venv_python_of venv_path) in
  let create := [sys_executable; "-m"; "venv"; path_str venv_path] in
  let commands := create :: (pip_install_cmd venv_py <$> set_iter deps) in
  ∃ new w out,
    main_venv deps st = (out, State w (trace st ++ new)) ∧
    (path_exists venv_path (world st) = true → new = [] ∧ out = Raise (SystemExit 1)) ∧
    (path_exists venv_path (world st) = false →
     out = Raise (SystemExit 0) ∧ new = all_zero commands ∨
     out = Raise (SystemExit 1) ∧ failed_in commands new ∨
     out = Raise OSError ∧ not_started_in commands new).
Proof.
  intros venv_path venv_py create commands. unfold main_venv.
  fold venv_path. fold venv_py. fold create.
  unfold bind at 1. unfold exists_.
  destruct (path_exists venv_path (world st)) eqn:Hthere.
  { exists [], (world st), (Raise (SystemExit 1)). rewrite app_nil_r.
    split; [by destruct st|]. by split. }
  unfold bind at 1. unfold try_except. rewrite (venv_commands create venv_py deps st).
  fold commands.
  destruct (check_calls_fail_fast commands st) as (new & w & out & -> & Hout).
  destruct Hout as [[-> ->]|[[-> Hfail]|[-> Hnot]]]; simpl; unfold sys_exit, raise.
  - eexists _, w, _. split; [done|]. split; [done|]. intros _. by left.
  - eexists _, w, _. split; [done|]. split; [done|]. intros _. by right; left.
  - eexists _, w, _. split; [done|]. split; [done|]. intros _. by right; right.
Qed.

(** X8. [run_in_temp_venv] runs the project only as its last command, in an
    environment that every required dependency was installed into.  It
    returns only when that run returned zero; when any command fails (the
    creation, an installation, or the project itself) nothing more is tried
    and the script exits with status 1.  When a command cannot be started
    nothing more is tried either, and the [OSError] of that command is not
    caught. *)
Theorem run_in_temp_venv_result `{Interpreter} `{OS} (required_deps : gset string)
    (project_file : string) (st : state) :
  let venv_path := path_div temp_dir "venv" in
  let venv_py := path_str (venv_python_of venv_path) in
  let create := [sys_executable; "-m"; "venv"; path_str venv_path] in
  ∃ new w out,
    run_in_temp_venv required_deps project_file st = (out, State w (trace st ++ new)) ∧
    (out = Ret tt ∧
       new = Called create 0 ::
             install_events venv_py (all_installed (set_iter required_deps)) ++
             [Called [venv_py; project_file] 0] ∨
     out = Raise (SystemExit 1) ∧ failed_at_end new ∨
     out = Raise OSError ∧ not_started_at_end new).
Proof.
  intros venv_path venv_py create. unfold run_in_temp_venv.
  fold venv_path. fold venv_py. fold create.
  unfold try_except.
  rewrite (temp_venv_commands create venv_py [venv_py; project_file] required_deps st).
  destruct (check_calls_fail_fast
              (create :: (pip_install_cmd venv_py <$> set_iter required_deps) ++
               [[venv_py; project_file]]) st) as (new & w & out & -> & Hout).
  destruct Hout as [[-> ->]|[[-> Hfail]|[-> Hnot]]]; simpl; unfold sys_exit, raise.
  - eexists _, w, _. split; [done|]. left. split; [done|].
    f_equal. unfold all_zero at 1. rewrite fmap_app.
    fold (all_zero (pip_install_cmd venv_py <$> set_iter required_deps)).
    by rewrite all_zero_installs.
  - eexists _, w, _. split; [done|]. right; left. split; [done|]. by eapply failed_in_at_end.
  - eexists _, w, _. split; [done|]. right; right. split; [done|].
    by eapply not_started_in_at_end.
Qed.

Section Prompt.
Context `{Interpreter} `{OS}.

Lemma generate_requirements_file_no_prompt deps installed :
  emits no_prompt (λ _, True) (generate_requirements_file deps installed).
Proof. emits_auto. Qed.

Lemma run_in_temp_venv_no_prompt deps pf :
  emits no_prompt (λ _, True) (run_in_temp_venv deps pf).
Proof. emits_auto. Qed.

Lemma main_venv_no_prompt deps : emits no_prompt (λ _, True) (main_venv deps).
Proof. emits_auto. Qed.

Lemma install_dependencies_no_prompt missing exe :
  emits no_prompt (λ _, True) (install_dependencies missing exe).
Proof. emits_auto. Qed.

Lemma run_if_exists_no_prompt pf exe : emits no_prompt (λ _, True) (run_if_exists pf exe).
Proof. emits_auto. Qed.

End Prompt.

Section PromptTheorem.
Context `{Interpreter} `{OS}.

Lemma main_after_scan_no_prompt args deps installed project_file python_exe :
  ¬ asks args (missing_deps (assign_missing_deps
                 {| required_deps := deps; installed_deps := installed; missing_deps := [] |})) →
  emits no_prompt (λ _, True) (main_after_scan args deps installed project_file python_exe).
Proof.
  intros Hnot. unfold main_after_scan.
  destruct (arg_generate_requirements args) eqn:Hgen; [emits_auto|].
  destruct (arg_temp_venv args) eqn:Htemp; [emits_auto|].
  destruct (arg_venv args) eqn:Hvenv; [emits_auto|].
  unfold main_default. destruct (arg_dry_run args) eqn:Hdry; [emits_auto|].
  unfold install_missing.
  destruct (missing_deps _) as [|d ds] eqn:Hmissing; [emits_auto|].
  destruct (arg_yes args) eqn:Hyes; [emits_auto|].
  destruct Hnot. unfold asks. done.
Qed.

Lemma classic_asks args missing : asks args missing ∨ ¬ asks args missing.
Proof.
  unfold asks.
  destruct (arg_generate_requirements args), (arg_temp_venv args), (arg_venv args),
    (arg_dry_run args), (arg_yes args), missing; intuition congruence.
Qed.

(** What the default flow does when it asks. *)
Lemma main_default_asks args l project_file python_exe st :
  arg_dry_run args = false → arg_yes args = false → missing_deps l ≠ [] →
  let prompt := "Would you like to install them now? (y/n): " in
  let st1 := State (input prompt (world st)).2
               (trace st ++ [Asked prompt (input prompt (world st)).1]) in
  main_default args l project_file python_exe st =
  if String.eqb (lower (strip (input prompt (world st)).1)) "y"
  then (_ <- (failed_packages <- install_dependencies (missing_deps l) python_exe ;;
              match failed_packages with
              | [] => ret tt
              | _ :: _ => sys_exit 1
              end) ;;
        run_if_exists project_file python_exe) st1
  else (Raise (SystemExit 1), st1).
Proof.
  intros Hdry Hyes Hmissing prompt st1. subst st1 prompt.
  unfold main_default, install_missing. rewrite Hdry, Hyes.
  destruct (missing_deps l) as [|d ds]; [done|].
  unfold bind, builtin_input, ret.
  destruct (input _ (world st)) as [answer w0]. simpl.
  by destruct (String.eqb (lower (strip answer)) "y").
Qed.

End PromptTheorem.

(** X9. The script asks whether to install exactly in the default flow, when
    it is not a dry run, [--yes] was not given and a dependency is missing.
    It then asks once, before any command, and unless the answer is [y]
    (white space and case apart) it does nothing more and exits with status
    1.  In every other case no prompt appears. *)
Theorem prompt_exactly_when `{Interpreter} `{OS} (args : Args) (deps : gset string)
    (installed : gmap string string) (project_file : list string) (st : state) :
  let python_exe := get_python_executable in
  let missing :=
    missing_deps (assign_missing_deps
                    {| required_deps := deps; installed_deps := installed; missing_deps := [] |}) in
  ∃ new w out,
    main_after_scan args deps installed project_file python_exe st
    = (out, State w (trace st ++ new)) ∧
    (¬ asks args missing → Forall no_prompt new) ∧
    (asks args missing →
     ∃ prompt answer rest,
       new = Asked prompt answer :: rest ∧ Forall no_prompt rest ∧
       (lower (strip answer) ≠ "y" → rest = [] ∧ out = Raise (SystemExit 1))).
Proof.
  intros python_exe missing.
  destruct (classic_asks args missing) as [Hasks|Hnot].
  2:{ destruct (main_after_scan_no_prompt args deps installed project_file python_exe Hnot st)
        as (new & w & out & Heq & Hnew & _).
      exists new, w, out. split; [done|]. split; [done|]. by intros ?. }
  destruct Hasks as (Hgen & Htemp & Hvenv & Hdry & Hyes & Hmissing).
  unfold main_after_scan. rewrite Hgen, Htemp, Hvenv.
  rewrite main_default_asks by done.
  set (prompt := "Would you like to install them now? (y/n): ").
  set (answer := (input prompt (world st)).1).
  set (w0 := (input prompt (world st)).2).
  destruct (String.eqb_spec (lower (strip answer)) "y") as [Hy|Hn].
  - assert (emits no_prompt (λ _, True)
              (_ <- (failed_packages <- install_dependencies missing python_exe ;;
                     match failed_packages with
                     | [] => ret tt
                     | _ :: _ => sys_exit 1
                     end) ;;
               run_if_exists project_file python_exe)) as Hrest by emits_auto.
    destruct (Hrest (State w0 (trace st ++ [Asked prompt answer])))
      as (rest & w & out & Heq & Hnew & _).
    exists (Asked prompt answer :: rest), w, out.
    split; [etrans; [exact Heq|]; simpl; by rewrite <- app_assoc|].
    split; [by intros []|]. intros _.
    exists prompt, answer, rest. split_and!; [done..|]. by intros [].
  - exists [Asked prompt answer], w0, (Raise (SystemExit 1)).
    split; [done|]. split; [by intros []|]. intros _.
    exists prompt, answer, []. split_and!; [done|constructor|done].
Qed.

(** ** Failures while the requirements file is written *)

Section RequirementsFailures.
Context `{Interpreter} `{OS}.

Lemma get_latest_version_raises dep e : get_latest_version dep = Raise e → e = AttributeError.
Proof.
  unfold get_latest_version, py_get.
  repeat case_match; intros; by simplify_eq.
Qed.

(** One write: it succeeds, or it is the last event. *)
Lemma f_write_outcome path text st :
  ∃ ok w out,
    f_write path text st = (out, State w (trace st ++ [Wrote path text ok])) ∧
    (ok = true ∧ out = Ret tt ∨
     ok = false ∧ (out = Raise IOError ∨ out = Raise UnicodeEncodeError)).
Proof.
  unfold f_write. destruct (file_write path text (world st)) as [[] w].
  - exists true, w, (Ret tt). split; [done|by left].
  - exists false, w, (Raise IOError). split; [done|]. right. split; [done|by left].
  - exists false, w, (Raise UnicodeEncodeError). split; [done|]. right. split; [done|by right].
Qed.

(** The events of the loop are writes to the file; the loop ends at the
    first write that fails and at the first lookup that raises. *)
Lemma write_requirements_outcome file_path installed deps st :
  ∃ new w out,
    for_each deps (write_requirement file_path installed) st
    = (out, State w (trace st ++ new)) ∧
    Forall (file_event file_path) new ∧
    (out = Ret tt ∨ out = Raise AttributeError ∨
     ((out = Raise IOError ∨ out = Raise UnicodeEncodeError) ∧
      ∃ before text, new = before ++ [Wrote file_path text false])).
Proof.
  revert st. induction deps as [|dep deps IH]; intros st.
  { exists [], (world st), (Ret tt). rewrite app_nil_r.
    split; [by destruct st|]. split; [constructor|by left]. }
  simpl for_each. unfold bind at 1.
  assert (∃ new1 w1 out1,
            write_requirement file_path installed dep st
            = (out1, State w1 (trace st ++ new1)) ∧
            Forall (file_event file_path) new1 ∧
            (out1 = Ret tt ∨ out1 = Raise AttributeError ∨
             ((out1 = Raise IOError ∨ out1 = Raise UnicodeEncodeError) ∧
              ∃ before text, new1 = before ++ [Wrote file_path text false])))
    as (new1 & w1 & out1 & -> & Hnew1 & Hout1).
  { assert (∀ text st',
              ∃ new1 w1 out1,
                f_write file_path text st' = (out1, State w1 (trace st' ++ new1)) ∧
                Forall (file_event file_path) new1 ∧
                (out1 = Ret tt ∨ out1 = Raise AttributeError ∨
                 ((out1 = Raise IOError ∨ out1 = Raise UnicodeEncodeError) ∧
                  ∃ before text, new1 = before ++ [Wrote file_path text false]))) as Hw.
    { intros text st'.
      destruct (f_write_outcome file_path text st')
        as (ok & w1 & out1 & -> & [[-> ->]|[-> Hfail]]).
      - exists [Wrote file_path text true], w1, (Ret tt).
        split; [done|]. split; [by repeat constructor|by left].
      - exists [Wrote file_path text false], w1, out1.
        split; [done|]. split; [by repeat constructor|]. right; right.
        split; [done|]. by exists [], text. }
    unfold write_requirement, bind.
    match goal with |- context [(if ?b then lift ?o else ret ?v) st] =>
      assert ((if b then lift o else ret v) st = (o, st) ∨
              (if b then lift o else ret v) st = (Ret v, st)) as [->| ->]
        by (destruct b; [by left|by right])
    end.
    - destruct (get_latest_version dep) as [v|e] eqn:Hlookup.
      + destruct (py_truthy v); apply Hw.
      + apply get_latest_version_raises in Hlookup as ->.
        exists [], (world st), (Raise AttributeError). rewrite app_nil_r.
        split; [by destruct st|]. split; [constructor|by right; left].
    - match goal with |- context [if ?b then _ else _] => destruct b end; apply Hw. }
  destruct Hout1 as [->|[->|[Hfail Hlast]]].
  - destruct (IH (State w1 (trace st ++ new1))) as (new2 & w2 & out2 & -> & Hnew2 & Hout2).
    exists (new1 ++ new2), w2, out2. simpl. rewrite <- app_assoc.
    split; [done|]. split; [by apply Forall_app_2|].
    destruct Hout2 as [->|[->|[Hfail (before & text & ->)]]];
      [by left|by right; left|right; right].
    split; [done|]. exists (new1 ++ before), text. by rewrite app_assoc.
  - exists new1, w1, (Raise AttributeError). split; [done|]. split; [done|by right; left].
  - exists new1, w1, out1. split; [by destruct Hfail as [->| ->]|].
    split; [done|]. right; right. by split.
Qed.

Lemma generate_requirements_file_outcome deps installed st :
  let file_path := path_div cwd "requirements.txt" in
  ∃ new w out,
    generate_requirements_file deps installed st = (out, State w (trace st ++ new)) ∧
    Forall (file_event file_path) new ∧
    (out = Ret tt ∨ out = Raise AttributeError ∨
     (out = Raise UnicodeEncodeError ∧
      ∃ before text, new = before ++ [Wrote file_path text false])).
Proof.
  intros file_path. unfold generate_requirements_file. fold file_path.
  unfold try_except, bind, builtin_open_w.
  destruct (open_w file_path (world st)) as [[] w1]; simpl.
  2:{ exists [Opened file_path false], w1, (Ret tt).
      split; [done|]. split; [by repeat constructor|by left]. }
  destruct (write_requirements_outcome file_path installed (sorted (set_iter deps))
              (State w1 (trace st ++ [Opened file_path true])))
    as (new & w & out & -> & Hnew & Hout). simpl. rewrite <- app_assoc.
  assert (Forall (file_event file_path) ([Opened file_path true] ++ new)) as Hall.
  { apply Forall_app_2; [by repeat constructor|done]. }
  destruct Hout as [->|[->|[[->| ->] (before & text & ->)]]]; simpl.
  - eexists _, w, _. split; [done|]. split; [done|by left].
  - eexists _, w, _. split; [done|]. split; [done|by right; left].
  - eexists _, w, _. split; [done|]. split; [done|by left].
  - eexists _, w, _. split; [done|]. split; [done|]. right; right. split; [done|].
    exists (Opened file_path true :: before), text. done.
Qed.

End RequirementsFailures.

(** X10. [generate_requirements_file] touches nothing but the file
    [requirements.txt] of the current directory, and never lets an [IOError]
    out: it returns, or raises the [AttributeError] of a lookup at the index,
    or the [UnicodeEncodeError] of a line that the encoding of the file
    cannot hold, and then that write is the last thing it did.  When the file
    cannot be opened nothing is written, the function still returns, and
    [main] with [--generate-requirements] exits with status 0 all the same. *)
Theorem generate_requirements_file_failures `{Interpreter} `{OS} (deps : gset string)
    (installed : gmap string string) (st : state) :
  let file_path := path_div cwd "requirements.txt" in
  ∃ new w out,
    generate_requirements_file deps installed st = (out, State w (trace st ++ new)) ∧
    Forall (file_event file_path) new ∧
    (out = Ret tt ∨ out = Raise AttributeError ∨ out = Raise UnicodeEncodeError) ∧
    (out = Raise UnicodeEncodeError →
     ∃ before text, new = before ++ [Wrote file_path text false]) ∧
    ((open_w file_path (world st)).1 = false → new = [Opened file_path false] ∧ out = Ret tt) ∧
    (∀ args project_file python_exe,
       arg_generate_requirements args = true →
       main_after_scan args deps installed project_file python_exe st =
       (match out with Ret _ => Raise (SystemExit 0) | Raise e => Raise e end,
        State w (trace st ++ new))).
Proof.
  intros file_path.
  destruct (generate_requirements_file_outcome deps installed st)
    as (new & w & out & Heq & Hnew & Hout).
  exists new, w, out. split_and!; [done|done| | | |].
  - destruct Hout as [->|[->|[-> _]]]; [by left|by right; left|by right; right].
  - intros ->. by destruct Hout as [?|[?|[_ ?]]].
  - intros Hopen. revert Heq. unfold generate_requirements_file, try_except, bind, builtin_open_w.
    fold file_path. destruct (open_w file_path (world st)) as [ok w1]. simpl in Hopen. subst ok.
    simpl. intros [= <- <- Htrace]. by apply app_inv_head in Htrace as <-.
  - intros args project_file python_exe Hgen. unfold main_after_scan. rewrite Hgen.
    rewrite then_exit_run, Heq. done.
Qed.

(** ** The exit status of the default flow *)

Section DefaultStatus.
Context `{Interpreter} `{OS}.




End DefaultStatus.


(** ** What [--dry-run] covers *)

Section DryRun.
Context `{Interpreter} `{OS}.

(** A guarded sequence that starts with a command has the attempt to run
    that command as its first event. *)
Lemma try_check_call_first {A} cmd (k : unit → M A) (cls : exn → bool) (handler : M A) :
  (∀ a, emits (λ _, True) (λ _, True) (k a)) → emits (λ _, True) (λ _, True) handler →
  ∀ st, ∃ first rest w out,
    try_except (bind (subprocess_check_call cmd) k) cls handler st
    = (out, State w (trace st ++ first :: rest)) ∧ attempt cmd first.
Proof.
  intros Hk Hhandler st. unfold try_except, bind.
  assert (∃ first w1 out1,
            subprocess_check_call cmd st = (out1, State w1 (trace st ++ [first])) ∧
            attempt cmd first) as (first & w1 & out1 & -> & Hfirst).
  { destruct (subprocess_check_call_step cmd st) as [(rc & w1 & ->)|(w1 & ->)].
    - eexists _, w1, _. split; [done|]. right. by exists rc.
    - eexists _, w1, _. split; [done|]. by left. }
  set (st1 := State w1 (trace st ++ [first])).
  assert (∀ rest w, State w (trace st1 ++ rest) = State w (trace st ++ first :: rest))
    as Htrace by (intros; simpl; by rewrite <- app_assoc).
  destruct out1 as [[]|e1].
  - destruct (Hk tt st1) as (new2 & w2 & out2 & -> & _).
    destruct out2 as [a|e]; [exists first, new2, w2, (Ret a); by rewrite Htrace|].
    destruct (cls e); [|exists first, new2, w2, (Raise e); by rewrite Htrace].
    destruct (Hhandler (State w2 (trace st1 ++ new2))) as (new3 & w3 & out3 & -> & _).
    exists first, (new2 ++ new3), w3, out3. simpl. by rewrite <- !app_assoc.
  - destruct (cls e1);
      [|exists first, [], w1, (Raise e1); by rewrite <- Htrace, app_nil_r].
    destruct (Hhandler st1) as (new3 & w3 & out3 & -> & _).
    exists first, new3, w3, out3. by rewrite Htrace.
Qed.

End DryRun.

(** X12. [--dry-run] is looked at in the default flow only.  There it stops
    the script before any prompt or command, with status 0.  With
    [--temp-venv], and with [--venv] when [./venv] does not exist yet, the
    environment is created all the same: the first thing the script does is
    to run [python -m venv] (the command runs, or it cannot be started). *)
Theorem dry_run_only_in_default_flow `{Interpreter} `{OS} (args : Args) (deps : gset string)
    (installed : gmap string string) (project_file : list string) (python_exe : string)
    (st : state) :
  arg_dry_run args = true → arg_generate_requirements args = false →
  (arg_temp_venv args = false → arg_venv args = false →
   main_after_scan args deps installed project_file python_exe st
   = (Raise (SystemExit 0), st)) ∧
  (arg_temp_venv args = true →
   ∃ first rest w out,
     main_after_scan args deps installed project_file python_exe st =
     (out, State w (trace st ++ first :: rest)) ∧
     attempt [sys_executable; "-m"; "venv"; path_str (path_div temp_dir "venv")] first) ∧
  (arg_temp_venv args = false → arg_venv args = true →
   path_exists (path_div cwd "venv") (world st) = false →
   ∃ first rest w out,
     main_after_scan args deps installed project_file python_exe st =
     (out, State w (trace st ++ first :: rest)) ∧
     attempt [sys_executable; "-m"; "venv"; path_str (path_div cwd "venv")] first).
Proof.
  intros Hdry Hgen. unfold main_after_scan. rewrite Hgen. split_and!.
  - intros -> ->. unfold main_default. by rewrite Hdry.
  - intros ->. rewrite then_exit_run. unfold run_in_temp_venv.
    edestruct (try_check_call_first (A := unit)) as (first & rest & w & out & -> & Hfirst);
      [| |by eexists first, rest, w, _]; [intros []|]; emits_auto.
  - intros -> -> Hthere. unfold main_venv. unfold bind at 1. unfold exists_. rewrite Hthere.
    rewrite then_exit_run.
    edestruct (try_check_call_first (A := unit)) as (first & rest & w & out & -> & Hfirst);
      [| |by eexists first, rest, w, _]; [intros []|]; emits_auto.
Qed.

(** ** Installed packages and capital letters *)




(** ** The local modules that files give *)

Lemma append_cons c x y : String c x +:+ y = String c (x +:+ y).
Proof. reflexivity. Qed.

Lemma substring_whole s : substring 0 (String.length s) s = s.
Proof. induction s as [|c s IH]; simpl; [done|]. by rewrite IH. Qed.

Lemma substring_split s n :
  n ≤ String.length s → substring 0 n s +:+ substring n (String.length s - n) s = s.
Proof.
  revert s. induction n as [|n IH]; intros s Hn.
  - rewrite Nat.sub_0_r, substring_whole. by destruct s.
  - destruct s as [|c s]; simpl in *; [lia|]. rewrite append_cons, IH by lia. done.
Qed.

Lemma substring_prefix_length s n :
  n ≤ String.length s → String.length (substring 0 n s) = n.
Proof.
  revert s. induction n as [|n IH]; intros s Hn; [by destruct s|].
  destruct s as [|c s]; simpl in *; [lia|]. by rewrite IH by lia.
Qed.

Lemma substring_append_l x y : substring 0 (String.length x) (x +:+ y) = x.
Proof.
  induction x as [|c x IH]; [by destruct y|]. rewrite append_cons. simpl. by rewrite IH.
Qed.

Lemma length_append x y : String.length (x +:+ y) = String.length x + String.length y.
Proof. induction x as [|c x IH]; [done|]. rewrite append_cons. simpl. by rewrite IH. Qed.

Lemma append_empty_r s : s +:+ "" = s.
Proof. induction s as [|c s IH]; [done|]. by rewrite append_cons, IH. Qed.

Lemma rfind_bound c s : (-1 ≤ rfind c s < Z.of_nat (String.length s))%Z.
Proof.
  induction s as [|d s IH]; simpl; [lia|].
  destruct (Z.leb_spec 0 (rfind c s)); [lia|]. destruct (Ascii.eqb d c); lia.
Qed.

Lemma rfind_before_py x : rfind "." (x +:+ ".py") = Z.of_nat (String.length x).
Proof.
  induction x as [|c x IH]; [done|].
  rewrite append_cons. cbn [rfind String.length]. rewrite IH.
  destruct (Z.leb_spec 0 (Z.of_nat (String.length x))); lia.
Qed.

Lemma stem_suffix name : stem name +:+ suffix name = name.
Proof.
  unfold stem, suffix. pose proof (rfind_bound "." name) as Hbound.
  destruct ((0 <? rfind "." name)%Z && (rfind "." name <? Z.of_nat (String.length name) - 1)%Z);
    [|apply append_empty_r].
  apply substring_split. lia.
Qed.

Lemma py_file_stem name x :
  suffix name = ".py" ∧ stem name = x ↔ x ≠ "" ∧ name = x +:+ ".py".
Proof.
  split.
  - intros [Hsuffix <-]. split; [|by rewrite <- Hsuffix, stem_suffix].
    revert Hsuffix. unfold stem, suffix. pose proof (rfind_bound "." name) as Hbound.
    destruct ((0 <? rfind "." name)%Z && (rfind "." name <? Z.of_nat (String.length name) - 1)%Z)
      eqn:Hcond; [|done].
    apply andb_true_iff in Hcond as [Hpos%Z.ltb_lt _]. intros _ Hempty.
    apply (f_equal String.length) in Hempty. rewrite substring_prefix_length in Hempty by lia.
    simpl in Hempty. lia.
  - intros [Hx ->]. unfold stem, suffix. rewrite rfind_before_py, length_append. simpl.
    assert (0 < String.length x) as Hlen by (destruct x; [done|simpl; lia]).
    replace (0 <? Z.of_nat (String.length x))%Z with true by (symmetry; apply Z.ltb_lt; lia).
    replace (Z.of_nat (String.length x) <? Z.of_nat (String.length x + 3) - 1)%Z with true
      by (symmetry; apply Z.ltb_lt; lia).
    simpl. rewrite Nat2Z.id. split; [|apply substring_append_l].
    replace (String.length x + 3 - String.length x) with 3 by lia.
    clear. induction x as [|c x IH]; [done|]. rewrite append_cons. simpl. exact IH.
Qed.

(** X14. A file gives a local module exactly when its name is a stem that
    is not empty followed by [.py], and the module is that stem (so [.py]
    alone gives none, and [a.b.py] gives [a.b]); stem and suffix of a name
    always make up the name.  Every such file among the immediate children of
    the project root is recorded by [find_local_imports]. *)
Theorem local_module_of_file (project_root : list entry) (name text x : string) :
  stem name +:+ suffix name = name ∧
  (records_local (File name text) x ↔ x ≠ "" ∧ name = x +:+ ".py") ∧
  (File name text ∈ project_root → x ≠ "" → name = x +:+ ".py" →
   x ∈ find_local_imports project_root).
Proof.
  split; [apply stem_suffix|].
  assert (records_local (File name text) x ↔ x ≠ "" ∧ name = x +:+ ".py") as Hrecords.
  { rewrite <- py_file_stem. unfold records_local. split.
    - intros [(? & ? & ? & _)|(n & t & [= <- <-] & Hs & ->)]; done.
    - intros [Hs <-]. right. by exists name, text. }
  split; [done|]. intros Hin Hx Hname.
  apply find_local_imports_two_levels. exists (File name text).
  split; [by left|]. by apply Hrecords.
Qed.

(** ** What the script installs *)

Section InstallsOnly.
Context `{Interpreter} `{OS}.

Lemma emits_for_each_in {X} (P : event → Prop) (Q : exn → Prop) (l : list X)
    (body : X → M unit) :
  (∀ x, x ∈ l → emits P Q (body x)) → emits P Q (for_each l body).
Proof.
  induction l as [|x l IH]; intros Hbody; [apply emits_ret|].
  simpl. apply emits_bind; [apply Hbody, elem_of_cons; by left|].
  intros _. apply IH. intros y Hy. apply Hbody, elem_of_cons. by right.
Qed.

Lemma emits_for_fold_in {X S} (P : event → Prop) (Q : exn → Prop) (l : list X) (s : S)
    (body : S → X → M S) :
  (∀ s x, x ∈ l → emits P Q (body s x)) → emits P Q (for_fold l s body).
Proof.
  revert s. induction l as [|x l IH]; intros s Hbody; [apply emits_ret|].
  simpl. apply emits_bind; [apply Hbody, elem_of_cons; by left|].
  intros s'. apply IH. intros s'' y Hy. apply Hbody, elem_of_cons. by right.
Qed.

Lemma installs_only_install allowed exe dep rc :
  dep ∈ allowed → installs_only allowed (Called (pip_install_cmd exe dep) rc).
Proof. intros Hdep exe' dep' rc' [= _ <- _]. done. Qed.

Lemma installs_only_other allowed ev :
  (∀ exe dep rc, ev ≠ Called (pip_install_cmd exe dep) rc) → installs_only allowed ev.
Proof. intros Hev exe dep rc Heq. by destruct (Hev exe dep rc). Qed.

Lemma install_loop_installs_only allowed exe :
  emits (installs_only allowed) (λ _, True)
    (for_each allowed (λ dep, subprocess_check_call (pip_install_cmd exe dep))).
Proof.
  apply emits_for_each_in. intros dep Hdep.
  apply emits_check_call; [|by apply installs_only_other|done..].
  intros rc. by apply installs_only_install.
Qed.

Lemma install_dependencies_installs_only allowed exe :
  emits (installs_only allowed) (λ _, True) (install_dependencies allowed exe).
Proof.
  unfold install_dependencies. apply emits_for_fold_in. intros failed dep Hdep.
  unfold install_one. apply (emits_try_except _ _ (λ _, True)); [|apply emits_ret|done].
  apply emits_bind; [|intros; apply emits_ret].
  apply emits_check_call; [|by apply installs_only_other|done..].
  intros rc. by apply installs_only_install.
Qed.

End InstallsOnly.

(** Closes the goals about events that are no [pip install]. *)
Ltac not_an_install := apply installs_only_other; intros ? ? ?; done.

(** X15. The script never installs anything that the scan did not ask for:
    every [pip install] it runs, in any flow, is for a required dependency,
    and in the default flow for one whose lowercased name is not among the
    installed packages. *)
Theorem installs_only_what_is_needed `{Interpreter} `{OS} (args : Args) (deps : gset string)
    (installed : gmap string string) (project_file : list string) (python_exe : string)
    (st : state) :
  ∃ new w out,
    main_after_scan args deps installed project_file python_exe st
    = (out, State w (trace st ++ new)) ∧
    ∀ exe dep rc,
      Called (pip_install_cmd exe dep) rc ∈ new →
      dep ∈ deps ∧
      (arg_temp_venv args = false → arg_venv args = false → lower dep ∉ dom installed).
Proof.
  set (missing := missing_deps (assign_missing_deps
         {| required_deps := deps; installed_deps := installed; missing_deps := [] |})).
  assert (∀ dep, dep ∈ missing → dep ∈ deps ∧ lower dep ∉ dom installed) as Hmissing.
  { intros dep. unfold missing. simpl. rewrite list_elem_of_In, filter_In, <- list_elem_of_In.
    rewrite elem_of_set_iter, negb_true_iff, bool_decide_eq_false. done. }
  assert (∀ allowed,
            allowed = (if arg_generate_requirements args then []
                       else if arg_temp_venv args || arg_venv args then set_iter deps
                       else missing) →
            emits (installs_only allowed) (λ _, True)
              (main_after_scan args deps installed project_file python_exe)) as Hemits.
  { intros allowed ->. unfold main_after_scan.
    destruct (arg_generate_requirements args).
    { unfold generate_requirements_file, write_requirement, sys_exit.
      repeat first
        [ emits_step | not_an_install | apply emits_lift; done
        | apply (emits_try_except _ _ (λ _, True)); [| |done]
        | match goal with |- emits _ _ (if ?b then _ else _) => destruct b end ]. }
    destruct (arg_temp_venv args); simpl.
    { unfold run_in_temp_venv, sys_exit.
      apply emits_bind; [|intros; by apply emits_raise].
      apply (emits_try_except _ _ (λ _, True)); [|by apply emits_raise|done].
      apply emits_bind; [apply emits_check_call; [intros; not_an_install|not_an_install|done..]|]. intros _.
      apply emits_bind; [apply install_loop_installs_only|]. intros _.
      apply emits_check_call; [intros; not_an_install|not_an_install|done..]. }
    destruct (arg_venv args); simpl.
    { unfold main_venv, sys_exit.
      apply emits_bind; [apply emits_exists|]. intros [|]; [by apply emits_raise|].
      apply emits_bind; [|intros; by apply emits_raise].
      apply (emits_try_except _ _ (λ _, True)); [|by apply emits_raise|done].
      apply emits_bind; [apply emits_check_call; [intros; not_an_install|not_an_install|done..]|]. intros _.
      rewrite guarded_install. apply install_loop_installs_only. }
    unfold main_default, sys_exit. destruct (arg_dry_run args); [by apply emits_raise|].
    apply emits_bind.
    - unfold install_missing. fold missing. destruct missing as [|d ds] eqn:Hm; [apply emits_ret|].
      rewrite <- Hm. apply emits_bind.
      + destruct (arg_yes args); [apply emits_ret|].
        apply emits_bind; [apply emits_input; intros; not_an_install|intros; apply emits_ret].
      + intros response. destruct (String.eqb response "y"); [|by apply emits_raise].
        apply emits_bind; [apply install_dependencies_installs_only|].
        intros [|? ?]; [apply emits_ret|by apply emits_raise].
    - intros _. unfold run_if_exists, run_project, sys_exit.
      apply emits_bind; [apply emits_exists|]. intros [|]; simpl; [|by apply emits_raise].
      apply (emits_try_except _ _ (λ _, True)); [|by apply emits_raise|done].
      apply emits_check_call; [intros; not_an_install|not_an_install|done..]. }
  destruct (Hemits _ eq_refl st) as (new & w & out & Heq & Hnew & _).
  exists new, w, out. split; [done|]. intros exe dep rc Hin.
  rewrite Forall_forall in Hnew. specialize (Hnew _ Hin exe dep rc eq_refl).
  destruct (arg_generate_requirements args); [by apply elem_of_nil in Hnew|].
  destruct (arg_temp_venv args); simpl in Hnew; [by apply elem_of_set_iter in Hnew|].
  destruct (arg_venv args); simpl in Hnew; [by apply elem_of_set_iter in Hnew|].
  apply Hmissing in Hnew as [? ?]. done.
Qed.

(** ** What [main] scans *)




(** * The model at work *)

Example demo_extract_imports :
  @extract_imports demo_interpreter (File "app.py" demo_app)
  = {[ "os"; "yaml"; "requests"; "foo" ]}.
Proof. vm_compute. reflexivity. Qed.

Lemma extract_imports_parsed_witness :
  "requests" ∈ @extract_imports demo_interpreter (File "app.py" demo_app) ↔
  ∃ m, imports_module demo_app_tree m ∧ "requests" = first_component m.
Proof.
  apply (@extract_imports_parsed demo_interpreter "app.py" demo_app demo_app_tree "requests").
  reflexivity.
Defined.

Lemma extract_imports_syntax_error_witness :
  @extract_imports demo_interpreter (File "broken.py" "def f(:") = ∅ ∧
  ∀ blacklist local_imports script_name excluded_dirs package_mappings dependencies path,
    @scan_file demo_interpreter blacklist local_imports script_name excluded_dirs
      package_mappings dependencies (path, File "broken.py" "def f(:") = dependencies.
Proof.
  apply (@extract_imports_syntax_error demo_interpreter "broken.py" "def f(:").
  reflexivity.
Defined.

(** With [--map foo:] the table maps [foo] to the empty string.  Resolving
    [foo] then gives the empty string, not [None], and the scan drops it. *)
Lemma scan_directory_drops_empty_package :
  resolve_package "foo" ∅ ∅ (<[ "foo" := "" ]> PACKAGE_MAPPINGS) = Some "" ∧
  ("" ∉ @scan_directory demo_interpreter (["proj"], [File "app.py" demo_app])
          [File "app.py" demo_app] ∅ ∅ "dependency_detective.py" EXCLUDED_DIRS
          (<[ "foo" := "" ]> PACKAGE_MAPPINGS)) ∧
  (¬ @scan_directory_as_stated demo_interpreter ["proj"] [File "app.py" demo_app]
       ∅ ∅ "dependency_detective.py" EXCLUDED_DIRS (<[ "foo" := "" ]> PACKAGE_MAPPINGS)).
Proof.
  assert ("" ∉ @scan_directory demo_interpreter (["proj"], [File "app.py" demo_app])
         [File "app.py" demo_app] ∅ ∅ "dependency_detective.py" EXCLUDED_DIRS
         (<[ "foo" := "" ]> PACKAGE_MAPPINGS)) as Hnot by compute_done.
  split_and!; [by vm_compute|done|].
  intros Hclaim. apply Hnot, Hclaim.
  exists ["proj"; "app.py"], (File "app.py" demo_app). split_and!.
  - apply (under_here ["proj"] [File "app.py" demo_app] (File "app.py" demo_app)).
    by apply list_elem_of_singleton.
  - reflexivity.
  - done.
  - intros part Hp. revert part Hp. apply Forall_forall. compute_done.
  - exists "foo". split; [compute_done|by vm_compute].
Qed.

(** The index answers with a document, with a 404, with a value that is no
    document, and not at all. *)
Example demo_get_latest_version :
  @get_latest_version demo_os "requests" = Ret (PStr "2.31.0") ∧
  @get_latest_version demo_os "ghost" = Ret PNone ∧
  @get_latest_version demo_os "page" = Ret PNone ∧
  @get_latest_version demo_os "unreachable" = Ret PNone ∧
  @get_latest_version demo_os "odd" = Raise AttributeError.
Proof. by vm_compute. Qed.

Lemma get_latest_version_spec_witness :
  (@get_latest_version demo_os "requests" = Ret PNone ∨
   ∃ status data v,
     @requests_get demo_os (pypi_url "requests") = Response status (Some data) ∧
     version_found data v ∧ @get_latest_version demo_os "requests" = Ret v) ∧
  (∀ status data v,
     @requests_get demo_os (pypi_url "requests") = Response status (Some data) →
     ¬ (400 ≤ status < 600)%Z → version_found data v →
     @get_latest_version demo_os "requests" = Ret v) ∧
  (∀ status data,
     @requests_get demo_os (pypi_url "requests") = Response status (Some data) →
     ¬ (400 ≤ status < 600)%Z → (∀ v, ¬ version_found data v) →
     @get_latest_version demo_os "requests" = Ret PNone) ∧
  (@requests_get demo_os (pypi_url "requests") = RequestFailed →
   @get_latest_version demo_os "requests" = Ret PNone) ∧
  (∀ status json,
     @requests_get demo_os (pypi_url "requests") = Response status json →
     (400 ≤ status < 600)%Z → @get_latest_version demo_os "requests" = Ret PNone).
Proof.
  apply (@get_latest_version_spec demo_os "requests").
  intros status data Hget _. vm_compute in Hget. injection Hget as <- <-.
  eexists. split; [reflexivity|]. intros info Hinfo. vm_compute in Hinfo.
  injection Hinfo as <-. by eexists.
Defined.

(** The index answers [odd] with a JSON value that is no object.  The lookup
    of [info] then raises [AttributeError], which [get_latest_version] does
    not catch: it returns neither a version nor [None]. *)
Lemma get_latest_version_not_a_document :
  @requests_get demo_os (pypi_url "odd") = Response 200 (Some (POther true)) ∧
  @get_latest_version demo_os "odd" = Raise AttributeError ∧
  ¬ @get_latest_version_as_stated demo_os "odd".
Proof.
  assert (@get_latest_version demo_os "odd" = Raise AttributeError) as Hraise by done.
  split_and!; [done|done|].
  intros [Hnone|(status & data & v & _ & _ & Hv)]; congruence.
Qed.

(** The requirements of a project that needs three packages, one of them
    installed, one known to the index and one unknown. *)
Example demo_requirements :
  trace (@generate_requirements_file demo_interpreter demo_os
           {[ "requests"; "PyYAML"; "ghost" ]} {[ "pyyaml" := "6.0.1" ]} (demo_state [] [])).2
  = [ Opened ["proj"; "requirements.txt"] true;
      Wrote ["proj"; "requirements.txt"] ("PyYAML==6.0.1" +:+ newline) true;
      Wrote ["proj"; "requirements.txt"] ("ghost" +:+ newline) true;
      Wrote ["proj"; "requirements.txt"] ("requests==2.31.0" +:+ newline) true ].
Proof. by vm_compute. Qed.

Lemma generate_requirements_file_spec_witness :
  let file_path := ["proj"; "requirements.txt"] in
  let names := sorted (@set_iter demo_interpreter {[ "requests"; "PyYAML"; "ghost" ]}) in
  (∃ w,
     @generate_requirements_file demo_interpreter demo_os
       {[ "requests"; "PyYAML"; "ghost" ]} {[ "pyyaml" := "6.0.1" ]} (demo_state [] []) =
     (Ret tt,
      @State demo_os w
        ([] ++ Opened file_path true ::
           ((λ dep, Wrote file_path
                      (@requirement_line demo_os {[ "pyyaml" := "6.0.1" ]} dep) true)
              <$> names)))) ∧
  Sorted String.le names ∧ names ≡ₚ elements ({[ "requests"; "PyYAML"; "ghost" ]} : gset string) ∧
  NoDup names.
Proof.
  apply (@generate_requirements_file_spec demo_interpreter demo_os
           {[ "requests"; "PyYAML"; "ghost" ]} {[ "pyyaml" := "6.0.1" ]} (demo_state [] [])).
  - done.
  - done.
  - intros dep [[->%elem_of_singleton| ->%elem_of_singleton]%elem_of_union
               | ->%elem_of_singleton]%elem_of_union.
    + right. by eexists.
    + by left.
    + by left.
Defined.

(** A package two levels below the root is not a local module: the scan
    takes it for a package to install. *)
Example demo_nested_package :
  let project_root := [Dir "app" [Dir "core" [File "__init__.py" ""]]; File "setup.py" ""] in
  find_local_imports project_root = {[ "setup" ]} ∧
  resolve_package "core" (find_local_imports project_root) ∅ PACKAGE_MAPPINGS = Some "core".
Proof. by vm_compute. Qed.

(** Three installations, the second of which fails. *)
Example demo_install_dependencies :
  @install_dependencies demo_os ["a"; "b"; "c"] "python3" (demo_state [0; 1; 0]%Z [])
  = (Ret ["b"],
     @State demo_os (DemoWorld [] [])
       [ Called ["python3"; "-m"; "pip"; "install"; "a"] 0;
         Called ["python3"; "-m"; "pip"; "install"; "b"] 1;
         Called ["python3"; "-m"; "pip"; "install"; "c"] 0 ]).
Proof. by vm_compute. Qed.

(** An interpreter that cannot be started: the first [pip install] raises
    [FileNotFoundError], an [OSError] that the loop does not catch; the second
    dependency is not tried and no list is returned. *)
Example demo_install_dependencies_unstartable :
  @install_dependencies demo_os ["requests"; "flask"] "/nonexistent/python" (demo_state [] [])
  = (Raise OSError,
     @State demo_os (DemoWorld [] [])
       [ NotStarted ["/nonexistent/python"; "-m"; "pip"; "install"; "requests"] ]).
Proof. by vm_compute. Qed.

(** The default flow: the user agrees, the missing package is installed and
    the project runs. *)
Example demo_default_flow :
  @main_after_scan demo_interpreter demo_os demo_args {[ "requests"; "PyYAML" ]}
    {[ "pyyaml" := "6.0.1" ]} ["proj"; "main.py"] "python3" (demo_state [0; 0]%Z ["Y "])
  = (Ret tt,
     @State demo_os (DemoWorld [] [])
       [ Asked "Would you like to install them now? (y/n): " "Y ";
         Called ["python3"; "-m"; "pip"; "install"; "requests"] 0;
         Called ["python3"; "proj/main.py"] 0 ]).
Proof. by vm_compute. Qed.

(** The default flow with such an interpreter: the script ends through the
    [OSError], after the prompt. *)
Example demo_default_flow_unstartable :
  @main_after_scan demo_interpreter demo_os demo_args {[ "requests" ]} ∅
    ["proj"; "main.py"] "/nonexistent/python" (demo_state [] ["y"])
  = (Raise OSError,
     @State demo_os (DemoWorld [] [])
       [ Asked "Would you like to install them now? (y/n): " "y";
         NotStarted ["/nonexistent/python"; "-m"; "pip"; "install"; "requests"] ]).
Proof. by vm_compute. Qed.

(** The whole of [main] on a project whose second installation fails: the
    script exits with status 1 and runs nothing. *)
Example demo_main_failed_install :
  @main demo_interpreter demo_os demo_args "dependency_detective.py"
    [File "main.py" demo_app; File "helpers.py" ""; Dir "venv" [File "x.py" demo_app]]
    [File "main.py" demo_app; File "helpers.py" ""] None (demo_state [0; 3]%Z [" y"])
  = (Raise (SystemExit 1),
     @State demo_os (DemoWorld [] [])
       [ Listed ["python3"; "-m"; "pip"; "list"; "--format=json"];
         Asked "Would you like to install them now? (y/n): " " y";
         Called ["python3"; "-m"; "pip"; "install"; "foo"] 0;
         Called ["python3"; "-m"; "pip"; "install"; "requests"] 3 ]).
Proof. by vm_compute. Qed.

(** The temporary environment: created, filled, then the project runs in it. *)
Example demo_temp_venv :
  @run_in_temp_venv demo_interpreter demo_os {[ "requests" ]} "proj/main.py" (demo_state [] [])
  = (Ret tt,
     @State demo_os (DemoWorld [] [])
       [ Called ["python3"; "-m"; "venv"; "tmp/tmpk3x/venv"] 0;
         Called ["tmp/tmpk3x/venv/bin/python"; "-m"; "pip"; "install"; "requests"] 0;
         Called ["tmp/tmpk3x/venv/bin/python"; "proj/main.py"] 0 ]).
Proof. by vm_compute. Qed.

(** The persistent environment: the first installation fails, the second
    dependency is not tried and the script exits with status 1. *)
Example demo_venv_failed_install :
  @main_venv demo_interpreter demo_os {[ "requests"; "flask" ]} (demo_state [0; 2]%Z [])
  = (Raise (SystemExit 1),
     @State demo_os (DemoWorld [] [])
       [ Called ["python3"; "-m"; "venv"; "proj/venv"] 0;
         Called ["proj/venv/bin/python"; "-m"; "pip"; "install"; "flask"] 2 ]).
Proof. by vm_compute. Qed.

(** ** More of the model at work *)

(** The nearest marker wins, and a marker in the anchor is not seen. *)
Example demo_find_project_root :
  @find_project_root demo_os_marked (DemoWorld [] []) ["/"; "home"; "u"; "work"; "app"; "src"]
  = ["/"; "home"; "u"; "work"] ∧
  @find_project_root demo_os_marked (DemoWorld [] []) ["/"; "srv"; "site"]
  = ["/"; "srv"; "site"].
Proof. by vm_compute. Qed.

(** The two dotted keys are the only entries of the default table that the
    scan cannot use. *)
Example demo_undotted :
  dom PACKAGE_MAPPINGS ∖ dom (undotted PACKAGE_MAPPINGS) = {[ "google.cloud"; "google.auth" ]}.
Proof. by vm_compute. Qed.

Lemma map_options_override_witness :
  ∃ package_mappings',
    @for_fold demo_os _ _ ["yaml:ruamel.yaml"; "SoCo:soco"; "yaml:PyYAML==6:0"]
      PACKAGE_MAPPINGS (@add_mapping demo_os) (demo_state [] [])
    = (Ret package_mappings', demo_state [] []) ∧
    (∀ key,
       package_mappings' !! key =
       match List.find (λ m, String.eqb (split_once ":" m).1 key)
               (rev ["yaml:ruamel.yaml"; "SoCo:soco"; "yaml:PyYAML==6:0"]) with
       | Some m => Some (split_once ":" m).2
       | None => PACKAGE_MAPPINGS !! key
       end) ∧
    (∀ earlier import_name package_name local_imports blacklist,
       ["yaml:ruamel.yaml"; "SoCo:soco"; "yaml:PyYAML==6:0"]
       = earlier ++ [import_name +:+ String ":" package_name] →
       contains_char ":" import_name = false →
       package_mappings' !! import_name = Some package_name ∧
       (import_name ∉ local_imports → import_name ∉ blacklist →
        resolve_package import_name local_imports blacklist package_mappings'
        = Some package_name)).
Proof.
  apply (@map_options_override demo_interpreter demo_os
           ["yaml:ruamel.yaml"; "SoCo:soco"; "yaml:PyYAML==6:0"] PACKAGE_MAPPINGS
           (demo_state [] [])).
  by repeat constructor.
Defined.

Lemma main_map_without_colon_witness :
  @main demo_interpreter demo_os demo_args_bad_map "dependency_detective.py"
    [File "main.py" demo_app] [File "main.py" demo_app] None (demo_state [] [])
  = (Raise UnboundLocalError, demo_state [] []).
Proof.
  apply (@main_map_without_colon demo_interpreter demo_os demo_args_bad_map
           "dependency_detective.py" [File "main.py" demo_app] [File "main.py" demo_app] None
           (demo_state [] []) "SoCo").
  - compute_done.
  - reflexivity.
Defined.

Lemma scan_directory_excluded_ancestor_witness :
  @scan_directory demo_interpreter (["/"; "home"; "build"; "proj"], [File "app.py" demo_app])
    [File "app.py" demo_app] ∅ ∅ "dependency_detective.py" EXCLUDED_DIRS PACKAGE_MAPPINGS = ∅.
Proof.
  apply (@scan_directory_excluded_ancestor demo_interpreter ["/"; "home"; "build"; "proj"]
           [File "app.py" demo_app] [File "app.py" demo_app] ∅ ∅ "dependency_detective.py"
           EXCLUDED_DIRS PACKAGE_MAPPINGS "build"); compute_done.
Defined.

Lemma scan_directory_antitone_witness :
  @scan_directory demo_interpreter
    (["proj"], [File "app.py" demo_app; Dir "build" [File "gen.py" "def main():
    import numpy as np"]])
    [] {[ "os" ]} {[ "foo" ]} "dependency_detective.py" EXCLUDED_DIRS PACKAGE_MAPPINGS
  ⊆ @scan_directory demo_interpreter
      (["proj"], [File "app.py" demo_app; Dir "build" [File "gen.py" "def main():
    import numpy as np"]])
      [] ∅ ∅ "dependency_detective.py" ∅ PACKAGE_MAPPINGS.
Proof.
  apply (@scan_directory_antitone demo_interpreter
           (["proj"], [File "app.py" demo_app; Dir "build" [File "gen.py" "def main():
    import numpy as np"]])
           [] ∅ {[ "os" ]} ∅ {[ "foo" ]} "dependency_detective.py" ∅ EXCLUDED_DIRS
           PACKAGE_MAPPINGS); set_solver.
Defined.

(** The scan of that project with and without the exclusions. *)
Example demo_scan_exclusions :
  @scan_directory demo_interpreter
    (["proj"], [File "app.py" demo_app; Dir "build" [File "gen.py" "def main():
    import numpy as np"]])
    [] {[ "os" ]} {[ "foo" ]} "dependency_detective.py" EXCLUDED_DIRS PACKAGE_MAPPINGS
  = {[ "PyYAML"; "requests" ]} ∧
  @scan_directory demo_interpreter
    (["proj"], [File "app.py" demo_app; Dir "build" [File "gen.py" "def main():
    import numpy as np"]])
    [] ∅ ∅ "dependency_detective.py" ∅ PACKAGE_MAPPINGS
  = {[ "os"; "PyYAML"; "requests"; "foo"; "numpy" ]}.
Proof. by vm_compute. Qed.

(** A dry run with [--venv] builds the environment. *)
Example demo_dry_run_venv :
  @main_after_scan demo_interpreter demo_os demo_args_dry_venv {[ "requests" ]} ∅
    ["proj"; "main.py"] "python3" (demo_state [] [])
  = (Raise (SystemExit 0),
     @State demo_os (DemoWorld [] [])
       [ Called ["python3"; "-m"; "venv"; "proj/venv"] 0;
         Called ["proj/venv/bin/python"; "-m"; "pip"; "install"; "requests"] 0 ]).
Proof. by vm_compute. Qed.

Lemma dry_run_only_in_default_flow_witness :
  (arg_temp_venv demo_args_dry_venv = false → arg_venv demo_args_dry_venv = false →
   @main_after_scan demo_interpreter demo_os demo_args_dry_venv {[ "requests" ]} ∅
     ["proj"; "main.py"] "python3" (demo_state [] [])
   = (Raise (SystemExit 0), demo_state [] [])) ∧
  (arg_temp_venv demo_args_dry_venv = true →
   ∃ first rest w out,
     @main_after_scan demo_interpreter demo_os demo_args_dry_venv {[ "requests" ]} ∅
       ["proj"; "main.py"] "python3" (demo_state [] []) =
     (out, @State demo_os w (trace (demo_state [] []) ++ first :: rest)) ∧
     attempt [@sys_executable demo_os; "-m"; "venv";
              @path_str demo_os (@path_div demo_os (@temp_dir demo_os) "venv")] first) ∧
  (arg_temp_venv demo_args_dry_venv = false → arg_venv demo_args_dry_venv = true →
   @path_exists demo_os (@path_div demo_os (@cwd demo_os) "venv")
     (world (demo_state [] [])) = false →
   ∃ first rest w out,
     @main_after_scan demo_interpreter demo_os demo_args_dry_venv {[ "requests" ]} ∅
       ["proj"; "main.py"] "python3" (demo_state [] []) =
     (out, @State demo_os w (trace (demo_state [] []) ++ first :: rest)) ∧
     attempt [@sys_executable demo_os; "-m"; "venv";
              @path_str demo_os (@path_div demo_os (@cwd demo_os) "venv")] first).
Proof.
  apply (@dry_run_only_in_default_flow demo_interpreter demo_os demo_args_dry_venv
           {[ "requests" ]} ∅ ["proj"; "main.py"] "python3" (demo_state [] []));
    reflexivity.
Defined.


(** A file whose encoding has no code for a character of a name: the line
    of that name cannot be written, the [UnicodeEncodeError] is not caught
    and the lines after it are not written. *)
Example demo_requirements_not_encodable :
  @generate_requirements_file demo_interpreter demo_os_ascii
    {[ "PyYAML"; demo_cafe; "zope" ]} {[ "pyyaml" := "6.0.1" ]}
    (@State demo_os_ascii (DemoWorld [] []) [])
  = (Raise UnicodeEncodeError,
     @State demo_os_ascii (DemoWorld [] [])
       [ Opened ["proj"; "requirements.txt"] true;
         Wrote ["proj"; "requirements.txt"] ("PyYAML==6.0.1" +:+ newline) true;
         Wrote ["proj"; "requirements.txt"] (demo_cafe +:+ newline) false ]).
Proof. by vm_compute. Qed.
